(** * drei-vanilla: the fisheye projector and the cube-camera helper

    A shallow embedding of [src/core/Fisheye.ts] (class [Fisheye]) and
    [src/core/CubeCamera.ts] (function [CubeCamera]) together with the
    part of three.js both call into, and of the handlers by which the
    two stories of the repository drive them.

    Numbers.  A JavaScript [number] that carries a length, an angle or a
    matrix entry is embedded as a real number ([R]): arithmetic is exact,
    the rounding of an operation is not modelled.  A constant is the
    number JavaScript has for it: [Math.PI] is the binary64 number
    nearest to pi, not pi.  Counters and texel sizes are integers.  Where
    rounding decides what the code does (a ray that touches the sphere,
    the last digits of a direction) the arithmetic of a pick is given a
    second time on binary64 floats, operation by operation.

    Objects.  A JavaScript object that is shared by reference (a render
    target, referenced from the projector, from its cube camera and,
    through its texture, from the sphere material) lives in a store and is
    named by its key; an object owned by exactly one field is embedded by
    value.  A method takes the object it mutates and returns it changed.

    The renderer.  What the renderer draws is logged as a list of
    commands.  A draw may throw: a method that calls the renderer ends in
    a [Completion], which says whether the call returned and carries the
    state it left behind either way. *)

From Stdlib Require Import Reals Lra Psatz ZArith List Bool RNsatz Machin.
From Stdlib Require Floats.
From stdpp Require Import gmap.
Import ListNotations.

(** ** JavaScript's [Math]

    [Math.PI] is the binary64 number nearest to pi,
    [884279719003555 / 2^48] (3.141592653589793). *)
Module Math.
Local Open Scope R_scope.

Definition PI : R := 884279719003555 / 281474976710656.

End Math.

(** ** three.js: the linear algebra used by the two components

    The definitions of this module follow the methods of three.js
    ([Vector3], [Quaternion], [Matrix3], [Matrix4], [Ray], [Raycaster],
    [OrthographicCamera], [Object3D]) that the repository calls.  Matrix
    records list the sixteen (nine) entries of [elements], column-major,
    under the index three.js uses. *)
Module THREE.
Local Open Scope R_scope.

Record Vector2 := mkVector2 { px : R; py : R }.

Record Vector3 := mkVector3 { vx : R; vy : R; vz : R }.

Record Quaternion := mkQuaternion { qx : R; qy : R; qz : R; qw : R }.

(** An [Euler] of the default order, ['XYZ']. *)
Record Euler := mkEuler { ex : R; ey : R; ez : R }.

Record Matrix3 := mkMatrix3 {
  k0 : R; k1 : R; k2 : R;
  k3 : R; k4 : R; k5 : R;
  k6 : R; k7 : R; k8 : R }.

Record Matrix4 := mkMatrix4 {
  e0 : R; e1 : R; e2 : R; e3 : R;
  e4 : R; e5 : R; e6 : R; e7 : R;
  e8 : R; e9 : R; e10 : R; e11 : R;
  e12 : R; e13 : R; e14 : R; e15 : R }.

Record Sphere := mkSphere { center : Vector3; radius : R }.

Record Ray := mkRay { origin : Vector3; direction : Vector3 }.

(** JavaScript's comparisons of two numbers. *)
Definition gtb (a b : R) : bool := if Rgt_dec a b then true else false.

Definition ltb (a b : R) : bool := if Rlt_dec a b then true else false.

Definition eqb (a b : R) : bool := if Req_EM_T a b then true else false.

(** JavaScript's [a || 1] on a number: [0] is falsy. *)
Definition or_one (a : R) : R := if eqb a 0 then 1 else a.

(** *** Vector3 *)

Definition dot (a b : Vector3) : R :=
  vx a * vx b + vy a * vy b + vz a * vz b.

Definition length (v : Vector3) : R :=
  sqrt (vx v * vx v + vy v * vy v + vz v * vz v).

Definition multiplyScalar (v : Vector3) (s : R) : Vector3 :=
  mkVector3 (vx v * s) (vy v * s) (vz v * s).

Definition divideScalar (v : Vector3) (s : R) : Vector3 :=
  multiplyScalar v (1 / s).

Definition normalize (v : Vector3) : Vector3 :=
  divideScalar v (or_one (length v)).

Definition sub (a b : Vector3) : Vector3 :=
  mkVector3 (vx a - vx b) (vy a - vy b) (vz a - vz b).

Definition subVectors (a b : Vector3) : Vector3 := sub a b.

Definition setScalar (s : R) : Vector3 := mkVector3 s s s.

Definition negate (v : Vector3) : Vector3 :=
  mkVector3 (- vx v) (- vy v) (- vz v).

(** [v.reflect(n)]: [v - n * (2 * v.dot(n))]. *)
Definition reflect (v n : Vector3) : Vector3 :=
  sub v (multiplyScalar n (2 * dot v n)).

Definition applyMatrix3 (v : Vector3) (m : Matrix3) : Vector3 :=
  mkVector3 (k0 m * vx v + k3 m * vy v + k6 m * vz v)
            (k1 m * vx v + k4 m * vy v + k7 m * vz v)
            (k2 m * vx v + k5 m * vy v + k8 m * vz v).

Definition applyNormalMatrix (v : Vector3) (m : Matrix3) : Vector3 :=
  normalize (applyMatrix3 v m).

(** [v.applyMatrix4(m)], with its perspective divide. *)
Definition applyMatrix4 (v : Vector3) (m : Matrix4) : Vector3 :=
  let w := 1 / (e3 m * vx v + e7 m * vy v + e11 m * vz v + e15 m) in
  mkVector3 ((e0 m * vx v + e4 m * vy v + e8 m * vz v + e12 m) * w)
            ((e1 m * vx v + e5 m * vy v + e9 m * vz v + e13 m) * w)
            ((e2 m * vx v + e6 m * vy v + e10 m * vz v + e14 m) * w).

Definition transformDirection (v : Vector3) (m : Matrix4) : Vector3 :=
  normalize (mkVector3 (e0 m * vx v + e4 m * vy v + e8 m * vz v)
                       (e1 m * vx v + e5 m * vy v + e9 m * vz v)
                       (e2 m * vx v + e6 m * vy v + e10 m * vz v)).

Definition setFromMatrixPosition (m : Matrix4) : Vector3 :=
  mkVector3 (e12 m) (e13 m) (e14 m).

(** *** Quaternion *)

Definition identityQuaternion : Quaternion := mkQuaternion 0 0 0 1.

(** [q.setFromEuler(e)], order ['XYZ']. *)
Definition setFromEuler (e : Euler) : Quaternion :=
  let c1 := cos (ex e / 2) in
  let c2 := cos (ey e / 2) in
  let c3 := cos (ez e / 2) in
  let s1 := sin (ex e / 2) in
  let s2 := sin (ey e / 2) in
  let s3 := sin (ez e / 2) in
  mkQuaternion (s1 * c2 * c3 + c1 * s2 * s3)
               (c1 * s2 * c3 - s1 * c2 * s3)
               (c1 * c2 * s3 + s1 * s2 * c3)
               (c1 * c2 * c3 - s1 * s2 * s3).


Definition multiplyQuaternions (a b : Quaternion) : Quaternion :=
  mkQuaternion
    (qx a * qw b + qw a * qx b + qy a * qz b - qz a * qy b)
    (qy a * qw b + qw a * qy b + qz a * qx b - qx a * qz b)
    (qz a * qw b + qw a * qz b + qx a * qy b - qy a * qx b)
    (qw a * qw b - qx a * qx b - qy a * qy b - qz a * qz b).

(** [this.premultiply(q)] is [multiplyQuaternions(q, this)]. *)
Definition premultiply (this q : Quaternion) : Quaternion :=
  multiplyQuaternions q this.

(** [q.setFromRotationMatrix(m)]: the upper 3x3 of [m] is taken to be a
    pure rotation. *)
Definition setFromRotationMatrix (m : Matrix4) : Quaternion :=
  let m11 := e0 m in let m12 := e4 m in let m13 := e8 m in
  let m21 := e1 m in let m22 := e5 m in let m23 := e9 m in
  let m31 := e2 m in let m32 := e6 m in let m33 := e10 m in
  let trace := m11 + m22 + m33 in
  if gtb trace 0 then
    let s := 0.5 / sqrt (trace + 1) in
    mkQuaternion ((m32 - m23) * s) ((m13 - m31) * s) ((m21 - m12) * s)
                 (0.25 / s)
  else if gtb m11 m22 && gtb m11 m33 then
    let s := 2 * sqrt (1 + m11 - m22 - m33) in
    mkQuaternion (0.25 * s) ((m12 + m21) / s) ((m13 + m31) / s)
                 ((m32 - m23) / s)
  else if gtb m22 m33 then
    let s := 2 * sqrt (1 + m22 - m11 - m33) in
    mkQuaternion ((m12 + m21) / s) (0.25 * s) ((m23 + m32) / s)
                 ((m13 - m31) / s)
  else
    let s := 2 * sqrt (1 + m33 - m11 - m22) in
    mkQuaternion ((m13 + m31) / s) ((m23 + m32) / s) (0.25 * s)
                 ((m21 - m12) / s).


(** A quaternion of norm one, and the quaternion of the same rotation
    with every sign flipped. *)
Definition unitQuaternion (q : Quaternion) : Prop :=
  qx q * qx q + qy q * qy q + qz q * qz q + qw q * qw q = 1.

Definition antipode (q : Quaternion) : Quaternion :=
  mkQuaternion (- qx q) (- qy q) (- qz q) (- qw q).

(** *** Matrix4 *)

Definition identity : Matrix4 :=
  mkMatrix4 1 0 0 0  0 1 0 0  0 0 1 0  0 0 0 1.

Definition zeroMatrix4 : Matrix4 :=
  mkMatrix4 0 0 0 0  0 0 0 0  0 0 0 0  0 0 0 0.

(** [m.compose(position, quaternion, scale)]. *)
Definition compose (position : Vector3) (quaternion : Quaternion)
    (scale : Vector3) : Matrix4 :=
  let x := qx quaternion in let y := qy quaternion in
  let z := qz quaternion in let w := qw quaternion in
  let x2 := x + x in let y2 := y + y in let z2 := z + z in
  let xx := x * x2 in let xy := x * y2 in let xz := x * z2 in
  let yy := y * y2 in let yz := y * z2 in let zz := z * z2 in
  let wx := w * x2 in let wy := w * y2 in let wz := w * z2 in
  let sx := vx scale in let sy := vy scale in let sz := vz scale in
  mkMatrix4
    ((1 - (yy + zz)) * sx) ((xy + wz) * sx) ((xz - wy) * sx) 0
    ((xy - wz) * sy) ((1 - (xx + zz)) * sy) ((yz + wx) * sy) 0
    ((xz + wy) * sz) ((yz - wx) * sz) ((1 - (xx + yy)) * sz) 0
    (vx position) (vy position) (vz position) 1.

Definition determinant (m : Matrix4) : R :=
  let n11 := e0 m in let n12 := e4 m in let n13 := e8 m in let n14 := e12 m in
  let n21 := e1 m in let n22 := e5 m in let n23 := e9 m in let n24 := e13 m in
  let n31 := e2 m in let n32 := e6 m in let n33 := e10 m in let n34 := e14 m in
  let n41 := e3 m in let n42 := e7 m in let n43 := e11 m in let n44 := e15 m in
  n41 * (n14 * n23 * n32 - n13 * n24 * n32 - n14 * n22 * n33
         + n12 * n24 * n33 + n13 * n22 * n34 - n12 * n23 * n34)
  + n42 * (n11 * n23 * n34 - n11 * n24 * n33 + n14 * n21 * n33
           - n13 * n21 * n34 + n13 * n24 * n31 - n14 * n23 * n31)
  + n43 * (n11 * n24 * n32 - n11 * n22 * n34 - n14 * n21 * n32
           + n12 * n21 * n34 + n14 * n22 * n31 - n12 * n24 * n31)
  + n44 * (- n13 * n22 * n31 - n11 * n23 * n32 + n11 * n22 * n33
           + n13 * n21 * n32 - n12 * n21 * n33 + n12 * n23 * n31).

(** [m.invert()]: the adjugate over the determinant; the zero matrix when
    the determinant is [0]. *)
Definition invert (m : Matrix4) : Matrix4 :=
  let n11 := e0 m in let n21 := e1 m in let n31 := e2 m in let n41 := e3 m in
  let n12 := e4 m in let n22 := e5 m in let n32 := e6 m in let n42 := e7 m in
  let n13 := e8 m in let n23 := e9 m in let n33 := e10 m in let n43 := e11 m in
  let n14 := e12 m in let n24 := e13 m in let n34 := e14 m in let n44 := e15 m in
  let t11 := n23 * n34 * n42 - n24 * n33 * n42 + n24 * n32 * n43
             - n22 * n34 * n43 - n23 * n32 * n44 + n22 * n33 * n44 in
  let t12 := n14 * n33 * n42 - n13 * n34 * n42 - n14 * n32 * n43
             + n12 * n34 * n43 + n13 * n32 * n44 - n12 * n33 * n44 in
  let t13 := n13 * n24 * n42 - n14 * n23 * n42 + n14 * n22 * n43
             - n12 * n24 * n43 - n13 * n22 * n44 + n12 * n23 * n44 in
  let t14 := n14 * n23 * n32 - n13 * n24 * n32 - n14 * n22 * n33
             + n12 * n24 * n33 + n13 * n22 * n34 - n12 * n23 * n34 in
  let det := n11 * t11 + n21 * t12 + n31 * t13 + n41 * t14 in
  if eqb det 0 then zeroMatrix4 else
  let detInv := 1 / det in
  mkMatrix4
    (t11 * detInv)
    ((n24 * n33 * n41 - n23 * n34 * n41 - n24 * n31 * n43
      + n21 * n34 * n43 + n23 * n31 * n44 - n21 * n33 * n44) * detInv)
    ((n22 * n34 * n41 - n24 * n32 * n41 + n24 * n31 * n42
      - n21 * n34 * n42 - n22 * n31 * n44 + n21 * n32 * n44) * detInv)
    ((n23 * n32 * n41 - n22 * n33 * n41 - n23 * n31 * n42
      + n21 * n33 * n42 + n22 * n31 * n43 - n21 * n32 * n43) * detInv)
    (t12 * detInv)
    ((n13 * n34 * n41 - n14 * n33 * n41 + n14 * n31 * n43
      - n11 * n34 * n43 - n13 * n31 * n44 + n11 * n33 * n44) * detInv)
    ((n14 * n32 * n41 - n12 * n34 * n41 - n14 * n31 * n42
      + n11 * n34 * n42 + n12 * n31 * n44 - n11 * n32 * n44) * detInv)
    ((n12 * n33 * n41 - n13 * n32 * n41 + n13 * n31 * n42
      - n11 * n33 * n42 - n12 * n31 * n43 + n11 * n32 * n43) * detInv)
    (t13 * detInv)
    ((n14 * n23 * n41 - n13 * n24 * n41 - n14 * n21 * n43
      + n11 * n24 * n43 + n13 * n21 * n44 - n11 * n23 * n44) * detInv)
    ((n12 * n24 * n41 - n14 * n22 * n41 + n14 * n21 * n42
      - n11 * n24 * n42 - n12 * n21 * n44 + n11 * n22 * n44) * detInv)
    ((n13 * n22 * n41 - n12 * n23 * n41 - n13 * n21 * n42
      + n11 * n23 * n42 + n12 * n21 * n43 - n11 * n22 * n43) * detInv)
    (t14 * detInv)
    ((n13 * n24 * n31 - n14 * n23 * n31 + n14 * n21 * n33
      - n11 * n24 * n33 - n13 * n21 * n34 + n11 * n23 * n34) * detInv)
    ((n14 * n22 * n31 - n12 * n24 * n31 - n14 * n21 * n32
      + n11 * n24 * n32 + n12 * n21 * n34 - n11 * n22 * n34) * detInv)
    ((n12 * n23 * n31 - n13 * n22 * n31 + n13 * n21 * n32
      - n11 * n23 * n32 - n12 * n21 * n33 + n11 * n22 * n33) * detInv).

(** [m.multiplyMatrices(a, b)]: the product [a b]. *)
Definition multiplyMatrices (a b : Matrix4) : Matrix4 :=
  mkMatrix4
    (e0 a * e0 b + e4 a * e1 b + e8 a * e2 b + e12 a * e3 b)
    (e1 a * e0 b + e5 a * e1 b + e9 a * e2 b + e13 a * e3 b)
    (e2 a * e0 b + e6 a * e1 b + e10 a * e2 b + e14 a * e3 b)
    (e3 a * e0 b + e7 a * e1 b + e11 a * e2 b + e15 a * e3 b)
    (e0 a * e4 b + e4 a * e5 b + e8 a * e6 b + e12 a * e7 b)
    (e1 a * e4 b + e5 a * e5 b + e9 a * e6 b + e13 a * e7 b)
    (e2 a * e4 b + e6 a * e5 b + e10 a * e6 b + e14 a * e7 b)
    (e3 a * e4 b + e7 a * e5 b + e11 a * e6 b + e15 a * e7 b)
    (e0 a * e8 b + e4 a * e9 b + e8 a * e10 b + e12 a * e11 b)
    (e1 a * e8 b + e5 a * e9 b + e9 a * e10 b + e13 a * e11 b)
    (e2 a * e8 b + e6 a * e9 b + e10 a * e10 b + e14 a * e11 b)
    (e3 a * e8 b + e7 a * e9 b + e11 a * e10 b + e15 a * e11 b)
    (e0 a * e12 b + e4 a * e13 b + e8 a * e14 b + e12 a * e15 b)
    (e1 a * e12 b + e5 a * e13 b + e9 a * e14 b + e13 a * e15 b)
    (e2 a * e12 b + e6 a * e13 b + e10 a * e14 b + e14 a * e15 b)
    (e3 a * e12 b + e7 a * e13 b + e11 a * e14 b + e15 a * e15 b).

(** [m.makeOrthographic(left, right, top, bottom, near, far)] in the
    WebGL coordinate system (depth in [-1, 1]). *)
Definition makeOrthographic (left right top bottom near far : R) : Matrix4 :=
  let w := 1 / (right - left) in
  let h := 1 / (top - bottom) in
  let p := 1 / (far - near) in
  let x := (right + left) * w in
  let y := (top + bottom) * h in
  let z := (far + near) * p in
  let zInv := -2 * p in
  mkMatrix4 (2 * w) 0 0 0
            0 (2 * h) 0 0
            0 0 zInv 0
            (- x) (- y) (- z) 1.

(** [m.decompose(position, quaternion, scale)]: the three results. *)
Definition decompose (m : Matrix4) : Vector3 * Quaternion * Vector3 :=
  let sx := length (mkVector3 (e0 m) (e1 m) (e2 m)) in
  let sy := length (mkVector3 (e4 m) (e5 m) (e6 m)) in
  let sz := length (mkVector3 (e8 m) (e9 m) (e10 m)) in
  let det := determinant m in
  let sx := if ltb det 0 then - sx else sx in
  let position := mkVector3 (e12 m) (e13 m) (e14 m) in
  let invSX := 1 / sx in
  let invSY := 1 / sy in
  let invSZ := 1 / sz in
  let m1 :=
    mkMatrix4 (e0 m * invSX) (e1 m * invSX) (e2 m * invSX) (e3 m)
              (e4 m * invSY) (e5 m * invSY) (e6 m * invSY) (e7 m)
              (e8 m * invSZ) (e9 m * invSZ) (e10 m * invSZ) (e11 m)
              (e12 m) (e13 m) (e14 m) (e15 m) in
  (position, setFromRotationMatrix m1, mkVector3 sx sy sz).

(** *** Matrix3 *)

Definition zeroMatrix3 : Matrix3 := mkMatrix3 0 0 0  0 0 0  0 0 0.

Definition identityMatrix3 : Matrix3 := mkMatrix3 1 0 0  0 1 0  0 0 1.

(** [m3.setFromMatrix4(m)]: the upper 3x3. *)
Definition setFromMatrix4 (m : Matrix4) : Matrix3 :=
  mkMatrix3 (e0 m) (e1 m) (e2 m)
            (e4 m) (e5 m) (e6 m)
            (e8 m) (e9 m) (e10 m).

Definition invert3 (m : Matrix3) : Matrix3 :=
  let n11 := k0 m in let n21 := k1 m in let n31 := k2 m in
  let n12 := k3 m in let n22 := k4 m in let n32 := k5 m in
  let n13 := k6 m in let n23 := k7 m in let n33 := k8 m in
  let t11 := n33 * n22 - n32 * n23 in
  let t12 := n32 * n13 - n33 * n12 in
  let t13 := n23 * n12 - n22 * n13 in
  let det := n11 * t11 + n21 * t12 + n31 * t13 in
  if eqb det 0 then zeroMatrix3 else
  let detInv := 1 / det in
  mkMatrix3 (t11 * detInv)
            ((n31 * n23 - n33 * n21) * detInv)
            ((n32 * n21 - n31 * n22) * detInv)
            (t12 * detInv)
            ((n33 * n11 - n31 * n13) * detInv)
            ((n31 * n12 - n32 * n11) * detInv)
            (t13 * detInv)
            ((n21 * n13 - n23 * n11) * detInv)
            ((n22 * n11 - n21 * n12) * detInv).

Definition transpose (m : Matrix3) : Matrix3 :=
  mkMatrix3 (k0 m) (k3 m) (k6 m)
            (k1 m) (k4 m) (k7 m)
            (k2 m) (k5 m) (k8 m).

(** [m3.getNormalMatrix(m)]: [setFromMatrix4(m).invert().transpose()]. *)
Definition getNormalMatrix (m : Matrix4) : Matrix3 :=
  transpose (invert3 (setFromMatrix4 m)).

(** *** Ray *)

(** [ray.at(t)]: [origin + direction * t]. *)
Definition at_ (r : Ray) (t : R) : Vector3 :=
  mkVector3 (vx (origin r) + vx (direction r) * t)
            (vy (origin r) + vy (direction r) * t)
            (vz (origin r) + vz (direction r) * t).

(** [ray.intersectSphere(sphere, target)]: [None] for JavaScript's [null]
    (the target is then left as it was), [Some p] when the point [p] is
    written to the target and returned.  The two comparisons are made
    here on exact numbers; the code makes them on rounded ones, which
    decides the answer where the ray touches the sphere: for that see
    [Binary64.intersectSphere]. *)
Definition intersectSphere (r : Ray) (sphere : Sphere) : option Vector3 :=
  let v := subVectors (center sphere) (origin r) in
  let tca := dot v (direction r) in
  let d2 := dot v v - tca * tca in
  let radius2 := radius sphere * radius sphere in
  if gtb d2 radius2 then None else
  let thc := sqrt (radius2 - d2) in
  let t0 := tca - thc in
  let t1 := tca + thc in
  if ltb t1 0 then None else
  if ltb t0 0 then Some (at_ r t1) else
  Some (at_ r t0).

(** *** Object3D

    The transform of an object; [matrixWorld] is refreshed by the methods
    below for an object that has no parent, which is the case of every
    object the projector owns.  (A cube camera that hangs in a group is
    refreshed through [refreshed], further down.) *)
Record Object3D := mkObject3D {
  position : Vector3;
  quaternion : Quaternion;
  scale : Vector3;
  matrix : Matrix4;
  matrixWorld : Matrix4 }.

Definition newObject3D : Object3D :=
  mkObject3D (mkVector3 0 0 0) identityQuaternion (mkVector3 1 1 1)
             identity identity.

Definition set_position (o : Object3D) (p : Vector3) : Object3D :=
  mkObject3D p (quaternion o) (scale o) (matrix o) (matrixWorld o).

Definition set_quaternion (o : Object3D) (q : Quaternion) : Object3D :=
  mkObject3D (position o) q (scale o) (matrix o) (matrixWorld o).

Definition set_scale (o : Object3D) (s : Vector3) : Object3D :=
  mkObject3D (position o) (quaternion o) s (matrix o) (matrixWorld o).

(** [o.updateMatrixWorld()] with [matrixAutoUpdate] on and no parent:
    [matrix] is composed from the three fields and copied to
    [matrixWorld].  [o.updateWorldMatrix(true, false)] does the same. *)
Definition updateMatrixWorld (o : Object3D) : Object3D :=
  let m := compose (position o) (quaternion o) (scale o) in
  mkObject3D (position o) (quaternion o) (scale o) m m.

(** [o.getWorldPosition(target)]: the refreshed object and the target. *)
Definition getWorldPosition (o : Object3D) : Object3D * Vector3 :=
  let o' := updateMatrixWorld o in
  (o', setFromMatrixPosition (matrixWorld o')).

(** [o.getWorldScale(target)]. *)
Definition getWorldScale (o : Object3D) : Object3D * Vector3 :=
  let o' := updateMatrixWorld o in
  (o', snd (decompose (matrixWorld o'))).

(** [camera.getWorldDirection(target)] of a [Camera]: the third column
    of [matrixWorld], normalized, and negated (a camera looks down its
    -Z).  The world matrix is taken as it stands. *)
Definition getWorldDirection (m : Matrix4) : Vector3 :=
  negate (normalize (mkVector3 (e8 m) (e9 m) (e10 m))).

(** *** OrthographicCamera *)
Record OrthographicCamera := mkOrthographicCamera {
  object3d : Object3D;
  zoom : R;
  left : R;
  right : R;
  top : R;
  bottom : R;
  near : R;
  far : R;
  projectionMatrix : Matrix4;
  projectionMatrixInverse : Matrix4 }.

(** [camera.updateProjectionMatrix()] with no view offset. *)
Definition updateProjectionMatrix (c : OrthographicCamera)
    : OrthographicCamera :=
  let dx := (right c - left c) / (2 * zoom c) in
  let dy := (top c - bottom c) / (2 * zoom c) in
  let cx := (right c + left c) / 2 in
  let cy := (top c + bottom c) / 2 in
  let p := makeOrthographic (cx - dx) (cx + dx) (cy + dy) (cy - dy)
                            (near c) (far c) in
  mkOrthographicCamera (object3d c) (zoom c) (left c) (right c) (top c)
                       (bottom c) (near c) (far c) p (invert p).

(** [new THREE.OrthographicCamera()]: the unit box, near 0.1, far 2000. *)
Definition newOrthographicCamera : OrthographicCamera :=
  updateProjectionMatrix
    (mkOrthographicCamera newObject3D 1 (-1) 1 1 (-1) 0.1 2000
                          identity identity).

Definition set_object3d (c : OrthographicCamera) (o : Object3D)
    : OrthographicCamera :=
  mkOrthographicCamera o (zoom c) (left c) (right c) (top c) (bottom c)
                       (near c) (far c) (projectionMatrix c)
                       (projectionMatrixInverse c).

(** The assignments to [zoom], [left], [right], [top] and [bottom]. *)
Definition set_frustum (c : OrthographicCamera) (z l r t b : R)
    : OrthographicCamera :=
  mkOrthographicCamera (object3d c) z l r t b (near c) (far c)
                       (projectionMatrix c) (projectionMatrixInverse c).

(** [v.unproject(camera)]. *)
Definition unproject (v : Vector3) (c : OrthographicCamera) : Vector3 :=
  applyMatrix4 (applyMatrix4 v (projectionMatrixInverse c))
               (matrixWorld (object3d c)).

(** *** Raycaster *)

(** The camera a raycaster was last set from. *)
Inductive CameraRef := NoCamera | TheOrthographicCamera | AnotherCamera.

Record Raycaster := mkRaycaster {
  ray : Ray;
  rayNear : R;
  camera : CameraRef }.

(** [new THREE.Raycaster()]. *)
Definition newRaycaster : Raycaster :=
  mkRaycaster (mkRay (mkVector3 0 0 0) (mkVector3 0 0 (-1))) 0 NoCamera.

Definition set_ray (rc : Raycaster) (r : Ray) : Raycaster :=
  mkRaycaster r (rayNear rc) (camera rc).

(** [raycaster.setFromCamera(coords, camera)] for an orthographic camera:
    the origin lies in the plane of the camera, the direction is the
    camera's -Z. *)
Definition setFromCamera (rc : Raycaster) (coords : Vector2)
    (c : OrthographicCamera) : Raycaster :=
  let o := unproject
             (mkVector3 (px coords) (py coords)
                        ((near c + far c) / (near c - far c))) c in
  let d := transformDirection (mkVector3 0 0 (-1))
                              (matrixWorld (object3d c)) in
  mkRaycaster (mkRay o d) (rayNear rc) TheOrthographicCamera.

(** *** Sphere, geometry, material and mesh *)

(** [new THREE.Sphere()]: centred at the origin, radius [-1]. *)
Definition newSphere : Sphere := mkSphere (mkVector3 0 0 0) (-1).

Record SphereGeometry := mkSphereGeometry {
  geometryRadius : R;
  widthSegments : Z;
  heightSegments : Z }.

(** A [MeshBasicMaterial]: [envMap] references the texture of a render
    target (named by the target's key) or is [null]. *)
Record MeshBasicMaterial := mkMeshBasicMaterial {
  envMap : option nat;
  version : nat }.

Definition set_envMap (m : MeshBasicMaterial) (t : option nat)
    : MeshBasicMaterial :=
  mkMeshBasicMaterial t (version m).

(** The setter [material.needsUpdate = value] bumps [version] on [true]. *)
Definition set_needsUpdate (m : MeshBasicMaterial) (value : bool)
    : MeshBasicMaterial :=
  mkMeshBasicMaterial (envMap m) (if value then S (version m) else version m).

Record Mesh := mkMesh {
  meshObject3d : Object3D;
  geometry : SphereGeometry;
  material : MeshBasicMaterial }.

(** *** Scene, render targets and the renderer *)

(** [scene.fog] and [scene.background] hold references or [null]. *)
Record Scene := mkScene {
  fog : option nat;
  background : option nat;
  children : list nat }.

Inductive CubeFace := PX | NX | PY | NY | PZ | NZ.

(** A [WebGLCubeRenderTarget]; its [texture] is owned by the target and
    named by the target's key. *)
Record WebGLCubeRenderTarget := mkWebGLCubeRenderTarget {
  width : Z;
  generateMipmaps : bool;
  isRenderTargetTexture : bool;
  disposed : bool }.

(** The effects on the outside, in order. *)
Inductive Command :=
| CreateTarget (target : nat) (resolution : Z)
| DisposeTarget (target : nat)
| RenderFace (target : nat) (face : CubeFace) (scene : Scene)
             (eye : Matrix4)
| RenderMesh (texture : option nat) (model : Matrix4)
             (view : Matrix4) (projection : Matrix4).

(** The store of render targets and the commands completed so far. *)
Record World := mkWorld {
  targets : gmap nat WebGLCubeRenderTarget;
  allocated : nat;
  commands : list Command }.

Definition emptyWorld : World := mkWorld ∅ 0 [].

Definition issue (c : Command) (w : World) : World :=
  mkWorld (targets w) (allocated w) (commands w ++ [c]).

(** [new THREE.WebGLCubeRenderTarget(size, options)]: a fresh key. *)
Definition newWebGLCubeRenderTarget (size : Z) (mipmaps : bool) (w : World)
    : nat * World :=
  let id := allocated w in
  (id,
   mkWorld (<[id := mkWebGLCubeRenderTarget size mipmaps true false]>
              (targets w))
           (S id)
           (commands w ++ [CreateTarget id size])).

(** [rt.texture.isRenderTargetTexture = value]. *)
Definition set_isRenderTargetTexture (id : nat) (value : bool) (w : World)
    : World :=
  mkWorld
    (alter (fun rt => mkWebGLCubeRenderTarget (width rt) (generateMipmaps rt)
                        value (disposed rt)) id (targets w))
    (allocated w) (commands w).

(** [rt.dispose()]. *)
Definition dispose (id : nat) (w : World) : World :=
  mkWorld
    (alter (fun rt => mkWebGLCubeRenderTarget (width rt) (generateMipmaps rt)
                        (isRenderTargetTexture rt) true) id (targets w))
    (allocated w)
    (commands w ++ [DisposeTarget id]).

(** How a call ends: it returns, or an exception leaves it; either way
    with the state reached. *)
Inductive Completion (A : Type) :=
| Normal (a : A)
| Throw (a : A).
Arguments Normal {A} a.
Arguments Throw {A} a.

Definition state {A : Type} (c : Completion A) : A :=
  match c with Normal a => a | Throw a => a end.

Definition returned {A : Type} (c : Completion A) : bool :=
  match c with Normal _ => true | Throw _ => false end.

(** The renderer is the host's: all that is known of a draw is whether it
    returns or throws (a lost context, a failing callback). *)
Record WebGLRenderer := mkWebGLRenderer { throws : Command -> bool }.

(** [renderer.render(scene, camera)] into [target], once per face; a
    completed draw is logged. *)
Fixpoint renderFaces (renderer : WebGLRenderer) (target : nat)
    (scene : Scene) (eye : Matrix4) (faces : list CubeFace) (w : World)
    : Completion World :=
  match faces with
  | [] => Normal w
  | face :: rest =>
      let c := RenderFace target face scene eye in
      if throws renderer c then Throw w
      else renderFaces renderer target scene eye rest (issue c w)
  end.

(** What a cube camera hangs in: nothing; a parent that stands outside
    the scene the camera renders; or a parent inside that scene, whose
    world matrix is [parentWorld] whenever the renderer has refreshed the
    scene graph. *)
Inductive Parent :=
| NoParent
| Detached
| Attached (parentWorld : Matrix4).

(** [THREE.CubeCamera]: its transform, what it hangs in, the clipping
    planes of its six cameras and the target it renders into. *)
Record CubeCamera := mkCubeCamera {
  cubeObject3d : Object3D;
  parent : Parent;
  cubeNear : R;
  cubeFar : R;
  renderTarget : nat }.

(** [new THREE.CubeCamera(near, far, renderTarget)]. *)
Definition newCubeCamera (near far : R) (rt : nat) : CubeCamera :=
  mkCubeCamera newObject3D NoParent near far rt.

Definition set_cubeObject3d (c : CubeCamera) (o : Object3D) : CubeCamera :=
  mkCubeCamera o (parent c) (cubeNear c) (cubeFar c) (renderTarget c).

Definition set_renderTarget (c : CubeCamera) (rt : nat) : CubeCamera :=
  mkCubeCamera (cubeObject3d c) (parent c) (cubeNear c) (cubeFar c) rt.

(** [group.add(camera)], and [scene.add(group)] for the group the camera
    hangs in. *)
Definition set_parent (c : CubeCamera) (p : Parent) : CubeCamera :=
  mkCubeCamera (cubeObject3d c) p (cubeNear c) (cubeFar c) (renderTarget c).

(** [o.updateMatrixWorld()] of an object whose parent has the world
    matrix [parentWorld]. *)
Definition updateMatrixWorldIn (parentWorld : Matrix4) (o : Object3D)
    : Object3D :=
  let m := compose (position o) (quaternion o) (scale o) in
  mkObject3D (position o) (quaternion o) (scale o) m
             (multiplyMatrices parentWorld m).

(** The transform of a cube camera as its six cameras are drawn from.
    [update] refreshes the world matrix of a cube camera that has no
    parent; [renderer.render(scene, camera)] refreshes the scene graph of
    [scene] before it draws, and with it a cube camera that hangs in the
    scene; a cube camera whose parent stands outside the scene keeps the
    world matrix it has. *)
Definition refreshed (c : CubeCamera) : Object3D :=
  match parent c with
  | NoParent => updateMatrixWorld (cubeObject3d c)
  | Detached => cubeObject3d c
  | Attached parentWorld => updateMatrixWorldIn parentWorld (cubeObject3d c)
  end.

(** [rt.texture.generateMipmaps], read and assigned. *)
Definition get_generateMipmaps (id : nat) (w : World) : bool :=
  match targets w !! id with
  | Some rt => generateMipmaps rt
  | None => false
  end.

Definition set_generateMipmaps (id : nat) (value : bool) (w : World)
    : World :=
  mkWorld
    (alter (fun rt => mkWebGLCubeRenderTarget (width rt) value
                        (isRenderTargetTexture rt) (disposed rt))
           id (targets w))
    (allocated w) (commands w).

(** [cubeCamera.update(renderer, scene)].  The mipmaps of the target are
    switched off while the first five faces are rendered and switched
    back to what they were before the sixth, whose draw generates them;
    a draw that throws leaves the flag as it stands at that moment. *)
Definition cubeCameraUpdate (renderer : WebGLRenderer) (c : CubeCamera)
    (scene : Scene) (w : World) : Completion (CubeCamera * World) :=
  let o := refreshed c in
  let c' := set_cubeObject3d c o in
  let renderTarget := renderTarget c in
  let generateMipmaps := get_generateMipmaps renderTarget w in
  let w1 := set_generateMipmaps renderTarget false w in
  match renderFaces renderer renderTarget scene (matrixWorld o)
                    [PX; NX; PY; NY; PZ] w1 with
  | Throw w2 => Throw (c', w2)
  | Normal w2 =>
      let w3 := set_generateMipmaps renderTarget generateMipmaps w2 in
      match renderFaces renderer renderTarget scene (matrixWorld o) [NZ] w3
      with
      | Throw w4 => Throw (c', w4)
      | Normal w4 => Normal (c', w4)
      end
  end.

(** [renderer.render(mesh, camera)] to the screen: the world matrices of
    the mesh and of the (parentless) camera are refreshed, then the mesh
    is drawn. *)
Definition rendererRender (renderer : WebGLRenderer) (mesh : Mesh)
    (c : OrthographicCamera) (w : World)
    : Completion (Mesh * OrthographicCamera * World) :=
  let mesh' := mkMesh (updateMatrixWorld (meshObject3d mesh))
                      (geometry mesh) (material mesh) in
  let c' := set_object3d c (updateMatrixWorld (object3d c)) in
  let cmd := RenderMesh (envMap (material mesh'))
                        (matrixWorld (meshObject3d mesh'))
                        (invert (matrixWorld (object3d c')))
                        (projectionMatrix c') in
  if throws renderer cmd then Throw (mesh', c', w)
  else Normal (mesh', c', issue cmd w).

End THREE.

(** ** src/core/Fisheye.ts *)
Module CoreFisheye.
Import THREE.
Local Open Scope R_scope.

(** [FisheyeProps]: every field is optional. *)
Record FisheyeProps := mkFisheyeProps {
  props_zoom : option R;
  props_segments : option Z;
  props_resolution : option Z }.

(** The scratch objects of [this.temp]. *)
Record Temp := mkTemp {
  t : Vector3;
  r : Quaternion;
  s : Vector3;
  e : Euler;
  sphere : Sphere;
  normal : Vector3;
  normalMatrix : Matrix3 }.

Record Fisheye := mkFisheye {
  resolution : Z;
  segments : Z;
  zoom : R;
  renderTarget : nat;
  sphereMesh : Mesh;
  orthoCamera : OrthographicCamera;
  cubeCamera : CubeCamera;
  temp : Temp }.

(** The host's assignments to the two mutable fields, [fisheye.zoom = v]
    and [fisheye.resolution = v]. *)
Definition set_zoom (this : Fisheye) (v : R) : Fisheye :=
  mkFisheye (resolution this) (segments this) v (renderTarget this)
            (sphereMesh this) (orthoCamera this) (cubeCamera this)
            (temp this).

Definition set_resolution (this : Fisheye) (v : Z) : Fisheye :=
  mkFisheye v (segments this) (zoom this) (renderTarget this)
            (sphereMesh this) (orthoCamera this) (cubeCamera this)
            (temp this).

(** [createRenderTarget(resolution)]. *)
Definition createRenderTarget (resolution : Z) (w : World) : nat * World :=
  let '(rt, w1) := newWebGLCubeRenderTarget resolution true w in
  (rt, set_isRenderTargetTexture rt false w1).

(** [updateResolution(resolution)].  The reference [this.renderTarget] of
    a projector is never dangling; the first branch is there to make the
    function total. *)
Definition updateResolution (resolution : Z) (this : Fisheye) (w : World)
    : Fisheye * World :=
  match targets w !! renderTarget this with
  | None => (this, w)
  | Some current =>
      if (resolution =? width current)%Z then (this, w) else
      let w1 := dispose (renderTarget this) w in
      let '(rt, w2) := createRenderTarget resolution w1 in
      let cube := set_renderTarget (cubeCamera this) rt in
      let mesh := sphereMesh this in
      let material1 := set_envMap (material mesh) (Some rt) in
      let material2 := set_needsUpdate material1 true in
      (mkFisheye (CoreFisheye.resolution this) (segments this) (zoom this) rt
                 (mkMesh (meshObject3d mesh) (geometry mesh) material2)
                 (orthoCamera this) cube (temp this),
       w2)
  end.

(** [onResize(width, height)]. *)
Definition onResize (width height : R) (this : Fisheye) : Fisheye :=
  let w := width in
  let h := height in
  let ortho1 := set_object3d (orthoCamera this)
                  (set_position (object3d (orthoCamera this))
                                (mkVector3 0 0 100)) in
  let ortho2 := set_frustum ortho1 100 (w / -2) (w / 2) (h / 2) (h / -2) in
  let ortho3 := updateProjectionMatrix ortho2 in
  let radius := (sqrt (w * w + h * h) / 100) * (0.5 + zoom this / 2) in
  let mesh := sphereMesh this in
  let mesh1 := mkMesh (set_scale (meshObject3d mesh) (setScalar radius))
                      (geometry mesh) (material mesh) in
  let tmp := temp this in
  let tmp1 := mkTemp (t tmp) (r tmp) (s tmp) (e tmp)
                     (mkSphere (center (sphere tmp)) radius)
                     (normal tmp) (normalMatrix tmp) in
  mkFisheye (resolution this) (segments this) (zoom this)
            (renderTarget this) mesh1 ortho3 (cubeCamera this) tmp1.

(** [new Fisheye({ resolution = 896, segments = 64, zoom = 0 })]. *)
Definition constructor (props : FisheyeProps) (w : World)
    : Fisheye * World :=
  let resolution := default 896%Z (props_resolution props) in
  let segments := default 64%Z (props_segments props) in
  let zoom := default 0 (props_zoom props) in
  let '(rt, w1) := createRenderTarget resolution w in
  let geometry := mkSphereGeometry 1 segments segments in
  let material := mkMeshBasicMaterial (Some rt) 0 in
  let mesh := mkMesh newObject3D geometry material in
  let ortho := newOrthographicCamera in
  let cube := newCubeCamera 0.1 1000 rt in
  let tmp := mkTemp (mkVector3 0 0 0) identityQuaternion (mkVector3 0 0 0)
                    (mkEuler 0 Math.PI 0) newSphere (mkVector3 0 0 0)
                    identityMatrix3 in
  (onResize 100 100
     (mkFisheye resolution segments zoom rt mesh ortho cube tmp),
   w1).

(** [computeRaycastRayDirection(raycaster, pointer)]: the projector and
    the raycaster as the call leaves them. *)
Definition computeRaycastRayDirection (raycaster : Raycaster)
    (pointer : Vector2) (this : Fisheye) : Fisheye * Raycaster :=
  let orthoC := orthoCamera this in
  let tmp := temp this in
  let cube := cubeCamera this in
  let sph := sphere tmp in
  let raycaster1 := setFromCamera raycaster pointer orthoC in
  match intersectSphere (ray raycaster1) sph with
  | None => (this, raycaster1)
  | Some hit =>
      let normal := normalize hit in
      let normalMatrix := getNormalMatrix (matrixWorld (cubeObject3d cube)) in
      let '(cubeObject, origin) := getWorldPosition (cubeObject3d cube) in
      let d1 := reflect (mkVector3 0 0 1) normal in
      let d2 := mkVector3 (vx d1 * -1) (vy d1) (vz d1) in
      let d3 := multiplyScalar (applyNormalMatrix d2 normalMatrix) (-1) in
      (mkFisheye (resolution this) (segments this) (zoom this)
                 (renderTarget this) (sphereMesh this) orthoC
                 (set_cubeObject3d cube cubeObject)
                 (mkTemp (t tmp) (r tmp) (s tmp) (e tmp) sph normal
                         normalMatrix),
       set_ray raycaster1 (mkRay origin d3))
  end.

(** [render(renderer, scene, camera)]; of [camera] only [matrixWorld] is
    read. *)
Definition render (renderer : WebGLRenderer) (scene : Scene)
    (camera : Object3D) (this : Fisheye) (w : World)
    : Completion (Fisheye * World) :=
  let tmp := temp this in
  let '(t1, r1, s1) := decompose (matrixWorld camera) in
  let tmp1 := mkTemp t1 r1 s1 (e tmp) (sphere tmp) (normal tmp)
                     (normalMatrix tmp) in
  let cube := cubeCamera this in
  let cube1 := set_cubeObject3d cube
                 (set_position (cubeObject3d cube) t1) in
  let cube2 :=
    set_cubeObject3d cube1
      (set_quaternion (cubeObject3d cube1)
                      (premultiply (setFromEuler (e tmp1)) r1)) in
  let this1 cube mesh ortho :=
    mkFisheye (resolution this) (segments this) (zoom this)
              (renderTarget this) mesh ortho cube tmp1 in
  match cubeCameraUpdate renderer cube2 scene w with
  | Throw (cube3, w1) =>
      Throw (this1 cube3 (sphereMesh this) (orthoCamera this), w1)
  | Normal (cube3, w1) =>
      match rendererRender renderer (sphereMesh this) (orthoCamera this)
                           w1 with
      | Throw (mesh, ortho, w2) => Throw (this1 cube3 mesh ortho, w2)
      | Normal (mesh, ortho, w2) => Normal (this1 cube3 mesh ortho, w2)
      end
  end.

End CoreFisheye.

(** ** The arithmetic of the projector on JavaScript's own numbers

    IEEE 754 binary64, every operation rounded to nearest.  The methods
    of three.js and of [Fisheye] that compute a pick are given here a
    second time, operation by operation as in [THREE] and [CoreFisheye],
    on floats.  What carries no number is left out: the store, the
    commands, the material, the raycaster's other fields; the renderer
    returns.  ECMAScript leaves the last digit of [Math.cos] and
    [Math.sin] to the engine, so the two functions are arguments of what
    calls them. *)
Module Binary64.
Import Floats.PrimFloat.
Local Open Scope float_scope.
#[local] Set Warnings "-inexact-float".

(** The expression of line 363 of the projector. *)
Definition radius (w h zoom : float) : float :=
  (sqrt (w * w + h * h) / 100) * (0.5 + zoom / 2).

(** [Math.PI]. *)
Definition PI : float := 0x1.921fb54442d18p+1.

Record Vector2 := mkVector2 { px : float; py : float }.

Record Vector3 := mkVector3 { vx : float; vy : float; vz : float }.

Record Quaternion := mkQuaternion {
  qx : float; qy : float; qz : float; qw : float }.

Record Euler := mkEuler { ex : float; ey : float; ez : float }.

Record Matrix3 := mkMatrix3 {
  k0 : float; k1 : float; k2 : float;
  k3 : float; k4 : float; k5 : float;
  k6 : float; k7 : float; k8 : float }.

Record Matrix4 := mkMatrix4 {
  e0 : float; e1 : float; e2 : float; e3 : float;
  e4 : float; e5 : float; e6 : float; e7 : float;
  e8 : float; e9 : float; e10 : float; e11 : float;
  e12 : float; e13 : float; e14 : float; e15 : float }.

Record Sphere := mkSphere { center : Vector3; sphereRadius : float }.

Record Ray := mkRay { origin : Vector3; direction : Vector3 }.

(** JavaScript's [a > b], and [a || 1] on a number: [0], [-0] and [NaN]
    are falsy. *)
Definition gtb (a b : float) : bool := b <? a.

Definition or_one (a : float) : float :=
  if (a =? 0) || is_nan a then 1 else a.

(** *** Vector3 *)

Definition dot (a b : Vector3) : float :=
  vx a * vx b + vy a * vy b + vz a * vz b.

Definition length (v : Vector3) : float :=
  sqrt (vx v * vx v + vy v * vy v + vz v * vz v).

Definition multiplyScalar (v : Vector3) (s : float) : Vector3 :=
  mkVector3 (vx v * s) (vy v * s) (vz v * s).

Definition divideScalar (v : Vector3) (s : float) : Vector3 :=
  multiplyScalar v (1 / s).

Definition normalize (v : Vector3) : Vector3 :=
  divideScalar v (or_one (length v)).

Definition sub (a b : Vector3) : Vector3 :=
  mkVector3 (vx a - vx b) (vy a - vy b) (vz a - vz b).

Definition subVectors (a b : Vector3) : Vector3 := sub a b.

Definition setScalar (s : float) : Vector3 := mkVector3 s s s.

Definition reflect (v n : Vector3) : Vector3 :=
  sub v (multiplyScalar n (2 * dot v n)).

Definition applyMatrix3 (v : Vector3) (m : Matrix3) : Vector3 :=
  mkVector3 (k0 m * vx v + k3 m * vy v + k6 m * vz v)
            (k1 m * vx v + k4 m * vy v + k7 m * vz v)
            (k2 m * vx v + k5 m * vy v + k8 m * vz v).

Definition applyNormalMatrix (v : Vector3) (m : Matrix3) : Vector3 :=
  normalize (applyMatrix3 v m).

Definition applyMatrix4 (v : Vector3) (m : Matrix4) : Vector3 :=
  let w := 1 / (e3 m * vx v + e7 m * vy v + e11 m * vz v + e15 m) in
  mkVector3 ((e0 m * vx v + e4 m * vy v + e8 m * vz v + e12 m) * w)
            ((e1 m * vx v + e5 m * vy v + e9 m * vz v + e13 m) * w)
            ((e2 m * vx v + e6 m * vy v + e10 m * vz v + e14 m) * w).

Definition transformDirection (v : Vector3) (m : Matrix4) : Vector3 :=
  normalize (mkVector3 (e0 m * vx v + e4 m * vy v + e8 m * vz v)
                       (e1 m * vx v + e5 m * vy v + e9 m * vz v)
                       (e2 m * vx v + e6 m * vy v + e10 m * vz v)).

Definition setFromMatrixPosition (m : Matrix4) : Vector3 :=
  mkVector3 (e12 m) (e13 m) (e14 m).

(** *** Quaternion *)

Definition identityQuaternion : Quaternion := mkQuaternion 0 0 0 1.

Section Engine.

(** [Math.cos] and [Math.sin] of the engine that runs the code. *)
Variables cos sin : float -> float.

Definition setFromEuler (e : Euler) : Quaternion :=
  let c1 := cos (ex e / 2) in
  let c2 := cos (ey e / 2) in
  let c3 := cos (ez e / 2) in
  let s1 := sin (ex e / 2) in
  let s2 := sin (ey e / 2) in
  let s3 := sin (ez e / 2) in
  mkQuaternion (s1 * c2 * c3 + c1 * s2 * s3)
               (c1 * s2 * c3 - s1 * c2 * s3)
               (c1 * c2 * s3 + s1 * s2 * c3)
               (c1 * c2 * c3 - s1 * s2 * s3).

End Engine.

Definition multiplyQuaternions (a b : Quaternion) : Quaternion :=
  mkQuaternion
    (qx a * qw b + qw a * qx b + qy a * qz b - qz a * qy b)
    (qy a * qw b + qw a * qy b + qz a * qx b - qx a * qz b)
    (qz a * qw b + qw a * qz b + qx a * qy b - qy a * qx b)
    (qw a * qw b - qx a * qx b - qy a * qy b - qz a * qz b).

Definition premultiply (this q : Quaternion) : Quaternion :=
  multiplyQuaternions q this.

Definition setFromRotationMatrix (m : Matrix4) : Quaternion :=
  let m11 := e0 m in let m12 := e4 m in let m13 := e8 m in
  let m21 := e1 m in let m22 := e5 m in let m23 := e9 m in
  let m31 := e2 m in let m32 := e6 m in let m33 := e10 m in
  let trace := m11 + m22 + m33 in
  if gtb trace 0 then
    let s := 0.5 / sqrt (trace + 1) in
    mkQuaternion ((m32 - m23) * s) ((m13 - m31) * s) ((m21 - m12) * s)
                 (0.25 / s)
  else if gtb m11 m22 && gtb m11 m33 then
    let s := 2 * sqrt (1 + m11 - m22 - m33) in
    mkQuaternion (0.25 * s) ((m12 + m21) / s) ((m13 + m31) / s)
                 ((m32 - m23) / s)
  else if gtb m22 m33 then
    let s := 2 * sqrt (1 + m22 - m11 - m33) in
    mkQuaternion ((m12 + m21) / s) (0.25 * s) ((m23 + m32) / s)
                 ((m13 - m31) / s)
  else
    let s := 2 * sqrt (1 + m33 - m11 - m22) in
    mkQuaternion ((m13 + m31) / s) ((m23 + m32) / s) (0.25 * s)
                 ((m21 - m12) / s).

(** *** Matrix4 *)

Definition identity : Matrix4 :=
  mkMatrix4 1 0 0 0  0 1 0 0  0 0 1 0  0 0 0 1.

Definition zeroMatrix4 : Matrix4 :=
  mkMatrix4 0 0 0 0  0 0 0 0  0 0 0 0  0 0 0 0.

Definition compose (position : Vector3) (quaternion : Quaternion)
    (scale : Vector3) : Matrix4 :=
  let x := qx quaternion in let y := qy quaternion in
  let z := qz quaternion in let w := qw quaternion in
  let x2 := x + x in let y2 := y + y in let z2 := z + z in
  let xx := x * x2 in let xy := x * y2 in let xz := x * z2 in
  let yy := y * y2 in let yz := y * z2 in let zz := z * z2 in
  let wx := w * x2 in let wy := w * y2 in let wz := w * z2 in
  let sx := vx scale in let sy := vy scale in let sz := vz scale in
  mkMatrix4
    ((1 - (yy + zz)) * sx) ((xy + wz) * sx) ((xz - wy) * sx) 0
    ((xy - wz) * sy) ((1 - (xx + zz)) * sy) ((yz + wx) * sy) 0
    ((xz + wy) * sz) ((yz - wx) * sz) ((1 - (xx + yy)) * sz) 0
    (vx position) (vy position) (vz position) 1.

Definition determinant (m : Matrix4) : float :=
  let n11 := e0 m in let n12 := e4 m in let n13 := e8 m in let n14 := e12 m in
  let n21 := e1 m in let n22 := e5 m in let n23 := e9 m in let n24 := e13 m in
  let n31 := e2 m in let n32 := e6 m in let n33 := e10 m in let n34 := e14 m in
  let n41 := e3 m in let n42 := e7 m in let n43 := e11 m in let n44 := e15 m in
  n41 * (n14 * n23 * n32 - n13 * n24 * n32 - n14 * n22 * n33
         + n12 * n24 * n33 + n13 * n22 * n34 - n12 * n23 * n34)
  + n42 * (n11 * n23 * n34 - n11 * n24 * n33 + n14 * n21 * n33
           - n13 * n21 * n34 + n13 * n24 * n31 - n14 * n23 * n31)
  + n43 * (n11 * n24 * n32 - n11 * n22 * n34 - n14 * n21 * n32
           + n12 * n21 * n34 + n14 * n22 * n31 - n12 * n24 * n31)
  + n44 * (- n13 * n22 * n31 - n11 * n23 * n32 + n11 * n22 * n33
           + n13 * n21 * n32 - n12 * n21 * n33 + n12 * n23 * n31).

Definition invert (m : Matrix4) : Matrix4 :=
  let n11 := e0 m in let n21 := e1 m in let n31 := e2 m in let n41 := e3 m in
  let n12 := e4 m in let n22 := e5 m in let n32 := e6 m in let n42 := e7 m in
  let n13 := e8 m in let n23 := e9 m in let n33 := e10 m in let n43 := e11 m in
  let n14 := e12 m in let n24 := e13 m in let n34 := e14 m in let n44 := e15 m in
  let t11 := n23 * n34 * n42 - n24 * n33 * n42 + n24 * n32 * n43
             - n22 * n34 * n43 - n23 * n32 * n44 + n22 * n33 * n44 in
  let t12 := n14 * n33 * n42 - n13 * n34 * n42 - n14 * n32 * n43
             + n12 * n34 * n43 + n13 * n32 * n44 - n12 * n33 * n44 in
  let t13 := n13 * n24 * n42 - n14 * n23 * n42 + n14 * n22 * n43
             - n12 * n24 * n43 - n13 * n22 * n44 + n12 * n23 * n44 in
  let t14 := n14 * n23 * n32 - n13 * n24 * n32 - n14 * n22 * n33
             + n12 * n24 * n33 + n13 * n22 * n34 - n12 * n23 * n34 in
  let det := n11 * t11 + n21 * t12 + n31 * t13 + n41 * t14 in
  if det =? 0 then zeroMatrix4 else
  let detInv := 1 / det in
  mkMatrix4
    (t11 * detInv)
    ((n24 * n33 * n41 - n23 * n34 * n41 - n24 * n31 * n43
      + n21 * n34 * n43 + n23 * n31 * n44 - n21 * n33 * n44) * detInv)
    ((n22 * n34 * n41 - n24 * n32 * n41 + n24 * n31 * n42
      - n21 * n34 * n42 - n22 * n31 * n44 + n21 * n32 * n44) * detInv)
    ((n23 * n32 * n41 - n22 * n33 * n41 - n23 * n31 * n42
      + n21 * n33 * n42 + n22 * n31 * n43 - n21 * n32 * n43) * detInv)
    (t12 * detInv)
    ((n13 * n34 * n41 - n14 * n33 * n41 + n14 * n31 * n43
      - n11 * n34 * n43 - n13 * n31 * n44 + n11 * n33 * n44) * detInv)
    ((n14 * n32 * n41 - n12 * n34 * n41 - n14 * n31 * n42
      + n11 * n34 * n42 + n12 * n31 * n44 - n11 * n32 * n44) * detInv)
    ((n12 * n33 * n41 - n13 * n32 * n41 + n13 * n31 * n42
      - n11 * n33 * n42 - n12 * n31 * n43 + n11 * n32 * n43) * detInv)
    (t13 * detInv)
    ((n14 * n23 * n41 - n13 * n24 * n41 - n14 * n21 * n43
      + n11 * n24 * n43 + n13 * n21 * n44 - n11 * n23 * n44) * detInv)
    ((n12 * n24 * n41 - n14 * n22 * n41 + n14 * n21 * n42
      - n11 * n24 * n42 - n12 * n21 * n44 + n11 * n22 * n44) * detInv)
    ((n13 * n22 * n41 - n12 * n23 * n41 - n13 * n21 * n42
      + n11 * n23 * n42 + n12 * n21 * n43 - n11 * n22 * n43) * detInv)
    (t14 * detInv)
    ((n13 * n24 * n31 - n14 * n23 * n31 + n14 * n21 * n33
      - n11 * n24 * n33 - n13 * n21 * n34 + n11 * n23 * n34) * detInv)
    ((n14 * n22 * n31 - n12 * n24 * n31 - n14 * n21 * n32
      + n11 * n24 * n32 + n12 * n21 * n34 - n11 * n22 * n34) * detInv)
    ((n12 * n23 * n31 - n13 * n22 * n31 + n13 * n21 * n32
      - n11 * n23 * n32 - n12 * n21 * n33 + n11 * n22 * n33) * detInv).

Definition makeOrthographic (left right top bottom near far : float)
    : Matrix4 :=
  let w := 1 / (right - left) in
  let h := 1 / (top - bottom) in
  let p := 1 / (far - near) in
  let x := (right + left) * w in
  let y := (top + bottom) * h in
  let z := (far + near) * p in
  let zInv := -2 * p in
  mkMatrix4 (2 * w) 0 0 0
            0 (2 * h) 0 0
            0 0 zInv 0
            (- x) (- y) (- z) 1.

Definition decompose (m : Matrix4) : Vector3 * Quaternion * Vector3 :=
  let sx := length (mkVector3 (e0 m) (e1 m) (e2 m)) in
  let sy := length (mkVector3 (e4 m) (e5 m) (e6 m)) in
  let sz := length (mkVector3 (e8 m) (e9 m) (e10 m)) in
  let det := determinant m in
  let sx := if det <? 0 then - sx else sx in
  let position := mkVector3 (e12 m) (e13 m) (e14 m) in
  let invSX := 1 / sx in
  let invSY := 1 / sy in
  let invSZ := 1 / sz in
  let m1 :=
    mkMatrix4 (e0 m * invSX) (e1 m * invSX) (e2 m * invSX) (e3 m)
              (e4 m * invSY) (e5 m * invSY) (e6 m * invSY) (e7 m)
              (e8 m * invSZ) (e9 m * invSZ) (e10 m * invSZ) (e11 m)
              (e12 m) (e13 m) (e14 m) (e15 m) in
  (position, setFromRotationMatrix m1, mkVector3 sx sy sz).

(** *** Matrix3 *)

Definition zeroMatrix3 : Matrix3 := mkMatrix3 0 0 0  0 0 0  0 0 0.

Definition setFromMatrix4 (m : Matrix4) : Matrix3 :=
  mkMatrix3 (e0 m) (e1 m) (e2 m)
            (e4 m) (e5 m) (e6 m)
            (e8 m) (e9 m) (e10 m).

Definition invert3 (m : Matrix3) : Matrix3 :=
  let n11 := k0 m in let n21 := k1 m in let n31 := k2 m in
  let n12 := k3 m in let n22 := k4 m in let n32 := k5 m in
  let n13 := k6 m in let n23 := k7 m in let n33 := k8 m in
  let t11 := n33 * n22 - n32 * n23 in
  let t12 := n32 * n13 - n33 * n12 in
  let t13 := n23 * n12 - n22 * n13 in
  let det := n11 * t11 + n21 * t12 + n31 * t13 in
  if det =? 0 then zeroMatrix3 else
  let detInv := 1 / det in
  mkMatrix3 (t11 * detInv)
            ((n31 * n23 - n33 * n21) * detInv)
            ((n32 * n21 - n31 * n22) * detInv)
            (t12 * detInv)
            ((n33 * n11 - n31 * n13) * detInv)
            ((n31 * n12 - n32 * n11) * detInv)
            (t13 * detInv)
            ((n21 * n13 - n23 * n11) * detInv)
            ((n22 * n11 - n21 * n12) * detInv).

Definition transpose (m : Matrix3) : Matrix3 :=
  mkMatrix3 (k0 m) (k3 m) (k6 m)
            (k1 m) (k4 m) (k7 m)
            (k2 m) (k5 m) (k8 m).

Definition getNormalMatrix (m : Matrix4) : Matrix3 :=
  transpose (invert3 (setFromMatrix4 m)).

(** *** Ray *)

Definition at_ (r : Ray) (t : float) : Vector3 :=
  mkVector3 (vx (origin r) + vx (direction r) * t)
            (vy (origin r) + vy (direction r) * t)
            (vz (origin r) + vz (direction r) * t).

Definition intersectSphere (r : Ray) (sphere : Sphere) : option Vector3 :=
  let v := subVectors (center sphere) (origin r) in
  let tca := dot v (direction r) in
  let d2 := dot v v - tca * tca in
  let radius2 := sphereRadius sphere * sphereRadius sphere in
  if gtb d2 radius2 then None else
  let thc := sqrt (radius2 - d2) in
  let t0 := tca - thc in
  let t1 := tca + thc in
  if t1 <? 0 then None else
  if t0 <? 0 then Some (at_ r t1) else
  Some (at_ r t0).

(** *** Object3D and OrthographicCamera *)

Record Object3D := mkObject3D {
  position : Vector3;
  quaternion : Quaternion;
  scale : Vector3;
  matrixWorld : Matrix4 }.

Definition newObject3D : Object3D :=
  mkObject3D (mkVector3 0 0 0) identityQuaternion (mkVector3 1 1 1) identity.

(** [o.updateMatrixWorld()] of an object with no parent. *)
Definition updateMatrixWorld (o : Object3D) : Object3D :=
  mkObject3D (position o) (quaternion o) (scale o)
             (compose (position o) (quaternion o) (scale o)).

Record OrthographicCamera := mkOrthographicCamera {
  object3d : Object3D;
  zoom : float;
  left : float;
  right : float;
  top : float;
  bottom : float;
  near : float;
  far : float;
  projectionMatrix : Matrix4;
  projectionMatrixInverse : Matrix4 }.

Definition updateProjectionMatrix (c : OrthographicCamera)
    : OrthographicCamera :=
  let dx := (right c - left c) / (2 * zoom c) in
  let dy := (top c - bottom c) / (2 * zoom c) in
  let cx := (right c + left c) / 2 in
  let cy := (top c + bottom c) / 2 in
  let p := makeOrthographic (cx - dx) (cx + dx) (cy + dy) (cy - dy)
                            (near c) (far c) in
  mkOrthographicCamera (object3d c) (zoom c) (left c) (right c) (top c)
                       (bottom c) (near c) (far c) p (invert p).

Definition newOrthographicCamera : OrthographicCamera :=
  updateProjectionMatrix
    (mkOrthographicCamera newObject3D 1 (-1) 1 1 (-1) 0.1 2000
                          identity identity).

Definition unproject (v : Vector3) (c : OrthographicCamera) : Vector3 :=
  applyMatrix4 (applyMatrix4 v (projectionMatrixInverse c))
               (matrixWorld (object3d c)).

(** [raycaster.setFromCamera(coords, camera)]: the ray it leaves. *)
Definition setFromCamera (coords : Vector2) (c : OrthographicCamera) : Ray :=
  let o := unproject
             (mkVector3 (px coords) (py coords)
                        ((near c + far c) / (near c - far c))) c in
  let d := transformDirection (mkVector3 0 0 (-1))
                              (matrixWorld (object3d c)) in
  mkRay o d.

(** *** The projector *)

(** The fields of [Fisheye] that hold numbers: [sphereMesh] is the
    transform of the mesh, [sphere] is [temp.sphere], [e] is [temp.e]. *)
Record Fisheye := mkFisheye {
  fisheyeZoom : float;
  sphereMesh : Object3D;
  orthoCamera : OrthographicCamera;
  cubeCamera : Object3D;
  e : Euler;
  sphere : Sphere }.

Definition set_zoom (this : Fisheye) (v : float) : Fisheye :=
  mkFisheye v (sphereMesh this) (orthoCamera this) (cubeCamera this)
            (e this) (sphere this).

(** [onResize(width, height)]. *)
Definition onResize (width height : float) (this : Fisheye) : Fisheye :=
  let w := width in
  let h := height in
  let ortho := orthoCamera this in
  let object1 := mkObject3D (mkVector3 0 0 100)
                   (quaternion (object3d ortho)) (scale (object3d ortho))
                   (matrixWorld (object3d ortho)) in
  let ortho2 :=
    mkOrthographicCamera object1 100 (w / -2) (w / 2) (h / 2) (h / -2)
                         (near ortho) (far ortho) (projectionMatrix ortho)
                         (projectionMatrixInverse ortho) in
  let ortho3 := updateProjectionMatrix ortho2 in
  let radius := (sqrt (w * w + h * h) / 100) * (0.5 + fisheyeZoom this / 2) in
  let mesh := sphereMesh this in
  let mesh1 := mkObject3D (position mesh) (quaternion mesh)
                          (setScalar radius) (matrixWorld mesh) in
  mkFisheye (fisheyeZoom this) mesh1 ortho3 (cubeCamera this) (e this)
            (mkSphere (center (sphere this)) radius).

(** [new Fisheye({ zoom })]. *)
Definition constructor (zoom : float) : Fisheye :=
  onResize 100 100
    (mkFisheye zoom newObject3D newOrthographicCamera newObject3D
               (mkEuler 0 PI 0) (mkSphere (mkVector3 0 0 0) (-1))).

Section Engine.

Variables cos sin : float -> float.

(** [render(renderer, scene, camera)] with a renderer that returns; of
    [camera] only [matrixWorld] is read. *)
Definition render (camera : Matrix4) (this : Fisheye) : Fisheye :=
  let '(t1, r1, s1) := decompose camera in
  let cube := cubeCamera this in
  let cube2 := mkObject3D t1 (premultiply (setFromEuler cos sin (e this)) r1)
                          (scale cube) (matrixWorld cube) in
  mkFisheye (fisheyeZoom this)
            (updateMatrixWorld (sphereMesh this))
            (let c := orthoCamera this in
             mkOrthographicCamera (updateMatrixWorld (object3d c)) (zoom c)
               (left c) (right c) (top c) (bottom c) (near c) (far c)
               (projectionMatrix c) (projectionMatrixInverse c))
            (updateMatrixWorld cube2) (e this) (sphere this).

End Engine.

(** [computeRaycastRayDirection(raycaster, pointer)]: what
    [intersectSphere] answered ([None] for the early return) and the ray
    the call leaves in the raycaster. *)
Definition computeRaycastRayDirection (pointer : Vector2) (this : Fisheye)
    : option Vector3 * Ray :=
  let raycaster1 := setFromCamera pointer (orthoCamera this) in
  match intersectSphere raycaster1 (sphere this) with
  | None => (None, raycaster1)
  | Some hit =>
      let normal := normalize hit in
      let normalMatrix := getNormalMatrix (matrixWorld (cubeCamera this)) in
      let origin :=
        setFromMatrixPosition
          (matrixWorld (updateMatrixWorld (cubeCamera this))) in
      let d1 := reflect (mkVector3 0 0 1) normal in
      let d2 := mkVector3 (vx d1 * -1) (vy d1) (vz d1) in
      let d3 := multiplyScalar (applyNormalMatrix d2 normalMatrix) (-1) in
      (Some hit, mkRay origin d3)
  end.

(** The pointer the [pointerup] listener of the story computes. *)
Definition pointerOf (offsetX offsetY clientWidth clientHeight : float)
    : Vector2 :=
  mkVector2 ((offsetX / clientWidth) * 2 - 1)
            (- (offsetY / clientHeight) * 2 + 1).

(** [camera.getWorldDirection(target)] of a [Camera], from the world
    matrix as it stands. *)
Definition negate (v : Vector3) : Vector3 :=
  mkVector3 (- vx v) (- vy v) (- vz v).

Definition getWorldDirection (m : Matrix4) : Vector3 :=
  negate (normalize (mkVector3 (e8 m) (e9 m) (e10 m))).

(** A camera at [p], looking down the world's -Z. *)
Definition cameraAt (p : Vector3) : Matrix4 :=
  compose p identityQuaternion (mkVector3 1 1 1).

(** The cosine and the sine at the two arguments [setFromEuler] passes
    them for the Euler angles [(0, Math.PI, 0)], which are [0] and
    [Math.PI / 2], rounded to the nearest float; elsewhere they are not
    asked and are left NaN. *)
Definition cosOfHalfAngle (x : float) : float :=
  if x =? 0 then 1
  else if x =? PI / 2 then 0x1.1a62633145c07p-54
  else nan.

Definition sinOfHalfAngle (x : float) : float :=
  if x =? 0 then 0
  else if x =? PI / 2 then 1
  else nan.

End Binary64.

(** ** src/core/CubeCamera.ts *)
Module CoreCubeCamera.
Import THREE.
Local Open Scope R_scope.

(** A frame budget: [Infinity] or a finite count. *)
Inductive number := Infinity | Finite (n : Z).

(** [CubeCameraProps]: every field is optional. *)
Record CubeCameraProps := mkCubeCameraProps {
  resolution : option Z;
  near : option R;
  far : option R;
  frames : option number;
  envMap : option nat;
  fog : option nat }.

(** [CubeCameraType], the object [CubeCamera] returns, together with what
    its [update] closes over: the renderer, the [frames] binding of the
    destructured argument, and [count].  [texture] is [fbo.texture]; the
    scene, shared with the host, is passed to [update]. *)
Record CubeCameraType := mkCubeCameraType {
  groupVisible : bool;
  camera : CubeCamera;
  fbo : nat;
  params : CubeCameraProps;
  closureRenderer : WebGLRenderer;
  closureFrames : number;
  count : nat }.

(** The host's assignments to the fields of [params]. *)
Definition set_params (this : CubeCameraType) (p : CubeCameraProps)
    : CubeCameraType :=
  mkCubeCameraType (groupVisible this) (camera this) (fbo this) p
                   (closureRenderer this) (closureFrames this) (count this).

Definition set_params_frames (this : CubeCameraType) (v : option number)
    : CubeCameraType :=
  let p := params this in
  set_params this
    (mkCubeCameraProps (resolution p) (near p) (far p) v (envMap p) (fog p)).

Definition set_params_envMap (this : CubeCameraType) (v : option nat)
    : CubeCameraType :=
  let p := params this in
  set_params this
    (mkCubeCameraProps (resolution p) (near p) (far p) (frames p) v (fog p)).

Definition set_params_fog (this : CubeCameraType) (v : option nat)
    : CubeCameraType :=
  let p := params this in
  set_params this
    (mkCubeCameraProps (resolution p) (near p) (far p) (frames p)
                       (envMap p) v).


(** JavaScript's [a || b] on two references: [undefined] is falsy, an
    object is not. *)
Definition or_else (a b : option nat) : option nat :=
  match a with Some _ => a | None => b end.

(** [count < frames] on a counter and a budget. *)
Definition below (count : nat) (frames : number) : bool :=
  match frames with
  | Infinity => true
  | Finite n => (Z.of_nat count <? n)%Z
  end.

(** [frames === Infinity]. *)
Definition isInfinity (frames : number) : bool :=
  match frames with Infinity => true | Finite _ => false end.

(** [CubeCamera(renderer, scene, props)] with the defaults
    [{ resolution = 256, near = 0.1, far = 1000, frames = Infinity }]. *)
Definition CubeCamera (renderer : WebGLRenderer) (props : CubeCameraProps)
    (w : World) : CubeCameraType * World :=
  let resolution' := default 256%Z (resolution props) in
  let near' := default 0.1 (near props) in
  let far' := default 1000 (far props) in
  let frames' := default Infinity (frames props) in
  let params := mkCubeCameraProps (Some resolution') (Some near')
                  (Some far') (Some frames') (envMap props) (fog props) in
  let '(fbo, w1) := newWebGLCubeRenderTarget resolution' false w in
  let camera := set_parent (newCubeCamera near' far' fbo) Detached in
  (mkCubeCameraType true camera fbo params renderer frames' 0, w1).

(** [update()]: the instance, the scene and the world as the call leaves
    them. *)
Definition update (this : CubeCameraType) (scene : Scene) (w : World)
    : Completion (CubeCameraType * Scene * World) :=
  if isInfinity (closureFrames this)
     || below (count this) (closureFrames this) then
    let originalFog := THREE.fog scene in
    let originalBackground := background scene in
    let scene1 := mkScene (THREE.fog scene)
                          (or_else (envMap (params this)) originalBackground)
                          (children scene) in
    let scene2 := mkScene (or_else (fog (params this)) originalFog)
                          (background scene1) (children scene1) in
    let this1 c visible n :=
      mkCubeCameraType visible c (fbo this) (params this)
                       (closureRenderer this) (closureFrames this) n in
    match cubeCameraUpdate (closureRenderer this) (camera this) scene2 w with
    | Throw (c, w1) => Throw (this1 c false (count this), scene2, w1)
    | Normal (c, w1) =>
        let scene3 := mkScene originalFog (background scene2)
                              (children scene2) in
        let scene4 := mkScene (THREE.fog scene3) originalBackground
                              (children scene3) in
        Normal (this1 c true (S (count this)), scene4, w1)
    end
  else Normal (this, scene, w).

(** [update()] called by the host [n] times, frame after frame; a frame
    that throws does not stop the next one. *)
Fixpoint updates (n : nat) (this : CubeCameraType) (scene : Scene)
    (w : World) : CubeCameraType * Scene * World :=
  match n with
  | O => (this, scene, w)
  | S n' =>
      let '(this1, scene1, w1) := state (update this scene w) in
      updates n' this1 scene1 w1
  end.

End CoreCubeCamera.

(** ** The story of the projector (title 'Portals/Fisheye')

    The story owns one projector and drives it from the window, from two
    sliders and from the pointer.  What the browser supplies (the size of
    the window and of the canvas, the clock, the coordinates of an event)
    is an argument of the handler it reaches.  The listeners of the story
    are anonymous functions; they are named here after the event they
    serve. *)
Module FisheyeStories.
Import THREE CoreFisheye.
Local Open Scope R_scope.

(** [params], the object the sliders write to. *)
Record Params := mkParams {
  fisheyeEnabled : bool;
  zoom : R;
  resolution : Z }.

Definition params : Params := mkParams true 0 896.

(** [window]: [innerWidth] and [innerHeight]. *)
Record Window := mkWindow { innerWidth : R; innerHeight : R }.

(** [renderer.domElement]: [clientWidth] and [clientHeight]. *)
Record Element := mkElement { clientWidth : R; clientHeight : R }.

Record PointerEvent := mkPointerEvent { offsetX : R; offsetY : R }.

(** [onWindowResize]. *)
Definition onWindowResize (window : Window) (fisheye : Fisheye) : Fisheye :=
  onResize (innerWidth window) (innerHeight window) fisheye.

(** [FisheyeStory], as far as the projector goes: it is made from
    [params] and sized to the window at once. *)
Definition FisheyeStory (window : Window) (w : World) : Fisheye * World :=
  let '(fisheye, w1) :=
    constructor (mkFisheyeProps (Some (zoom params)) None
                                (Some (resolution params))) w in
  (onWindowResize window fisheye, w1).

(** The [onChange] of the zoom slider in [addFisheyeGUI]. *)
Definition onZoomChange (value : R) (window : Window) (fisheye : Fisheye)
    : Fisheye :=
  onResize (innerWidth window) (innerHeight window) (set_zoom fisheye value).

(** The [onChange] of the resolution slider in [addFisheyeGUI]. *)
Definition onResolutionChange (value : Z) (fisheye : Fisheye) (w : World)
    : Fisheye * World :=
  updateResolution value (set_resolution fisheye value) w.

(** What the listeners of [setupRaycaster] close over. *)
Record Picking := mkPicking {
  raycaster : Raycaster;
  pointer : Vector2;
  pointerDownTime : R }.

Definition setupRaycaster : Picking :=
  mkPicking newRaycaster (mkVector2 0 0) 0.

(** The [pointerdown] listener; [now] is [performance.now()]. *)
Definition pointerdown (now : R) (s : Picking) : Picking :=
  mkPicking (raycaster s) (pointer s) now.

Section Setup.

(** The camera of the story comes from [Setup()], which is not among
    these files: what [raycaster.setFromCamera(pointer, camera)] does
    with it is left open. *)
Variable setFromSetupCamera : Raycaster -> Vector2 -> Raycaster.

(** The [pointerup] listener, up to the ray it leaves in the raycaster.
    (The listener goes on to test the story's cylinders against that ray
    and to repaint the first one hit; that touches neither the raycaster
    nor the projector.) *)
Definition pointerup (now : R) (event : PointerEvent) (domElement : Element)
    (params : Params) (fisheye : Fisheye) (s : Picking)
    : Fisheye * Picking :=
  let pointerUpTime := now in
  let timeDiff := pointerUpTime - pointerDownTime s in
  if ltb timeDiff 200 then
    let pointer1 :=
      mkVector2 ((offsetX event / clientWidth domElement) * 2 - 1)
                (- (offsetY event / clientHeight domElement) * 2 + 1) in
    if fisheyeEnabled params then
      let '(fisheye1, raycaster1) :=
        computeRaycastRayDirection (raycaster s) pointer1 fisheye in
      (fisheye1, mkPicking raycaster1 pointer1 (pointerDownTime s))
    else
      (fisheye,
       mkPicking (setFromSetupCamera (raycaster s) pointer1) pointer1
                 (pointerDownTime s))
  else (fisheye, s).

End Setup.

End FisheyeStories.


(** ** A projector in the hands of its host

    What a host does with a projector between construction and the
    current frame, with the inputs the data model allows: a zoom in
    [[0, 1]] and a viewport of positive size. *)
Module FisheyeHost.
Import THREE CoreFisheye.
Local Open Scope R_scope.

Definition validProps (props : FisheyeProps) : Prop :=
  match props_zoom props with
  | Some z => 0 <= z <= 1
  | None => True
  end.

(** Keys are handed out in order: none at or above [allocated] is in
    use. *)
Definition wellFormed (w : World) : Prop :=
  forall k, (allocated w <= k)%nat -> targets w !! k = None.

Inductive step : Fisheye * World -> Fisheye * World -> Prop :=
| step_zoom this w v :
    0 <= v <= 1 -> step (this, w) (set_zoom this v, w)
| step_resolution this w v :
    step (this, w) (set_resolution this v, w)
| step_onResize this w width height :
    0 < width -> 0 < height -> step (this, w) (onResize width height this, w)
| step_updateResolution this w res :
    step (this, w) (updateResolution res this w)
| step_render this w renderer scene camera :
    step (this, w) (state (render renderer scene camera this w))
| step_pick this w raycaster pointer :
    step (this, w)
         (fst (computeRaycastRayDirection raycaster pointer this), w).

Inductive reachable : Fisheye * World -> Prop :=
| reachable_constructor props w :
    validProps props -> wellFormed w -> reachable (constructor props w)
| reachable_step st st' :
    reachable st -> step st st' -> reachable st'.

(** The capture camera and the sphere material look at the texture of
    the projector's current render target. *)
Definition sameTexture (this : Fisheye) : Prop :=
  THREE.renderTarget (cubeCamera this) = renderTarget this /\
  envMap (material (sphereMesh this)) = Some (renderTarget this).

(** The world matrix of the orthographic camera once a draw refreshed
    it: a translation to [(0, 0, 100)]. *)
Definition orthoWorld : Matrix4 :=
  compose (mkVector3 0 0 100) identityQuaternion (mkVector3 1 1 1).

(** What every reachable projector satisfies.  The last field says that
    the world matrix of the orthographic camera is the identity it was
    created with until the first draw refreshes it. *)
Record invariant (this : Fisheye) (w : World) : Prop := mkInvariant {
  inv_zoom : 0 <= zoom this <= 1;
  inv_ortho_position :
    position (object3d (orthoCamera this)) = mkVector3 0 0 100;
  inv_ortho_quaternion :
    quaternion (object3d (orthoCamera this)) = identityQuaternion;
  inv_ortho_scale :
    scale (object3d (orthoCamera this)) = mkVector3 1 1 1;
  inv_ortho_zoom : THREE.zoom (orthoCamera this) = 100;
  inv_ortho_near : near (orthoCamera this) = 0.1;
  inv_ortho_far : far (orthoCamera this) = 2000;
  inv_ortho_left : left (orthoCamera this) = - right (orthoCamera this);
  inv_ortho_bottom : bottom (orthoCamera this) = - top (orthoCamera this);
  inv_ortho_right : 0 < right (orthoCamera this);
  inv_ortho_top : 0 < top (orthoCamera this);
  inv_ortho_projection :
    updateProjectionMatrix (orthoCamera this) = orthoCamera this;
  inv_e : e (temp this) = mkEuler 0 Math.PI 0;
  inv_center : center (sphere (temp this)) = mkVector3 0 0 0;
  inv_radius : 0 < radius (sphere (temp this));
  inv_mesh_quaternion :
    quaternion (meshObject3d (sphereMesh this)) = identityQuaternion;
  inv_mesh_scale :
    scale (meshObject3d (sphereMesh this))
    = setScalar (radius (sphere (temp this)));
  inv_cube_scale :
    scale (cubeObject3d (cubeCamera this)) = mkVector3 1 1 1;
  inv_cube_parent : parent (cubeCamera this) = NoParent;
  inv_same_texture : sameTexture this;
  inv_live :
    exists rt, targets w !! renderTarget this = Some rt /\
               disposed rt = false;
  inv_world : wellFormed w;
  inv_ortho_world :
    matrixWorld (object3d (orthoCamera this)) = identity \/
    matrixWorld (object3d (orthoCamera this)) = orthoWorld }.

(** The source camera stands in the world at [p], turned by the unit
    quaternion [q], with a positive scale [s]. *)
Definition posed (camera : Object3D) (p : Vector3) (q : Quaternion)
    (s : Vector3) : Prop :=
  matrixWorld camera = compose p q s /\ unitQuaternion q /\
  0 < vx s /\ 0 < vy s /\ 0 < vz s.

(** The quaternion [render] composes into the capture camera's,
    [setFromEuler(temp.e)]: a turn about Y by [Math.PI]. *)
Definition yaw : Quaternion := setFromEuler (mkEuler 0 Math.PI 0).

(** The six faces of one capture, in the order they are drawn. *)
Definition sixFaces (target : nat) (scene : Scene) (eye : Matrix4)
    : list Command :=
  map (fun face => RenderFace target face scene eye)
      [PX; NX; PY; NY; PZ; NZ].

(** A render target with its mipmaps switched off. *)
Definition mipmapsOff (rt : WebGLCubeRenderTarget) : WebGLCubeRenderTarget :=
  mkWebGLCubeRenderTarget (width rt) false (isRenderTargetTexture rt)
                          (disposed rt).

(** All a capture into [target] can do to the store: leave it as it is,
    or leave the mipmaps of [target] switched off. *)
Definition sameButMipmaps (target : nat) (w w' : World) : Prop :=
  allocated w' = allocated w /\
  (forall k, k <> target -> targets w' !! k = targets w !! k) /\
  (targets w' !! target = targets w !! target \/
   targets w' !! target = mipmapsOff <$> targets w !! target).

End FisheyeHost.

(** ** A cube camera in the hands of its host *)
Module CubeCameraHost.
Import THREE CoreCubeCamera.

(** A command that completes a capture into [target]: its sixth face. *)
Definition completes (target : nat) (c : Command) : bool :=
  match c with
  | RenderFace t NZ _ _ => Nat.eqb t target
  | _ => false
  end.

(** The captures into [target] completed so far. *)
Definition captures (target : nat) (w : World) : nat :=
  List.length (List.filter (completes target) (commands w)).

(** How many of [n] calls a budget lets capture. *)
Definition allowance (budget : number) (n : nat) : nat :=
  match budget with
  | Infinity => n
  | Finite k => Nat.min n (Z.to_nat k)
  end.

(** The scene as a capture sees it: the substitutes of [params] where
    given, the scene's own fog and background otherwise. *)
Definition substituted (this : CubeCameraType) (scene : Scene) : Scene :=
  mkScene (or_else (CoreCubeCamera.fog (params this)) (THREE.fog scene))
          (or_else (CoreCubeCamera.envMap (params this)) (background scene))
          (children scene).

End CubeCameraHost.

(** ** The story in the hands of the browser

    The events that reach the story once it is set up: the window is
    resized, a slider is moved within its range, the animation loop draws
    a frame through the projector, the pointer is released.  A handler
    that reads the window reads it as it is when the event arrives. *)
Module FisheyeStoriesHost.
Import THREE CoreFisheye FisheyeStories.
Local Open Scope R_scope.

(** The projector of the story and the size of the window as the story
    last read it. *)
Record Story := mkStory { fisheye : Fisheye; window : Window }.

Section Setup.

Variable setFromSetupCamera : Raycaster -> Vector2 -> Raycaster.

Inductive event : Story * World -> Story * World -> Prop :=
| event_resize story w window' :
    0 < innerWidth window' -> 0 < innerHeight window' ->
    event (story, w)
          (mkStory (onWindowResize window' (fisheye story)) window', w)
| event_zoom story w value window' :
    0 <= value <= 1 ->
    0 < innerWidth window' -> 0 < innerHeight window' ->
    event (story, w)
          (mkStory (onZoomChange value window' (fisheye story)) window', w)
| event_resolution story w value :
    (256 <= value <= 1024)%Z ->
    event (story, w)
          (mkStory (fst (onResolutionChange value (fisheye story) w))
                   (window story),
           snd (onResolutionChange value (fisheye story) w))
| event_frame story w renderer scene camera :
    event (story, w)
          (mkStory (fst (state (render renderer scene camera
                                       (fisheye story) w)))
                   (window story),
           snd (state (render renderer scene camera (fisheye story) w)))
| event_pointerup story w now pointerEvent domElement params picking :
    event (story, w)
          (mkStory (fst (pointerup setFromSetupCamera now pointerEvent
                                   domElement params (fisheye story)
                                   picking))
                   (window story), w).

End Setup.

End FisheyeStoriesHost.

(** ** The story of the cube camera (title 'Camera/CubeCamera')

    Two reflective spheres, each with a cube camera of its own, in one
    scene; the callback of the render loop moves the two meshes and
    updates the two cube cameras. *)
Module CubeCameraStories.
Import THREE CoreCubeCamera.
Local Open Scope R_scope.


(** What [createReflectiveSphere] returns; of the mesh, its position and
    the texture its material reflects (named by the key of the texture's
    render target). *)
Record ReflectiveSphere := mkReflectiveSphere {
  cubeCamera : CubeCameraType;
  meshPosition : Vector3;
  meshEnvMap : nat }.




(** The two spheres of the story. *)
Record Story := mkStory {
  sphere1 : ReflectiveSphere;
  sphere2 : ReflectiveSphere }.





End CubeCameraStories.

(** ** The two spheres over the frames of the story *)
Module CubeCameraStoriesHost.
Import THREE CoreCubeCamera CubeCameraStories.
Local Open Scope R_scope.


End CubeCameraStoriesHost.

(** ** Concrete hosts, for the instances of the properties *)
Module Instances.
Import THREE.
Local Open Scope R_scope.

(** A renderer whose draws all return, and one whose every draw throws. *)
Definition quietRenderer : WebGLRenderer := mkWebGLRenderer (fun _ => false).

Definition lostRenderer : WebGLRenderer := mkWebGLRenderer (fun _ => true).

Definition emptyScene : Scene := mkScene None None [].

(** A camera at [p], looking down the world's -Z. *)
Definition cameraAt (p : Vector3) : Object3D :=
  let m := compose p identityQuaternion (mkVector3 1 1 1) in
  mkObject3D p identityQuaternion (mkVector3 1 1 1) m m.



Definition defaultProps : CoreFisheye.FisheyeProps :=
  CoreFisheye.mkFisheyeProps None None None.

(** [new Fisheye()] in an empty world. *)
Definition freshFisheye : CoreFisheye.Fisheye * World :=
  CoreFisheye.constructor defaultProps emptyWorld.

(** The same after one frame seen from [(1, 2, 3)]. *)
Definition firstFrame : CoreFisheye.Fisheye * World :=
  state (CoreFisheye.render quietRenderer emptyScene
           (cameraAt (mkVector3 1 2 3)) (fst freshFisheye)
           (snd freshFisheye)).

(** A scene with fog [1] and background [2], and a cube camera that
    substitutes fog [7] and background [9] while it captures. *)
Definition tintedScene : Scene := mkScene (Some 1%nat) (Some 2%nat) [].

Definition substituteProps (budget : option CoreCubeCamera.number)
    : CoreCubeCamera.CubeCameraProps :=
  CoreCubeCamera.mkCubeCameraProps None None None budget (Some 9%nat)
                                   (Some 7%nat).

End Instances.

(** ** Facts about the three.js model *)
Module THREEFacts.
Import THREE.
Local Open Scope R_scope.

(** Decimal literals as quotients of integers, for [field] and [nsatz]. *)
Ltac decimals :=
  unfold Q2R in *; cbn [QArith_base.Qnum QArith_base.Qden] in *.

Ltac entries :=
  cbn [e0 e1 e2 e3 e4 e5 e6 e7 e8 e9 e10 e11 e12 e13 e14 e15
       k0 k1 k2 k3 k4 k5 k6 k7 k8 vx vy vz qx qy qz qw px py
       ex ey ez center radius origin direction] in *.

Lemma eqb_false a b : a <> b -> eqb a b = false.
Proof.
  intros H. unfold eqb. destruct (Req_EM_T a b); [contradiction|reflexivity].
Qed.

Lemma eqb_true a b : a = b -> eqb a b = true.
Proof.
  intros H. unfold eqb. destruct (Req_EM_T a b); [reflexivity|contradiction].
Qed.

Lemma gtb_true a b : a > b -> gtb a b = true.
Proof.
  intros H. unfold gtb. destruct (Rgt_dec a b); [reflexivity|contradiction].
Qed.

Lemma gtb_false a b : ~ a > b -> gtb a b = false.
Proof.
  intros H. unfold gtb. destruct (Rgt_dec a b); [contradiction|reflexivity].
Qed.

Lemma gtb_spec a b : Bool.reflect (a > b) (gtb a b).
Proof. unfold gtb. destruct (Rgt_dec a b); constructor; assumption. Qed.

Lemma ltb_true a b : a < b -> ltb a b = true.
Proof.
  intros H. unfold ltb. destruct (Rlt_dec a b); [reflexivity|contradiction].
Qed.

Lemma ltb_false a b : ~ a < b -> ltb a b = false.
Proof.
  intros H. unfold ltb. destruct (Rlt_dec a b); [contradiction|reflexivity].
Qed.

Lemma or_one_nonzero a : a <> 0 -> or_one a = a.
Proof. intros H. unfold or_one. now rewrite eqb_false. Qed.

Lemma sqrt_sq_abs a : sqrt (a * a) = Rabs a.
Proof. apply sqrt_Rsqr_abs. Qed.

(** *** Unit quaternions and the rotation they compose *)

Lemma unitQuaternion_antipode q : unitQuaternion q -> unitQuaternion (antipode q).
Proof. unfold unitQuaternion, antipode. entries. intros H. nsatz. Qed.

Lemma compose_antipode p q s : compose p (antipode q) s = compose p q s.
Proof. unfold compose, antipode. entries. f_equal; ring. Qed.


Lemma multiplyQuaternions_antipode_l a b :
  multiplyQuaternions (antipode a) b = antipode (multiplyQuaternions a b).
Proof. unfold multiplyQuaternions, antipode. entries. f_equal; ring. Qed.

(** The three branches of [setFromRotationMatrix] that pivot on a
    component [v] of the quaternion all end the same way. *)
Ltac pivot v E :=
  rewrite E, sqrt_sq_abs;
  let N := fresh "N" in
  destruct (Rcase_abs (2 * v)) as [N|N];
  [ right; rewrite (Rabs_left _ N) | left; rewrite (Rabs_right _ N) ];
  f_equal; field; lra.

(** A quaternion read back from the rotation it composed is that
    quaternion or its negation (which composes the same rotation). *)
Lemma setFromRotationMatrix_compose p q :
  unitQuaternion q ->
  setFromRotationMatrix (compose p q (mkVector3 1 1 1)) = q \/
  setFromRotationMatrix (compose p q (mkVector3 1 1 1)) = antipode q.
Proof.
  destruct q as [x y z w].
  unfold unitQuaternion, antipode, setFromRotationMatrix, compose.
  entries. intros U. decimals.
  set (m11 := (1 - (y * (y + y) + z * (z + z))) * 1).
  set (m22 := (1 - (x * (x + x) + z * (z + z))) * 1).
  set (m33 := (1 - (x * (x + x) + y * (y + y))) * 1).
  destruct (gtb_spec (m11 + m22 + m33) 0) as [T|T].
  { assert (E : m11 + m22 + m33 + 1 = (2 * w) * (2 * w))
      by (subst m11 m22 m33; nsatz).
    assert (w <> 0) by (intros ->; subst m11 m22 m33; nra).
    subst m11 m22 m33. pivot w E. }
  destruct (gtb_spec m11 m22) as [A|A];
    [destruct (gtb_spec m11 m33) as [B|B]|]; cbn [andb].
  - assert (E : 1 + m11 - m22 - m33 = (2 * x) * (2 * x))
      by (subst m11 m22 m33; nsatz).
    assert (x <> 0) by (intros ->; subst m11 m22 m33; nra).
    subst m11 m22 m33. pivot x E.
  - destruct (gtb_spec m22 m33) as [C|C].
    + assert (E : 1 + m22 - m11 - m33 = (2 * y) * (2 * y))
        by (subst m11 m22 m33; nsatz).
      assert (y <> 0) by (intros ->; subst m11 m22 m33; nra).
      subst m11 m22 m33. pivot y E.
    + assert (E : 1 + m33 - m11 - m22 = (2 * z) * (2 * z))
        by (subst m11 m22 m33; nsatz).
      assert (z <> 0) by (intros ->; subst m11 m22 m33; nra).
      subst m11 m22 m33. pivot z E.
  - destruct (gtb_spec m22 m33) as [C|C].
    + assert (E : 1 + m22 - m11 - m33 = (2 * y) * (2 * y))
        by (subst m11 m22 m33; nsatz).
      assert (y <> 0) by (intros ->; subst m11 m22 m33; nra).
      subst m11 m22 m33. pivot y E.
    + assert (E : 1 + m33 - m11 - m22 = (2 * z) * (2 * z))
        by (subst m11 m22 m33; nsatz).
      assert (z <> 0) by (intros ->; subst m11 m22 m33; nra).
      subst m11 m22 m33. pivot z E.
Qed.

Lemma column_length a b c k :
  a * a + b * b + c * c = 1 -> 0 < k ->
  length (mkVector3 (a * k) (b * k) (c * k)) = k.
Proof.
  intros H Hk. unfold length. entries.
  replace (a * k * (a * k) + b * k * (b * k) + c * k * (c * k))
    with (k * k) by (transitivity ((a * a + b * b + c * c) * (k * k));
                     [rewrite H|]; ring).
  apply sqrt_square. lra.
Qed.

Lemma determinant_compose p q s :
  unitQuaternion q ->
  determinant (compose p q s) = vx s * vy s * vz s.
Proof.
  destruct q as [x y z w], s as [sx sy sz], p as [a b c].
  unfold unitQuaternion, determinant, compose. entries. intros U. nsatz.
Qed.

Lemma decompose_compose_rotation p q s :
  unitQuaternion q -> 0 < vx s -> 0 < vy s -> 0 < vz s ->
  decompose (compose p q s)
  = (p, setFromRotationMatrix (compose p q (mkVector3 1 1 1)), s).
Proof.
  intros U Hx Hy Hz.
  unfold decompose. rewrite determinant_compose by exact U.
  rewrite ltb_false by (assert (0 < vx s * vy s * vz s)
    by (repeat apply Rmult_lt_0_compat; assumption); lra).
  destruct q as [x y z w], s as [sx sy sz], p as [a b c].
  unfold unitQuaternion in U. unfold compose. entries.
  rewrite !column_length by (assumption || nsatz).
  do 3 f_equal. f_equal; field; lra.
Qed.

(** [decompose] undoes [compose] on a unit quaternion and a positive
    scale, up to the sign of the quaternion. *)
Lemma decompose_compose p q s :
  unitQuaternion q -> 0 < vx s -> 0 < vy s -> 0 < vz s ->
  exists q', (q' = q \/ q' = antipode q) /\
             decompose (compose p q s) = (p, q', s).
Proof.
  intros U Hx Hy Hz.
  exists (setFromRotationMatrix (compose p q (mkVector3 1 1 1))). split.
  - apply setFromRotationMatrix_compose, U.
  - now apply decompose_compose_rotation.
Qed.



(** *** The normal matrix of a rotation is the rotation *)


(** *** [Math.PI] and pi

    [Math.PI] falls short of pi, by more than 1.2e-16 and less than
    1.3e-16: pi lies between two partial sums of the series of
    [2 atan (1/3) + atan (1/7)]. *)

(** The terms of such a sum, with their denominators as literals. *)
Ltac literals H :=
  unfold sum_f_R0, tg_alt, PI_2_3_7_tg, Ratan_seq in H;
  cbn [Nat.mul Nat.add] in H;
  rewrite !INR_IZR_INZ in H;
  repeat match type of H with
         | context [Z.of_nat ?n] =>
             let z := eval vm_compute in (Z.of_nat n) in
             change (Z.of_nat n) with z in H
         end.

Lemma Math_PI_below : Math.PI < PI.
Proof.
  pose proof (PI_2_3_7_ineq 8) as [L _].
  change (S (2 * 8)) with 17%nat in L.
  literals L. unfold Math.PI. lra.
Qed.



Lemma Math_PI_positive : 0 < Math.PI.
Proof. unfold Math.PI. lra. Qed.




(** *** The fixed yaw of the projector

    [setFromEuler] of [(0, Math.PI, 0)] is the turn about Y by
    [Math.PI]: a unit quaternion, a little short of the half turn
    [(0, 1, 0, 0)]. *)




Lemma half_Math_PI :
  sin (Math.PI / 2) * sin (Math.PI / 2)
  + cos (Math.PI / 2) * cos (Math.PI / 2) = 1.
Proof. exact (sin2_cos2 (Math.PI / 2)). Qed.


(** The [w] of the yaw is not zero. *)
Lemma cos_half_Math_PI : 0 < cos (Math.PI / 2).
Proof.
  pose proof Math_PI_below. pose proof Math_PI_positive.
  apply cos_gt_0; lra.
Qed.

Lemma sin_half_Math_PI : 0 < sin (Math.PI / 2) < 1.
Proof.
  pose proof half_Math_PI. pose proof cos_half_Math_PI.
  pose proof Math_PI_below. pose proof Math_PI_positive.
  assert (0 < sin (Math.PI / 2)) by (apply sin_gt_0; lra).
  split; nra.
Qed.


(** *** The inverse is an inverse *)

Lemma multiplyMatrices_invert m :
  determinant m <> 0 -> multiplyMatrices m (invert m) = identity.
Proof.
  destruct m. unfold determinant, invert, multiplyMatrices, identity.
  entries. intros H.
  rewrite eqb_false by (intros E; apply H; rewrite <- E; ring).
  entries. f_equal; field; intros E; apply H; rewrite <- E; ring.
Qed.

(** *** Inverting a projection whose only off-diagonal entries translate *)

Lemma invert_scale_translate a b c d e f :
  a <> 0 -> b <> 0 -> c <> 0 ->
  invert (mkMatrix4 a 0 0 0  0 b 0 0  0 0 c 0  d e f 1)
  = mkMatrix4 (1 / a) 0 0 0  0 (1 / b) 0 0  0 0 (1 / c) 0
              (- d / a) (- e / b) (- f / c) 1.
Proof.
  intros Ha Hb Hc. unfold invert. entries.
  rewrite eqb_false.
  - f_equal; field; auto.
  - intros H. ring_simplify in H.
    assert (a * b * c <> 0)
      by (repeat apply Rmult_integral_contrapositive_currified; auto).
    lra.
Qed.

Lemma length_axis_z c : length (mkVector3 0 0 c) = Rabs c.
Proof.
  unfold length. entries.
  replace (0 * 0 + 0 * 0 + c * c) with (c * c) by ring.
  apply sqrt_sq_abs.
Qed.

Lemma normalize_axis_z c :
  0 < c -> normalize (mkVector3 0 0 c) = mkVector3 0 0 1.
Proof.
  intros H. unfold normalize, divideScalar, multiplyScalar.
  rewrite length_axis_z, Rabs_right, or_one_nonzero by lra.
  entries. f_equal; field; lra.
Qed.

Lemma normalize_axis_z_neg c :
  c < 0 -> normalize (mkVector3 0 0 c) = mkVector3 0 0 (-1).
Proof.
  intros H. unfold normalize, divideScalar, multiplyScalar.
  rewrite length_axis_z, Rabs_left, or_one_nonzero by lra.
  entries. f_equal; field; lra.
Qed.

End THREEFacts.


(** ** The invariant of a reachable projector *)
Module FisheyeInvariant.
Import THREE CoreFisheye FisheyeHost THREEFacts.
Local Open Scope R_scope.

Lemma updateProjectionMatrix_idempotent c :
  updateProjectionMatrix (updateProjectionMatrix c) = updateProjectionMatrix c.
Proof. reflexivity. Qed.

(** *** A capture and the store *)

(** The renderer's draws touch neither the store nor the key counter. *)
Lemma renderFaces_store renderer target scene eye faces w :
  let w' := state (renderFaces renderer target scene eye faces w) in
  targets w' = targets w /\ allocated w' = allocated w.
Proof.
  revert w. induction faces as [|face rest IH]; intros w; cbn.
  - split; reflexivity.
  - destruct (throws renderer _); cbn; [split; reflexivity|].
    specialize (IH (issue (RenderFace target face scene eye) w)).
    cbn in IH. exact IH.
Qed.

(** A capture that throws has logged fewer faces than it was given. *)
Lemma renderFaces_thrown renderer target scene eye faces w w1 :
  renderFaces renderer target scene eye faces w = Throw w1 ->
  exists n, (n < List.length faces)%nat /\
    w1 = mkWorld (targets w) (allocated w)
           (commands w
            ++ map (fun face => RenderFace target face scene eye)
                   (take n faces)).
Proof.
  revert w. induction faces as [|face rest IH]; intros w; cbn.
  - discriminate.
  - destruct (throws renderer _).
    + intros H. injection H as <-. exists 0%nat. cbn.
      rewrite app_nil_r. split; [lia | now destruct w].
    + intros H. destruct (IH _ H) as (n & Hn & ->).
      exists (S n). cbn. rewrite <- app_assoc. split; [lia | reflexivity].
Qed.

Lemma renderFaces_returned renderer target scene eye faces w w1 :
  renderFaces renderer target scene eye faces w = Normal w1 ->
  w1 = mkWorld (targets w) (allocated w)
         (commands w
          ++ map (fun face => RenderFace target face scene eye) faces).
Proof.
  revert w. induction faces as [|face rest IH]; intros w; cbn.
  - intros H. injection H as <-. rewrite app_nil_r. now destruct w.
  - destruct (throws renderer _); [discriminate|].
    intros H. rewrite (IH _ H). cbn. now rewrite <- app_assoc.
Qed.

Lemma renderFaces_quiet renderer target scene eye faces w :
  (forall c, throws renderer c = false) ->
  renderFaces renderer target scene eye faces w
  = Normal (mkWorld (targets w) (allocated w)
              (commands w
               ++ map (fun face => RenderFace target face scene eye) faces)).
Proof.
  intros Hq. revert w. induction faces as [|face rest IH]; intros w; cbn.
  - rewrite app_nil_r. now destruct w.
  - rewrite Hq, IH. cbn. now rewrite <- app_assoc.
Qed.

(** Switching the mipmaps back to what they were undoes switching them
    off. *)
Lemma set_generateMipmaps_restore id w :
  alter (fun rt => mkWebGLCubeRenderTarget (width rt)
                     (get_generateMipmaps id w)
                     (isRenderTargetTexture rt) (disposed rt)) id
        (targets (set_generateMipmaps id false w))
  = targets w.
Proof.
  unfold set_generateMipmaps, get_generateMipmaps. cbn [targets].
  apply map_eq. intros k. destruct (decide (k = id)) as [->|Hne].
  - rewrite !lookup_alter_eq.
    destruct (targets w !! id) as [rt|]; [|reflexivity]. cbn. now destruct rt.
  - now rewrite !lookup_alter_ne by congruence.
Qed.

(** Switching off mipmaps that are off changes nothing. *)
Lemma set_generateMipmaps_off id w :
  get_generateMipmaps id w = false ->
  targets (set_generateMipmaps id false w) = targets w.
Proof.
  unfold set_generateMipmaps, get_generateMipmaps. cbn [targets]. intros H.
  apply map_eq. intros k. destruct (decide (k = id)) as [->|Hne].
  - rewrite lookup_alter_eq.
    destruct (targets w !! id) as [rt|]; [|reflexivity]. cbn.
    destruct rt. cbn in H. now subst.
  - now rewrite lookup_alter_ne by congruence.
Qed.

Lemma lookup_set_generateMipmaps id w k :
  targets (set_generateMipmaps id false w) !! k
  = if decide (k = id) then mipmapsOff <$> targets w !! k
    else targets w !! k.
Proof.
  unfold set_generateMipmaps. cbn [targets].
  destruct (decide (k = id)) as [->|Hne].
  - now rewrite lookup_alter_eq.
  - now rewrite lookup_alter_ne by congruence.
Qed.

(** What [cubeCamera.update] does: it refreshes the transform, draws a
    prefix of the six faces (all six when it returns), and leaves the
    store as it was unless it threw before the mipmaps were switched
    back, that is, within the first five faces. *)
Lemma cubeCameraUpdate_spec renderer c scene w :
  let r := cubeCameraUpdate renderer c scene w in
  let faces :=
    sixFaces (THREE.renderTarget c) scene (matrixWorld (refreshed c)) in
  fst (state r) = set_cubeObject3d c (refreshed c) /\
  allocated (snd (state r)) = allocated w /\
  exists n,
    commands (snd (state r)) = commands w ++ take n faces /\
    (returned r = true -> n = 6%nat) /\
    (returned r = false -> (n < 6)%nat) /\
    targets (snd (state r))
    = if (n <? 5)%nat
      then targets (set_generateMipmaps (THREE.renderTarget c) false w)
      else targets w.
Proof.
  cbn zeta. unfold cubeCameraUpdate.
  set (rt := THREE.renderTarget c). set (eye := matrixWorld (refreshed c)).
  destruct (renderFaces renderer rt scene eye [PX; NX; PY; NY; PZ]
              (set_generateMipmaps rt false w)) as [w2|w2] eqn:H1.
  - apply renderFaces_returned in H1.
    assert (Ht : targets
                   (set_generateMipmaps rt (get_generateMipmaps rt w) w2)
                 = targets w).
    { subst w2. unfold set_generateMipmaps at 1. cbn [targets].
      apply set_generateMipmaps_restore. }
    unfold renderFaces.
    destruct (throws renderer _); cbn [state fst snd returned].
    + split; [reflexivity|]. split; [now subst w2|].
      exists 5%nat. split; [now subst w2|].
      split; [discriminate|]. split; [lia|]. exact Ht.
    + split; [reflexivity|]. split; [now subst w2|].
      exists 6%nat. split.
      * subst w2. cbn. now rewrite <- app_assoc.
      * split; [reflexivity|]. split; [discriminate|]. exact Ht.
  - apply renderFaces_thrown in H1. destruct H1 as (n & Hn & ->).
    cbn [state fst snd returned List.length] in *.
    split; [reflexivity|]. split; [reflexivity|].
    exists n. split.
    + cbn [commands set_generateMipmaps]. f_equal. unfold sixFaces.
      rewrite <- firstn_map.
      destruct n as [|[|[|[|[|n]]]]]; try reflexivity; lia.
    + split; [discriminate|]. split; [lia|].
      replace (n <? 5)%nat with true by (symmetry; apply Nat.ltb_lt; lia).
      reflexivity.
Qed.

(** All a capture can do to the store is leave the mipmaps of its target
    switched off. *)
Lemma cubeCameraUpdate_store renderer c scene w :
  sameButMipmaps (THREE.renderTarget c) w
                 (snd (state (cubeCameraUpdate renderer c scene w))).
Proof.
  destruct (cubeCameraUpdate_spec renderer c scene w)
    as (_ & Ha & n & _ & _ & _ & Ht).
  split; [exact Ha|]. rewrite Ht.
  destruct (n <? 5)%nat.
  - split.
    + intros k Hk. rewrite lookup_set_generateMipmaps.
      now destruct (decide (k = THREE.renderTarget c)).
    + right. rewrite lookup_set_generateMipmaps.
      now destruct (decide (THREE.renderTarget c = THREE.renderTarget c)).
  - split; [reflexivity | now left].
Qed.

Lemma cubeCameraUpdate_camera renderer c scene w :
  fst (state (cubeCameraUpdate renderer c scene w))
  = set_cubeObject3d c (refreshed c).
Proof. apply cubeCameraUpdate_spec. Qed.

(** A capture that returns leaves the store as it was. *)
Lemma cubeCameraUpdate_returned renderer c scene w :
  returned (cubeCameraUpdate renderer c scene w) = true ->
  snd (state (cubeCameraUpdate renderer c scene w))
  = mkWorld (targets w) (allocated w)
      (commands w
       ++ sixFaces (THREE.renderTarget c) scene (matrixWorld (refreshed c))).
Proof.
  intros Hr.
  destruct (cubeCameraUpdate_spec renderer c scene w)
    as (_ & Ha & n & Hc & Hn & _ & Ht).
  rewrite (Hn Hr) in *. cbn [Nat.ltb Nat.leb] in Ht.
  destruct (snd (state (cubeCameraUpdate renderer c scene w))).
  cbn in *. now subst.
Qed.

Lemma cubeCameraUpdate_quiet renderer c scene w :
  (forall cmd, throws renderer cmd = false) ->
  returned (cubeCameraUpdate renderer c scene w) = true.
Proof.
  intros Hq. unfold cubeCameraUpdate.
  rewrite renderFaces_quiet by exact Hq.
  rewrite renderFaces_quiet by exact Hq. reflexivity.
Qed.

(** Whether a capture returns, and what it draws, does not depend on the
    store it starts from. *)
Lemma renderFaces_run renderer target scene eye faces :
  exists n, (n <= List.length faces)%nat /\
    forall w,
      renderFaces renderer target scene eye faces w
      = (if (n =? List.length faces)%nat then Normal else Throw)
          (mkWorld (targets w) (allocated w)
             (commands w
              ++ take n (map (fun face => RenderFace target face scene eye)
                             faces))).
Proof.
  induction faces as [|face rest (n & Hn & IH)].
  - exists 0%nat. split; [reflexivity|]. intros w. cbn.
    rewrite app_nil_r. now destruct w.
  - cbn [renderFaces List.length map].
    destruct (throws renderer (RenderFace target face scene eye)).
    + exists 0%nat. split; [lia|]. intros w. cbn.
      rewrite app_nil_r. now destruct w.
    + exists (S n). split; [lia|]. intros w. rewrite IH.
      cbn [Nat.eqb issue targets allocated commands take].
      now rewrite <- app_assoc.
Qed.

Lemma cubeCameraUpdate_run renderer c scene :
  exists n, (n <= 6)%nat /\
    forall w,
      cubeCameraUpdate renderer c scene w
      = (if (n =? 6)%nat then Normal else Throw)
          (set_cubeObject3d c (refreshed c),
           mkWorld
             (if (n <? 5)%nat
              then targets (set_generateMipmaps (THREE.renderTarget c)
                                                false w)
              else targets w)
             (allocated w)
             (commands w
              ++ take n (sixFaces (THREE.renderTarget c) scene
                                  (matrixWorld (refreshed c))))).
Proof.
  set (rt := THREE.renderTarget c). set (eye := matrixWorld (refreshed c)).
  destruct (renderFaces_run renderer rt scene eye [PX; NX; PY; NY; PZ])
    as (n1 & Hn1 & H1).
  destruct (renderFaces_run renderer rt scene eye [NZ]) as (n2 & Hn2 & H2).
  cbn [List.length] in Hn1, Hn2, H1, H2.
  destruct (Nat.eq_dec n1 5%nat) as [->|Hne].
  - exists (5 + n2)%nat. split; [lia|]. intros w.
    unfold cubeCameraUpdate. fold rt eye. rewrite H1. cbn [Nat.eqb].
    rewrite H2.
    assert (Ht : forall l,
              targets (set_generateMipmaps rt (get_generateMipmaps rt w)
                         (mkWorld (targets (set_generateMipmaps rt false w))
                                  (allocated (set_generateMipmaps rt false w))
                                  l))
              = targets w).
    { intros l. unfold set_generateMipmaps at 1. cbn [targets].
      apply set_generateMipmaps_restore. }
    destruct n2 as [|[|n2]]; [| |lia];
      cbn -[set_generateMipmaps get_generateMipmaps];
      rewrite Ht; cbn; now rewrite <- ?app_assoc.
  - exists n1. split; [lia|]. intros w.
    unfold cubeCameraUpdate. fold rt eye. rewrite H1.
    destruct n1 as [|[|[|[|[|n1]]]]]; try reflexivity; lia.
Qed.

(** What [sameButMipmaps] keeps. *)
Lemma sameButMipmaps_wellFormed id w w' :
  sameButMipmaps id w w' -> wellFormed w -> wellFormed w'.
Proof.
  intros (Ha & Hk & Hid) Hwf k Hle. rewrite Ha in Hle.
  destruct (decide (k = id)) as [->|Hne].
  - destruct Hid as [-> | ->]; [now apply Hwf|].
    now rewrite (Hwf _ Hle).
  - rewrite Hk by exact Hne. now apply Hwf.
Qed.

Lemma sameButMipmaps_live id w w' :
  sameButMipmaps id w w' ->
  (exists rt, targets w !! id = Some rt /\ disposed rt = false) ->
  exists rt, targets w' !! id = Some rt /\ disposed rt = false.
Proof.
  intros (_ & _ & Hid) (rt & Hrt & Hd).
  destruct Hid as [-> | ->].
  - now exists rt.
  - rewrite Hrt. exists (mipmapsOff rt). split; [reflexivity | exact Hd].
Qed.

Lemma sameButMipmaps_refl id w : sameButMipmaps id w w.
Proof. split; [reflexivity|]. split; [reflexivity | now left]. Qed.

(** *** The invariant *)

Lemma radius_positive width height z :
  0 < width -> 0 < height -> 0 <= z <= 1 ->
  0 < sqrt (width * width + height * height) / 100 * (0.5 + z / 2).
Proof.
  intros Hw Hh Hz.
  assert (0 < sqrt (width * width + height * height))
    by (apply sqrt_lt_R0; nra).
  apply Rmult_lt_0_compat; lra.
Qed.

Lemma onResize_establishes this w width height :
  0 < width -> 0 < height -> 0 <= zoom this <= 1 ->
  quaternion (object3d (orthoCamera this)) = identityQuaternion ->
  scale (object3d (orthoCamera this)) = mkVector3 1 1 1 ->
  near (orthoCamera this) = 0.1 ->
  far (orthoCamera this) = 2000 ->
  e (temp this) = mkEuler 0 Math.PI 0 ->
  center (sphere (temp this)) = mkVector3 0 0 0 ->
  quaternion (meshObject3d (sphereMesh this)) = identityQuaternion ->
  scale (cubeObject3d (cubeCamera this)) = mkVector3 1 1 1 ->
  parent (cubeCamera this) = NoParent ->
  sameTexture this ->
  (exists rt, targets w !! renderTarget this = Some rt /\
              disposed rt = false) ->
  wellFormed w ->
  matrixWorld (object3d (orthoCamera this)) = identity \/
  matrixWorld (object3d (orthoCamera this)) = orthoWorld ->
  invariant (onResize width height this) w.
Proof.
  intros Hw Hh Hz Hq Hs Hn Hf He Hc Hmq Hcs Hcp Hst Hl Hwf Hmw.
  constructor; cbn; try assumption; try reflexivity; try lra.
  apply radius_positive; assumption.
Qed.

Lemma invariant_onResize this w width height :
  invariant this w -> 0 < width -> 0 < height ->
  invariant (onResize width height this) w.
Proof.
  intros [] Hw Hh. apply onResize_establishes; assumption.
Qed.

(** Allocation: the new key is fresh, the store stays well formed. *)
Lemma createRenderTarget_spec res w :
  wellFormed w ->
  let rt := fst (createRenderTarget res w) in
  let w' := snd (createRenderTarget res w) in
  rt = allocated w /\
  targets w' !! rt = Some (mkWebGLCubeRenderTarget res true false false) /\
  (forall k, k <> rt -> targets w' !! k = targets w !! k) /\
  commands w' = commands w ++ [CreateTarget rt res] /\
  wellFormed w'.
Proof.
  intros Hwf. unfold createRenderTarget, newWebGLCubeRenderTarget,
    set_isRenderTargetTexture. cbn [fst snd targets allocated commands].
  split; [reflexivity|]. split; [|split; [|split; [reflexivity|]]].
  - rewrite lookup_alter_eq, lookup_insert_eq. reflexivity.
  - intros k Hk. rewrite lookup_alter_ne, lookup_insert_ne by congruence.
    reflexivity.
  - intros k Hk. cbn [allocated targets] in *.
    rewrite lookup_alter_ne, lookup_insert_ne by lia.
    apply Hwf. lia.
Qed.

Lemma invariant_constructor props w :
  validProps props -> wellFormed w ->
  invariant (fst (constructor props w)) (snd (constructor props w)).
Proof.
  intros Hp Hwf. unfold constructor.
  pose proof (createRenderTarget_spec
                (default 896%Z (props_resolution props)) w Hwf) as H.
  destruct (createRenderTarget _ w) as [rt w1]. cbn in H.
  destruct H as (Hrt & Hnew & _ & _ & Hwf1). cbn [fst snd].
  apply onResize_establishes; cbn; try reflexivity; try lra; try assumption.
  - unfold validProps in Hp. destruct (props_zoom props); cbn; lra.
  - split; reflexivity.
  - eexists. split; [exact Hnew | reflexivity].
  - now left.
Qed.

Lemma invariant_updateResolution this w res :
  invariant this w ->
  invariant (fst (updateResolution res this w))
            (snd (updateResolution res this w)).
Proof.
  intros Hinv. unfold updateResolution.
  destruct (targets w !! renderTarget this) as [current|] eqn:Hcur;
    [|exact Hinv].
  destruct (res =? width current)%Z; [exact Hinv|].
  assert (Hwf1 : wellFormed (dispose (renderTarget this) w)).
  { intros k Hk. cbn in *. destruct Hinv.
    destruct (decide (k = renderTarget this)) as [->|Hne].
    - rewrite lookup_alter_eq, inv_world0 by exact Hk. reflexivity.
    - rewrite lookup_alter_ne by congruence. now apply inv_world0. }
  pose proof (createRenderTarget_spec res _ Hwf1) as H.
  destruct (createRenderTarget res _) as [rt w2]. cbn in H.
  destruct H as (Hrt & Hnew & _ & _ & Hwf2). cbn [fst snd].
  destruct Hinv. constructor; cbn; try assumption.
  - split; reflexivity.
  - eexists. split; [exact Hnew | reflexivity].
Qed.

Lemma updateProjectionMatrix_set_object3d c o :
  updateProjectionMatrix c = c ->
  updateProjectionMatrix (set_object3d c o) = set_object3d c o.
Proof.
  intros H.
  assert (Hp : projectionMatrix (updateProjectionMatrix c)
               = projectionMatrix c) by now rewrite H.
  assert (Hi : projectionMatrixInverse (updateProjectionMatrix c)
               = projectionMatrixInverse c) by now rewrite H.
  unfold updateProjectionMatrix, set_object3d in *. cbn in *.
  now rewrite Hi, Hp.
Qed.

(** A capture camera with no parent, once refreshed. *)
Lemma refreshed_NoParent c :
  parent c = NoParent -> refreshed c = updateMatrixWorld (cubeObject3d c).
Proof. unfold refreshed. now intros ->. Qed.

Lemma invariant_render this w renderer scene camera :
  invariant this w ->
  invariant (fst (state (render renderer scene camera this w)))
            (snd (state (render renderer scene camera this w))).
Proof.
  intros Hinv. unfold render.
  destruct (decompose (matrixWorld camera)) as [[t1 r1] s1].
  set (cube2 := set_cubeObject3d _ _).
  pose proof (cubeCameraUpdate_store renderer cube2 scene w) as Hs.
  pose proof (cubeCameraUpdate_camera renderer cube2 scene w) as Hc.
  destruct Hinv as [? ? ? ? ? ? ? ? ? ? ? ? ? ? ? ? ? ? Hcp [Hrt ?] Hlive Hw ?].
  change (THREE.renderTarget cube2)
    with (THREE.renderTarget (cubeCamera this)) in Hs.
  rewrite Hrt in Hs.
  rewrite refreshed_NoParent in Hc by exact Hcp.
  assert (Hfin : forall mesh ortho w1,
    quaternion (meshObject3d mesh)
      = quaternion (meshObject3d (sphereMesh this)) ->
    scale (meshObject3d mesh) = scale (meshObject3d (sphereMesh this)) ->
    material mesh = material (sphereMesh this) ->
    (exists o, ortho = set_object3d (orthoCamera this) o /\
               position o = position (object3d (orthoCamera this)) /\
               quaternion o = quaternion (object3d (orthoCamera this)) /\
               scale o = scale (object3d (orthoCamera this)) /\
               (matrixWorld o = identity \/ matrixWorld o = orthoWorld)) ->
    sameButMipmaps (renderTarget this) w w1 ->
    invariant
      (mkFisheye (resolution this) (segments this) (zoom this)
         (renderTarget this) mesh ortho
         (set_cubeObject3d cube2 (updateMatrixWorld (cubeObject3d cube2)))
         (mkTemp t1 r1 s1 (e (temp this)) (sphere (temp this))
                 (normal (temp this)) (normalMatrix (temp this))))
      w1).
  { intros mesh ortho w1 Hmq Hms Hmm (o & -> & Hop & Hoq & Hos & Hom) Hsame.
    constructor; cbn; rewrite ?Hcp, ?Hmq, ?Hms, ?Hmm, ?Hop, ?Hoq, ?Hos; cbn;
      try assumption; try reflexivity.
    - now apply updateProjectionMatrix_set_object3d.
    - split; cbn; rewrite ?Hmm; assumption.
    - exact (sameButMipmaps_live _ _ _ Hsame Hlive).
    - exact (sameButMipmaps_wellFormed _ _ _ Hsame Hw). }
  assert (Hsame : exists o,
    orthoCamera this = set_object3d (orthoCamera this) o /\
    position o = position (object3d (orthoCamera this)) /\
    quaternion o = quaternion (object3d (orthoCamera this)) /\
    scale o = scale (object3d (orthoCamera this)) /\
    (matrixWorld o = identity \/ matrixWorld o = orthoWorld)).
  { exists (object3d (orthoCamera this)).
    destruct (orthoCamera this); repeat split; try reflexivity.
    assumption. }
  assert (Hdrawn : matrixWorld (updateMatrixWorld
                                  (object3d (orthoCamera this)))
                   = orthoWorld).
  { cbn. unfold orthoWorld. congruence. }
  destruct (cubeCameraUpdate renderer cube2 scene w) as [[c3 w1]|[c3 w1]];
    cbn [state fst snd] in Hs, Hc; subst c3.
  - unfold rendererRender.
    destruct (throws renderer _); cbn [state fst snd];
      (apply Hfin; try reflexivity; try assumption;
       eexists; split; [reflexivity|]; repeat split; try reflexivity;
       right; exact Hdrawn).
  - cbn [state fst snd]. apply Hfin; try reflexivity; assumption.
Qed.

Lemma invariant_pick this w raycaster pointer :
  invariant this w ->
  invariant (fst (computeRaycastRayDirection raycaster pointer this)) w.
Proof.
  intros Hinv. unfold computeRaycastRayDirection.
  destruct (intersectSphere _ _); [|exact Hinv].
  cbn. destruct Hinv. constructor; cbn; assumption.
Qed.

Lemma invariant_step st st' :
  step st st' -> invariant (fst st) (snd st) -> invariant (fst st') (snd st').
Proof.
  intros Hstep. destruct Hstep; cbn [fst snd]; intros Hinv.
  - destruct Hinv. constructor; cbn; assumption.
  - destruct Hinv. constructor; cbn; assumption.
  - now apply invariant_onResize.
  - now apply invariant_updateResolution.
  - now apply invariant_render.
  - now apply invariant_pick.
Qed.

(** Every reachable projector satisfies the invariant. *)
Lemma reachable_invariant st :
  reachable st -> invariant (fst st) (snd st).
Proof.
  induction 1 as [props w Hp Hwf | st st' _ IH Hstep].
  - now apply invariant_constructor.
  - exact (invariant_step _ _ Hstep IH).
Qed.

End FisheyeInvariant.


(** ** The geometry of a pick *)
Module PickFacts.
Import THREE CoreFisheye FisheyeHost THREEFacts.
Local Open Scope R_scope.

Lemma scaled_inverse_nonzero k x : k <> 0 -> 0 < x -> k * (1 / x) <> 0.
Proof.
  intros Hk Hx. apply Rmult_integral_contrapositive_currified; [exact Hk|].
  apply Rgt_not_eq, Rdiv_lt_0_compat; lra.
Qed.

(** The inverse projection of a camera whose frustum [onResize] set. *)
Lemma projectionMatrixInverse_onResize c :
  THREE.zoom c = 100 -> near c = 0.1 -> far c = 2000 ->
  left c = - right c -> bottom c = - top c ->
  0 < right c -> 0 < top c ->
  projectionMatrixInverse (updateProjectionMatrix c)
  = mkMatrix4 (right c / 100) 0 0 0
              0 (top c / 100) 0 0
              0 0 (- (far c - near c) / 2) 0
              0 0 (- (far c + near c) / 2) 1.
Proof.
  intros Hz Hn Hf Hl Hb Hr Ht.
  unfold updateProjectionMatrix, makeOrthographic.
  cbn [projectionMatrixInverse].
  rewrite Hz, Hl, Hb, Hn, Hf. decimals.
  rewrite invert_scale_translate
    by (apply scaled_inverse_nonzero; lra).
  f_equal; field; lra.
Qed.

(** The ray [setFromCamera] builds through the pointer [(x, y)]: it
    starts at the pointer, at the depth the camera's world matrix stands
    at, and runs down -Z. *)
Lemma setFromCamera_ray_any this w raycaster x y :
  invariant this w ->
  ray (setFromCamera raycaster (mkVector2 x y) (orthoCamera this))
  = mkRay (mkVector3 (x * right (orthoCamera this) / 100)
                     (y * top (orthoCamera this) / 100)
                     (e14 (matrixWorld (object3d (orthoCamera this)))))
          (mkVector3 0 0 (-1)).
Proof.
  intros Hinv. destruct Hinv.
  assert (E : projectionMatrixInverse (orthoCamera this)
              = projectionMatrixInverse
                  (updateProjectionMatrix (orthoCamera this)))
    by now rewrite inv_ortho_projection0.
  rewrite projectionMatrixInverse_onResize in E by assumption.
  unfold setFromCamera, unproject. cbn [ray].
  rewrite E, inv_ortho_near0, inv_ortho_far0.
  destruct inv_ortho_world0 as [-> | ->];
    unfold orthoWorld, compose, identity, identityQuaternion, applyMatrix4,
      transformDirection;
    entries; decimals; (f_equal;
      [ f_equal; field
      | rewrite <- (normalize_axis_z_neg (-1)) by lra;
        f_equal; f_equal; ring ]).
Qed.

(** Once a draw has placed the camera, that depth is [100]. *)
Lemma setFromCamera_ray this w raycaster x y :
  invariant this w ->
  matrixWorld (object3d (orthoCamera this)) = orthoWorld ->
  ray (setFromCamera raycaster (mkVector2 x y) (orthoCamera this))
  = mkRay (mkVector3 (x * right (orthoCamera this) / 100)
                     (y * top (orthoCamera this) / 100) 100)
          (mkVector3 0 0 (-1)).
Proof.
  intros Hinv Hm. rewrite (setFromCamera_ray_any _ w) by exact Hinv.
  rewrite Hm. reflexivity.
Qed.

(** The depth is [0] before the first draw and [100] after. *)
Lemma ortho_depth this w :
  invariant this w ->
  e14 (matrixWorld (object3d (orthoCamera this))) = 0 \/
  e14 (matrixWorld (object3d (orthoCamera this))) = 100.
Proof.
  intros Hinv. destruct (inv_ortho_world _ _ Hinv) as [-> | ->];
    [left | right]; reflexivity.
Qed.

(** Through the centre of the viewport the ray meets the sphere on the
    axis; the normal there is the axis, one way or the other. *)
Lemma intersectSphere_axis depth rad :
  0 < rad -> 0 <= depth ->
  exists hit,
    intersectSphere (mkRay (mkVector3 0 0 depth) (mkVector3 0 0 (-1)))
                    (mkSphere (mkVector3 0 0 0) rad) = Some hit /\
    (normalize hit = mkVector3 0 0 1 \/ normalize hit = mkVector3 0 0 (-1)).
Proof.
  intros Hr Hd. unfold intersectSphere, subVectors, sub, dot, at_. entries.
  replace ((0 - 0) * (0 - 0) + (0 - 0) * (0 - 0) + (0 - depth) * (0 - depth)
           - ((0 - 0) * 0 + (0 - 0) * 0 + (0 - depth) * -1)
             * ((0 - 0) * 0 + (0 - 0) * 0 + (0 - depth) * -1))
    with 0 by ring.
  replace ((0 - 0) * 0 + (0 - 0) * 0 + (0 - depth) * -1) with depth by ring.
  rewrite gtb_false by nra.
  replace (rad * rad - 0) with (rad * rad) by ring.
  rewrite sqrt_square by lra.
  rewrite ltb_false by lra.
  destruct (Rlt_dec (depth - rad) 0) as [L|L].
  - rewrite ltb_true by exact L. eexists. split; [reflexivity|]. right.
    replace (mkVector3 (0 + 0 * (depth + rad)) (0 + 0 * (depth + rad))
                       (depth + -1 * (depth + rad)))
      with (mkVector3 0 0 (- rad)) by (f_equal; ring).
    apply normalize_axis_z_neg. lra.
  - rewrite ltb_false by exact L. eexists. split; [reflexivity|]. left.
    replace (mkVector3 (0 + 0 * (depth - rad)) (0 + 0 * (depth - rad))
                       (depth + -1 * (depth - rad)))
      with (mkVector3 0 0 rad) by (f_equal; ring).
    apply normalize_axis_z. lra.
Qed.





End PickFacts.


(** ** What a frame of the projector does *)
Module RenderFacts.
Import THREE CoreFisheye FisheyeHost THREEFacts FisheyeInvariant PickFacts.
Local Open Scope R_scope.

(** The projector as [render] leaves it, whatever the renderer did. *)
Lemma render_state this w renderer scene camera :
  parent (cubeCamera this) = NoParent ->
  let st := state (render renderer scene camera this w) in
  let t1 := fst (fst (decompose (matrixWorld camera))) in
  let r1 := snd (fst (decompose (matrixWorld camera))) in
  let o := set_quaternion (set_position (cubeObject3d (cubeCamera this)) t1)
             (premultiply (setFromEuler (e (temp this))) r1) in
  cubeCamera (fst st)
    = set_cubeObject3d (cubeCamera this) (updateMatrixWorld o) /\
  e (temp (fst st)) = e (temp this) /\
  sphere (temp (fst st)) = sphere (temp this) /\
  (returned (render renderer scene camera this w) = true ->
   orthoCamera (fst st)
     = set_object3d (orthoCamera this)
         (updateMatrixWorld (object3d (orthoCamera this))) /\
   sphereMesh (fst st)
     = mkMesh (updateMatrixWorld (meshObject3d (sphereMesh this)))
              (geometry (sphereMesh this)) (material (sphereMesh this))).
Proof.
  intros Hp. unfold render.
  destruct (decompose (matrixWorld camera)) as [[t1 r1] s1]. cbn [fst snd].
  set (cube2 := set_cubeObject3d _ _).
  pose proof (cubeCameraUpdate_camera renderer cube2 scene w) as Hc.
  rewrite refreshed_NoParent in Hc by exact Hp.
  destruct (cubeCameraUpdate renderer cube2 scene w) as [[c3 w1]|[c3 w1]];
    cbn [state fst snd] in Hc; subst c3.
  - unfold rendererRender. destruct (throws renderer _); cbn;
      repeat split; try reflexivity; discriminate.
  - cbn. repeat split; try reflexivity; discriminate.
Qed.

(** The commands [render] adds: the six faces, then the mesh; fewer when
    the renderer throws, and then never the mesh without the faces. *)
Lemma render_commands this w renderer scene camera :
  parent (cubeCamera this) = NoParent ->
  let c := render renderer scene camera this w in
  let eye := matrixWorld (cubeObject3d (cubeCamera (fst (state c)))) in
  let faces := sixFaces (THREE.renderTarget (cubeCamera this)) scene eye in
  let mesh :=
    RenderMesh (envMap (material (sphereMesh this)))
      (matrixWorld (updateMatrixWorld (meshObject3d (sphereMesh this))))
      (invert (matrixWorld (updateMatrixWorld
                              (object3d (orthoCamera this)))))
      (projectionMatrix (orthoCamera this)) in
  if returned c
  then commands (snd (state c)) = commands w ++ faces ++ [mesh]
  else exists n, (n <= 6)%nat /\
                 commands (snd (state c)) = commands w ++ take n faces.
Proof.
  intros Hp. cbn zeta.
  pose proof (render_state this w renderer scene camera Hp) as Hst.
  cbn zeta in Hst. destruct Hst as (Hcube & _).
  rewrite Hcube. clear Hcube.
  unfold render.
  destruct (decompose (matrixWorld camera)) as [[t1 r1] s1]. cbn [fst snd].
  set (cube2 := set_cubeObject3d _ _).
  destruct (cubeCameraUpdate_spec renderer cube2 scene w)
    as (_ & _ & n & Hc & Hn & Hlt & _).
  rewrite refreshed_NoParent in Hc by exact Hp.
  destruct (cubeCameraUpdate renderer cube2 scene w) as [[c3 w1]|[c3 w1]];
    cbn [state fst snd returned] in *.
  - rewrite (Hn eq_refl) in Hc.
    unfold rendererRender. destruct (throws renderer _); cbn.
    + exists 6%nat. split; [lia | exact Hc].
    + rewrite Hc, <- app_assoc. reflexivity.
  - exists n. split; [specialize (Hlt eq_refl); lia | exact Hc].
Qed.

(** Whether a frame returns, the projector it leaves and the draws it
    adds do not depend on the store it starts from; the store it leaves
    differs from that one by the mipmaps of the render target alone, off
    when fewer than five draws were added. *)
Lemma render_run this renderer scene camera :
  exists (ok : bool) (this1 : Fisheye) (added : list Command),
    (ok = true -> (5 <= List.length added)%nat) /\
    forall w,
      render renderer scene camera this w
      = (if ok then Normal else Throw)
          (this1,
           mkWorld
             (if (List.length added <? 5)%nat
              then targets (set_generateMipmaps
                              (THREE.renderTarget (cubeCamera this)) false w)
              else targets w)
             (allocated w) (commands w ++ added)).
Proof.
  unfold render. destruct (decompose (matrixWorld camera)) as [[t1 r1] s1].
  set (cube2 := set_cubeObject3d _ _).
  destruct (cubeCameraUpdate_run renderer cube2 scene) as (n & Hn & Hrun).
  change (THREE.renderTarget cube2)
    with (THREE.renderTarget (cubeCamera this)) in Hrun.
  set (faces := sixFaces _ _ _) in Hrun.
  assert (Hlen : List.length (take n faces) = n).
  { rewrite length_take. subst faces. unfold sixFaces.
    rewrite length_map. cbn. lia. }
  destruct (Nat.eq_dec n 6%nat) as [->|Hne].
  - unfold rendererRender. cbn zeta.
    destruct (throws renderer _) eqn:Hthrow.
    + eexists false, _, (take 6 faces). split; [discriminate|]. intros w.
      rewrite Hrun, Hlen. reflexivity.
    + eexists true, _, (take 6 faces ++ [_]).
      split; [rewrite length_app, Hlen; cbn; lia|]. intros w.
      rewrite Hrun, length_app, Hlen. cbn -[faces take issue].
      unfold issue. cbn [targets allocated commands].
      now rewrite <- app_assoc.
  - eexists false, _, (take n faces). split; [discriminate|]. intros w.
    rewrite Hrun, Hlen.
    replace (n =? 6)%nat with false by (symmetry; apply Nat.eqb_neq; lia).
    reflexivity.
Qed.

(** What a frame does to the store: at most, it leaves the mipmaps of
    the projector's render target switched off. *)
Lemma render_store this w renderer scene camera :
  sameButMipmaps (THREE.renderTarget (cubeCamera this)) w
                 (snd (state (render renderer scene camera this w))).
Proof.
  unfold render. destruct (decompose (matrixWorld camera)) as [[t1 r1] s1].
  set (cube2 := set_cubeObject3d _ _).
  pose proof (cubeCameraUpdate_store renderer cube2 scene w) as Hs.
  destruct (cubeCameraUpdate renderer cube2 scene w) as [[c3 w1]|[c3 w1]];
    cbn [state fst snd] in Hs; [|exact Hs].
  unfold rendererRender. destruct (throws renderer _); exact Hs.
Qed.

End RenderFacts.


(** ** The pose a frame gives the capture camera, and the pick on the
    axis *)
Module PickGeometry.
Import THREE CoreFisheye FisheyeHost THREEFacts FisheyeInvariant PickFacts
  RenderFacts.
Local Open Scope R_scope.

(** The projector after a frame seen from a posed camera: the capture
    camera stands where the camera stands, turned as the camera after the
    yaw; the sphere is as before and, when the frame returned, the
    orthographic camera is in place. *)
Lemma render_posed this w renderer scene camera p q s :
  invariant this w ->
  posed camera p q s ->
  let c := render renderer scene camera this w in
  let this1 := fst (state c) in
  invariant this1 (snd (state c)) /\
  matrixWorld (cubeObject3d (cubeCamera this1))
  = compose p (multiplyQuaternions q yaw) (mkVector3 1 1 1) /\
  snd (getWorldPosition (cubeObject3d (cubeCamera this1))) = p /\
  position (cubeObject3d (cubeCamera this1)) = p /\
  (quaternion (cubeObject3d (cubeCamera this1)) = multiplyQuaternions q yaw \/
   quaternion (cubeObject3d (cubeCamera this1))
   = multiplyQuaternions (antipode q) yaw) /\
  sphere (temp this1) = sphere (temp this) /\
  (returned c = true ->
   matrixWorld (object3d (orthoCamera this1)) = orthoWorld /\
   right (orthoCamera this1) = right (orthoCamera this) /\
   top (orthoCamera this1) = top (orthoCamera this)).
Proof.
  intros Hinv (Hm & Hu & Hsx & Hsy & Hsz) c this1.
  pose proof (invariant_render this w renderer scene camera Hinv) as Hinv1.
  pose proof (render_state this w renderer scene camera
                (inv_cube_parent _ _ Hinv)) as Hst.
  cbn zeta in Hst. fold c in Hst, Hinv1. fold this1 in Hst, Hinv1.
  destruct Hst as (Hcube & _ & Hsph & Hort).
  destruct (decompose_compose p q s Hu Hsx Hsy Hsz) as (q' & Hq' & Hdec).
  rewrite Hm, Hdec in Hcube. cbn [fst snd] in Hcube.
  rewrite (inv_e _ _ Hinv) in Hcube. fold yaw in Hcube.
  assert (Hcol : compose p (multiplyQuaternions q' yaw) (mkVector3 1 1 1)
                 = compose p (multiplyQuaternions q yaw) (mkVector3 1 1 1)).
  { destruct Hq' as [-> | ->]; [reflexivity|].
    now rewrite multiplyQuaternions_antipode_l, compose_antipode. }
  split; [exact Hinv1|].
  split; [|split; [|split; [|split; [|split; [exact Hsph|]]]]].
  - rewrite Hcube. cbn. now rewrite (inv_cube_scale _ _ Hinv).
  - rewrite Hcube. cbn. unfold setFromMatrixPosition, compose. entries.
    now destruct p.
  - rewrite Hcube. reflexivity.
  - rewrite Hcube. cbn. destruct Hq' as [-> | ->]; [now left | now right].
  - intros Hret. destruct (Hort Hret) as (Hortho & _).
    rewrite Hortho. cbn. unfold orthoWorld.
    now rewrite (inv_ortho_position _ _ Hinv),
      (inv_ortho_quaternion _ _ Hinv), (inv_ortho_scale _ _ Hinv).
Qed.




(** The ray through the centre of the viewport meets the sphere, before
    the first frame and after; the normal there is the axis. *)
Lemma centre_hit this w raycaster :
  invariant this w ->
  exists hit,
    intersectSphere
      (ray (setFromCamera raycaster (mkVector2 0 0) (orthoCamera this)))
      (sphere (temp this)) = Some hit /\
    (normalize hit = mkVector3 0 0 1 \/ normalize hit = mkVector3 0 0 (-1)).
Proof.
  intros Hinv.
  rewrite (setFromCamera_ray_any _ _ raycaster 0 0 Hinv).
  replace (0 * right (orthoCamera this) / 100) with 0 by lra.
  replace (0 * top (orthoCamera this) / 100) with 0 by lra.
  assert (Hs : sphere (temp this)
               = mkSphere (mkVector3 0 0 0) (radius (sphere (temp this)))).
  { rewrite <- (inv_center _ _ Hinv). now destruct (sphere (temp this)). }
  rewrite Hs.
  apply intersectSphere_axis; [exact (inv_radius _ _ Hinv)|].
  destruct (ortho_depth _ _ Hinv) as [-> | ->]; lra.
Qed.


Lemma setFromMatrixPosition_compose p q s :
  setFromMatrixPosition (compose p q s) = p.
Proof. unfold setFromMatrixPosition, compose. entries. now destruct p. Qed.

(** Whatever pose the capture camera has, a pick that hits starts at the
    capture camera's world position. *)
Lemma hit_origin this raycaster pointer hit :
  intersectSphere
    (ray (setFromCamera raycaster pointer (orthoCamera this)))
    (sphere (temp this)) = Some hit ->
  origin (ray (snd (computeRaycastRayDirection raycaster pointer this)))
  = snd (getWorldPosition (cubeObject3d (cubeCamera this))).
Proof.
  intros Hhit. unfold computeRaycastRayDirection. rewrite Hhit.
  destruct (getWorldPosition (cubeObject3d (cubeCamera this))) as [o pos].
  reflexivity.
Qed.

End PickGeometry.


(** ** What a frame reads, keeps and leaves in the store *)
Module FrameFacts.
Import THREE CoreFisheye FisheyeHost THREEFacts FisheyeInvariant RenderFacts.
Local Open Scope R_scope.


(** What a frame keeps of the projector, whatever the renderer did. *)
Lemma render_keeps this renderer scene camera w :
  parent (cubeCamera this) = NoParent ->
  let this' := fst (state (render renderer scene camera this w)) in
  (resolution this' = resolution this /\
   segments this' = segments this /\
   zoom this' = zoom this /\
   renderTarget this' = renderTarget this) /\
  (e (temp this') = e (temp this) /\
   sphere (temp this') = sphere (temp this) /\
   normal (temp this') = normal (temp this) /\
   normalMatrix (temp this') = normalMatrix (temp this)) /\
  (geometry (sphereMesh this') = geometry (sphereMesh this) /\
   material (sphereMesh this') = material (sphereMesh this) /\
   position (meshObject3d (sphereMesh this'))
   = position (meshObject3d (sphereMesh this)) /\
   quaternion (meshObject3d (sphereMesh this'))
   = quaternion (meshObject3d (sphereMesh this)) /\
   scale (meshObject3d (sphereMesh this'))
   = scale (meshObject3d (sphereMesh this))) /\
  (set_object3d (orthoCamera this') (object3d (orthoCamera this))
   = orthoCamera this /\
   position (object3d (orthoCamera this'))
   = position (object3d (orthoCamera this)) /\
   quaternion (object3d (orthoCamera this'))
   = quaternion (object3d (orthoCamera this)) /\
   scale (object3d (orthoCamera this'))
   = scale (object3d (orthoCamera this))) /\
  (set_cubeObject3d (cubeCamera this') (cubeObject3d (cubeCamera this))
   = cubeCamera this /\
   scale (cubeObject3d (cubeCamera this'))
   = scale (cubeObject3d (cubeCamera this))).
Proof.
  intros Hp. unfold render.
  destruct (decompose (matrixWorld camera)) as [[t1 r1] s1].
  set (cube2 := set_cubeObject3d _ _).
  pose proof (cubeCameraUpdate_camera renderer cube2 scene w) as Hc.
  rewrite refreshed_NoParent in Hc by exact Hp.
  destruct (cubeCameraUpdate renderer cube2 scene w) as [[c3 w1]|[c3 w1]];
    cbn [state fst snd] in Hc; subst c3 cube2.
  - unfold rendererRender.
    destruct (throws renderer _); cbn;
      destruct (orthoCamera this), (cubeCamera this); cbn in *;
      repeat split.
  - cbn. destruct (orthoCamera this), (cubeCamera this); cbn in *;
      repeat split.
Qed.

(** What a pick keeps of the projector. *)
Lemma pick_keeps this raycaster pointer :
  let this' := fst (computeRaycastRayDirection raycaster pointer this) in
  zoom this' = zoom this /\
  resolution this' = resolution this /\
  renderTarget this' = renderTarget this /\
  sphere (temp this') = sphere (temp this) /\
  sphereMesh this' = sphereMesh this /\
  orthoCamera this' = orthoCamera this.
Proof.
  unfold computeRaycastRayDirection.
  destruct (intersectSphere _ _); repeat split.
Qed.

(** What a step of the host does to the store: at most the mipmaps of
    the current render target are left off, or the current render target
    is replaced, once. *)
Lemma step_targets st st' :
  step st st' -> invariant (fst st) (snd st) ->
  (renderTarget (fst st') = renderTarget (fst st) /\
   sameButMipmaps (renderTarget (fst st)) (snd st) (snd st')) \/
  (exists res current,
     targets (snd st) !! renderTarget (fst st) = Some current /\
     renderTarget (fst st') = allocated (snd st) /\
     allocated (snd st') = S (allocated (snd st)) /\
     targets (snd st') !! allocated (snd st)
     = Some (mkWebGLCubeRenderTarget res true false false) /\
     targets (snd st') !! renderTarget (fst st)
     = Some (mkWebGLCubeRenderTarget (width current)
               (generateMipmaps current) (isRenderTargetTexture current)
               true) /\
     forall k, k <> allocated (snd st) -> k <> renderTarget (fst st) ->
               targets (snd st') !! k = targets (snd st) !! k).
Proof.
  intros Hstep.
  destruct Hstep as [this w v Hv | this w v | this w width height Hw Hh
                    | this w res | this w renderer scene cam
                    | this w raycaster pointer];
    cbn [fst snd]; intros Hinv.
  - left. split; [reflexivity | apply sameButMipmaps_refl].
  - left. split; [reflexivity | apply sameButMipmaps_refl].
  - left. split; [reflexivity | apply sameButMipmaps_refl].
  - unfold updateResolution.
    destruct (inv_live _ _ Hinv) as (current & Hcur & Hlive). rewrite Hcur.
    destruct (res =? THREE.width current)%Z;
      [left; split; [reflexivity | apply sameButMipmaps_refl]|].
    right. exists res, current.
    assert (Hwf : wellFormed w) by apply Hinv.
    assert (Hold : (renderTarget this < allocated w)%nat).
    { destruct (Nat.lt_ge_cases (renderTarget this) (allocated w)) as [L|G];
        [exact L|]. rewrite (Hwf _ G) in Hcur. discriminate. }
    assert (Hwf1 : wellFormed (dispose (renderTarget this) w)).
    { intros k Hk. cbn [dispose targets allocated] in *.
      rewrite lookup_alter_ne by lia. now apply Hwf. }
    pose proof (createRenderTarget_spec res _ Hwf1) as Hnew.
    destruct (createRenderTarget res (dispose (renderTarget this) w))
      as [rt w2] eqn:Hc. cbn [fst snd] in *.
    destruct Hnew as (Hrt & Hlook & Hother & _ & _).
    cbn [dispose allocated] in Hrt. subst rt.
    cbn [renderTarget]. split; [reflexivity|]. split; [reflexivity|].
    split.
    { unfold createRenderTarget, newWebGLCubeRenderTarget in Hc.
      cbn in Hc. injection Hc as <-. reflexivity. }
    split; [exact Hlook|]. split.
    + rewrite Hother by lia. cbn [dispose targets].
      now rewrite lookup_alter_eq, Hcur.
    + intros k Hk1 Hk2. rewrite Hother by exact Hk1. cbn [dispose targets].
      now rewrite lookup_alter_ne by congruence.
  - left. pose proof (render_store this w renderer scene cam) as Hs.
    pose proof (render_keeps this renderer scene cam w
                  (inv_cube_parent _ _ Hinv)) as Hk.
    cbn zeta in Hk. destruct Hk as ((_ & _ & _ & Hrt) & _).
    rewrite (proj1 (inv_same_texture _ _ Hinv)) in Hs.
    split; assumption.
  - left. unfold computeRaycastRayDirection.
    destruct (intersectSphere _ _);
      (split; [reflexivity | apply sameButMipmaps_refl]).
Qed.

(** The current render target of a reachable projector is alive and has
    [isRenderTargetTexture] off, as [createRenderTarget] left it.  (Its
    mipmaps are on or off: an interrupted capture leaves them off.) *)
Lemma reachable_configured st :
  reachable st ->
  exists rt, targets (snd st) !! renderTarget (fst st) = Some rt /\
             isRenderTargetTexture rt = false /\
             disposed rt = false.
Proof.
  induction 1 as [props w Hp Hwf | st st' Hreach IH Hstep].
  - unfold constructor.
    pose proof (createRenderTarget_spec
                  (default 896%Z (props_resolution props)) w Hwf) as H.
    destruct (createRenderTarget _ w) as [rt w1]. cbn in H.
    destruct H as (_ & Hnew & _). cbn [fst snd renderTarget onResize].
    eexists. split; [exact Hnew|]. repeat split.
  - destruct (step_targets _ _ Hstep (reachable_invariant _ Hreach))
      as [(Hrt & _ & _ & Hid) | (res & current & _ & Hrt & _ & Hnew & _)].
    + rewrite Hrt. destruct IH as (rt & Hl & Hi & Hd).
      destruct Hid as [-> | ->].
      * now exists rt.
      * rewrite Hl. exists (mipmapsOff rt). repeat split; assumption.
    + rewrite Hrt. eexists. split; [exact Hnew|]. repeat split.
Qed.

(** After [updateResolution] the current render target has the
    resolution asked for; it is alive, with [isRenderTargetTexture] off;
    when it is a new one, it generates mipmaps. *)
Lemma updateResolution_target this w res :
  reachable (this, w) ->
  exists rt,
    targets (snd (updateResolution res this w))
      !! renderTarget (fst (updateResolution res this w)) = Some rt /\
    width rt = res /\
    isRenderTargetTexture rt = false /\
    disposed rt = false /\
    (renderTarget (fst (updateResolution res this w)) <> renderTarget this ->
     generateMipmaps rt = true).
Proof.
  intros Hreach.
  pose proof (reachable_invariant _ Hreach) as Hinv. cbn [fst snd] in Hinv.
  destruct (reachable_configured _ Hreach) as (cur & Hcur & Hi & Hd).
  cbn [fst snd] in Hcur.
  unfold updateResolution. rewrite Hcur.
  destruct (res =? THREE.width cur)%Z eqn:E.
  - cbn [fst snd]. exists cur. apply Z.eqb_eq in E.
    repeat split; try assumption; [now symmetry | congruence].
  - assert (Hwf : wellFormed w) by apply Hinv.
    assert (Hold : (renderTarget this < allocated w)%nat).
    { destruct (Nat.lt_ge_cases (renderTarget this) (allocated w)) as [L|G];
        [exact L|]. rewrite (Hwf _ G) in Hcur. discriminate. }
    assert (Hwf1 : wellFormed (dispose (renderTarget this) w)).
    { intros k Hk. cbn [dispose targets allocated] in *.
      rewrite lookup_alter_ne by lia. now apply Hwf. }
    pose proof (createRenderTarget_spec res _ Hwf1) as Hnew.
    destruct (createRenderTarget res (dispose (renderTarget this) w))
      as [rt w2]. cbn [fst snd] in *.
    destruct Hnew as (_ & Hlook & _). eexists. split; [exact Hlook|].
    repeat split.
Qed.

(** [updateResolution] never writes the field [resolution]. *)
Lemma updateResolution_field this w res :
  resolution (fst (updateResolution res this w)) = resolution this.
Proof.
  unfold updateResolution.
  destruct (targets w !! renderTarget this) as [cur|]; [|reflexivity].
  destruct (res =? THREE.width cur)%Z; [reflexivity|].
  destruct (createRenderTarget _ _). reflexivity.
Qed.

(** What [updateResolution] keeps of the projector. *)
Lemma updateResolution_keeps this w res :
  zoom (fst (updateResolution res this w)) = zoom this /\
  temp (fst (updateResolution res this w)) = temp this /\
  meshObject3d (sphereMesh (fst (updateResolution res this w)))
  = meshObject3d (sphereMesh this) /\
  orthoCamera (fst (updateResolution res this w)) = orthoCamera this.
Proof.
  unfold updateResolution.
  destruct (targets w !! renderTarget this) as [cur|]; [|repeat split].
  destruct (res =? THREE.width cur)%Z; [repeat split|].
  destruct (createRenderTarget _ _). repeat split.
Qed.

Lemma updateResolution_reachable this w res :
  reachable (this, w) ->
  reachable (fst (updateResolution res this w),
             snd (updateResolution res this w)).
Proof.
  intros Hreach. apply reachable_step with (st := (this, w)); [exact Hreach|].
  destruct (updateResolution res this w) eqn:E.
  cbn [fst snd]. rewrite <- E. apply step_updateResolution.
Qed.

(** A run of the host from a new projector ends in a reachable state. *)
Lemma run_reachable props w0 st :
  validProps props -> wellFormed w0 ->
  rtc step (constructor props w0) st -> reachable st.
Proof.
  intros Hp Hwf Hrun.
  apply (rtc_ind_r (R := step) (fun st => reachable st)
           (constructor props w0)); [| |exact Hrun].
  - now apply reachable_constructor.
  - intros y z _ Hstep Hy. eapply reachable_step; eassumption.
Qed.

(** *** The second pass *)

(** The sphere mesh of a reachable projector sits at the origin. *)
Lemma reachable_mesh_position st :
  reachable st ->
  position (meshObject3d (sphereMesh (fst st))) = mkVector3 0 0 0.
Proof.
  induction 1 as [props w Hp Hwf | st st' Hreach IH Hstep].
  - unfold constructor. destruct (createRenderTarget _ w). reflexivity.
  - pose proof (reachable_invariant _ Hreach) as Hinv.
    destruct Hstep as [this w v Hv | this w v | this w width height Hw Hh
                      | this w res | this w renderer scene cam
                      | this w raycaster pointer];
      cbn [fst snd] in *.
    + exact IH.
    + exact IH.
    + exact IH.
    + destruct (updateResolution_keeps this w res) as (_ & _ & Km & _).
      now rewrite Km.
    + pose proof (render_keeps this renderer scene cam w
                    (inv_cube_parent _ _ Hinv)) as K.
      cbn zeta in K. destruct K as (_ & _ & (_ & _ & Kp & _) & _).
      now rewrite Kp.
    + destruct (pick_keeps this raycaster pointer)
        as (_ & _ & _ & _ & Km & _).
      now rewrite Km.
Qed.

Lemma compose_scaling rad :
  compose (mkVector3 0 0 0) identityQuaternion (mkVector3 rad rad rad)
  = mkMatrix4 rad 0 0 0  0 rad 0 0  0 0 rad 0  0 0 0 1.
Proof. unfold compose, identityQuaternion. entries. f_equal; ring. Qed.

(** The view matrix of the orthographic camera once it is in place. *)
Lemma invert_orthoWorld :
  invert orthoWorld = mkMatrix4 1 0 0 0  0 1 0 0  0 0 1 0  0 0 (-100) 1.
Proof.
  unfold orthoWorld.
  replace (compose (mkVector3 0 0 100) identityQuaternion (mkVector3 1 1 1))
    with (mkMatrix4 1 0 0 0  0 1 0 0  0 0 1 0  0 0 100 1)
    by (unfold compose, identityQuaternion; entries; f_equal; ring).
  rewrite invert_scale_translate by lra. f_equal; field.
Qed.

(** The projection [onResize] leaves: the viewport at one hundredth. *)
Lemma projectionMatrix_onResize this w :
  invariant this w ->
  projectionMatrix (orthoCamera this)
  = makeOrthographic (- (right (orthoCamera this) / 100))
                     (right (orthoCamera this) / 100)
                     (top (orthoCamera this) / 100)
                     (- (top (orthoCamera this) / 100)) 0.1 2000.
Proof.
  intros Hinv.
  rewrite <- (inv_ortho_projection _ _ Hinv) at 1.
  unfold updateProjectionMatrix. cbn [projectionMatrix].
  rewrite (inv_ortho_zoom _ _ Hinv), (inv_ortho_left _ _ Hinv),
    (inv_ortho_bottom _ _ Hinv), (inv_ortho_near _ _ Hinv),
    (inv_ortho_far _ _ Hinv).
  f_equal; field.
Qed.

End FrameFacts.


(** ** The properties of the projector *)
Module FisheyeTheorems.
Import THREE CoreFisheye FisheyeHost Instances THREEFacts FisheyeInvariant
  PickFacts RenderFacts PickGeometry FrameFacts.
Local Open Scope R_scope.

(** *** The concrete projectors *)

Lemma emptyWorld_wellFormed : wellFormed emptyWorld.
Proof. intros k _. reflexivity. Qed.

Lemma freshFisheye_reachable : reachable freshFisheye.
Proof.
  apply reachable_constructor; [exact I | exact emptyWorld_wellFormed].
Qed.

Lemma firstFrame_reachable : reachable firstFrame.
Proof.
  apply reachable_step with (st := (fst freshFisheye, snd freshFisheye)).
  - exact freshFisheye_reachable.
  - apply step_render.
Qed.

Lemma firstFrame_orthoWorld :
  matrixWorld (object3d (orthoCamera (fst firstFrame))) = orthoWorld.
Proof. reflexivity. Qed.

Lemma cameraAt_posed p :
  posed (cameraAt p) p identityQuaternion (mkVector3 1 1 1).
Proof.
  unfold posed, unitQuaternion, identityQuaternion. entries.
  repeat split; lra.
Qed.

Lemma quietRenderer_returns scene camera this w :
  returned (render quietRenderer scene camera this w) = true.
Proof.
  unfold render. destruct (decompose (matrixWorld camera)) as [[t1 r1] s1].
  reflexivity.
Qed.

(** In the first frame the sphere has radius [sqrt 2 / 2]: the ray
    through [(2, 0)], which passes one unit off the axis, misses it. *)
Lemma firstFrame_miss raycaster :
  intersectSphere
    (ray (setFromCamera raycaster (mkVector2 2 0)
                        (orthoCamera (fst firstFrame))))
    (sphere (temp (fst firstFrame))) = None.
Proof.
  pose proof (reachable_invariant _ firstFrame_reachable) as Hinv.
  rewrite (setFromCamera_ray _ _ raycaster 2 0 Hinv firstFrame_orthoWorld).
  change (right (orthoCamera (fst firstFrame))) with (100 / 2).
  change (sphere (temp (fst firstFrame)))
    with (mkSphere (mkVector3 0 0 0)
            (sqrt (100 * 100 + 100 * 100) / 100 * (0.5 + 0 / 2))).
  unfold intersectSphere, subVectors, sub, dot. entries.
  rewrite gtb_true; [reflexivity|].
  assert (S : sqrt (100 * 100 + 100 * 100) * sqrt (100 * 100 + 100 * 100)
              = 100 * 100 + 100 * 100) by (apply sqrt_sqrt; lra).
  decimals. nra.
Qed.






(** *** The pick *)




(** C2 as the code has it.  When the orthographic ray through the
    pointer misses the cached sphere, the call returns right after
    [setFromCamera]: the projector is left as it was, and the raycaster
    holds the orthographic camera's ray through the pointer, not a
    fisheye ray.  That ray starts at the pointer, at the depth of the
    camera's world matrix ([100] once a draw has refreshed it, [0]
    before), and runs down -Z. *)
Theorem miss_leaves_orthographic_ray this w raycaster x y :
  reachable (this, w) ->
  intersectSphere
    (ray (setFromCamera raycaster (mkVector2 x y) (orthoCamera this)))
    (sphere (temp this)) = None ->
  let depth := e14 (matrixWorld (object3d (orthoCamera this))) in
  computeRaycastRayDirection raycaster (mkVector2 x y) this
  = (this, setFromCamera raycaster (mkVector2 x y) (orthoCamera this)) /\
  ray (snd (computeRaycastRayDirection raycaster (mkVector2 x y) this))
  = mkRay (mkVector3 (x * right (orthoCamera this) / 100)
                     (y * top (orthoCamera this) / 100) depth)
          (mkVector3 0 0 (-1)) /\
  (depth = 0 \/ depth = 100).
Proof.
  intros Hreach Hmiss depth.
  pose proof (reachable_invariant _ Hreach) as Hinv. cbn [fst snd] in Hinv.
  unfold computeRaycastRayDirection. rewrite Hmiss. cbn [snd].
  split; [reflexivity|]. split.
  - now apply setFromCamera_ray_any with (w := w).
  - now apply ortho_depth with (w := w).
Qed.

(** C2, an instance: after the first frame of a fresh projector, the
    pointer [(2, 0)] misses the sphere and the call returns with the ray
    from [(1, 0, 100)] down -Z. *)
Lemma miss_leaves_orthographic_ray_witness :
  ray (snd (computeRaycastRayDirection newRaycaster (mkVector2 2 0)
                                       (fst firstFrame)))
  = mkRay (mkVector3 1 0 100) (mkVector3 0 0 (-1)).
Proof.
  destruct (miss_leaves_orthographic_ray (fst firstFrame) (snd firstFrame)
              newRaycaster 2 0 firstFrame_reachable
              (firstFrame_miss newRaycaster)) as (_ & H & _).
  rewrite H.
  change (right (orthoCamera (fst firstFrame))) with (100 / 2).
  change (e14 (matrixWorld (object3d (orthoCamera (fst firstFrame)))))
    with 100.
  f_equal. f_equal; field.
Defined.

(** C2 as the claim has it fails: on that miss a new raycaster, whose
    ray started at the origin, comes back with another ray. *)
Lemma miss_modifies_raycaster :
  intersectSphere
    (ray (setFromCamera newRaycaster (mkVector2 2 0)
                        (orthoCamera (fst firstFrame))))
    (sphere (temp (fst firstFrame))) = None /\
  origin (ray (snd (computeRaycastRayDirection newRaycaster (mkVector2 2 0)
                                               (fst firstFrame))))
  <> origin (ray newRaycaster).
Proof.
  split; [apply firstFrame_miss|].
  unfold computeRaycastRayDirection.
  rewrite firstFrame_miss. cbn [snd].
  pose proof (reachable_invariant _ firstFrame_reachable) as Hinv.
  rewrite (setFromCamera_ray _ _ newRaycaster 2 0 Hinv firstFrame_orthoWorld).
  cbn. intros H. injection H as _ _ H. lra.
Qed.


(** *** Resizing *)

(** C3.  For every width and height above [0] and every zoom [z] in
    [[0, 1]], [onResize] leaves the orthographic camera with the bounds
    [-w/2], [w/2], [h/2], [-h/2] at zoom [100], and gives the projection
    sphere (its scale, and the world scale read off its refreshed world
    matrix) and the cached intersection sphere the radius
    [(sqrt (w*w + h*h) / 100) * (0.5 + z/2)]; at 800 by 600 that is [5]
    for zoom [0] and [10] for zoom [1]. *)
Theorem onResize_frames_viewport this w width height z :
  reachable (this, w) ->
  0 < width -> 0 < height -> 0 <= z <= 1 ->
  let this1 := onResize width height (set_zoom this z) in
  let rad := sqrt (width * width + height * height) / 100 * (0.5 + z / 2) in
  (left (orthoCamera this1) = - (width / 2) /\
   right (orthoCamera this1) = width / 2 /\
   top (orthoCamera this1) = height / 2 /\
   bottom (orthoCamera this1) = - (height / 2) /\
   THREE.zoom (orthoCamera this1) = 100) /\
  (scale (meshObject3d (sphereMesh this1)) = mkVector3 rad rad rad /\
   snd (getWorldScale (meshObject3d (sphereMesh this1)))
   = mkVector3 rad rad rad /\
   radius (sphere (temp this1)) = rad) /\
  (radius (sphere (temp (onResize 800 600 (set_zoom this 0)))) = 5 /\
   radius (sphere (temp (onResize 800 600 (set_zoom this 1)))) = 10).
Proof.
  intros Hreach Hw Hh Hz this1 rad.
  pose proof (reachable_invariant _ Hreach) as Hinv. cbn [fst snd] in Hinv.
  assert (Hrad : 0 < rad) by now apply radius_positive.
  split; [|split].
  - cbn. repeat split; try reflexivity; lra.
  - split; [reflexivity|]. split; [|reflexivity].
    unfold getWorldScale, updateMatrixWorld. cbn [snd matrixWorld].
    cbn [this1 onResize sphereMesh meshObject3d set_scale set_zoom scale
         quaternion position].
    rewrite (inv_mesh_quaternion _ _ Hinv).
    fold rad. unfold setScalar.
    rewrite decompose_compose_rotation; [reflexivity| |exact Hrad ..].
    unfold unitQuaternion, identityQuaternion. entries. ring.
  - cbn.
    replace (800 * 800 + 600 * 600) with (1000 * 1000) by ring.
    rewrite sqrt_square by lra. decimals. split; field.
Qed.

(** C3, an instance: a fresh projector, resized to 1024 by 768 at zoom
    one half. *)
Lemma onResize_frames_viewport_witness :
  radius (sphere (temp (onResize 1024 768 (set_zoom (fst freshFisheye) 0.5))))
  = sqrt (1024 * 1024 + 768 * 768) / 100 * (0.5 + 0.5 / 2).
Proof.
  assert (H1 : 0 < 1024) by lra.
  assert (H2 : 0 < 768) by lra.
  assert (H3 : 0 <= 0.5 <= 1) by lra.
  exact (proj2 (proj2 (proj1 (proj2
    (onResize_frames_viewport (fst freshFisheye) (snd freshFisheye)
       1024 768 0.5 freshFisheye_reachable H1 H2 H3))))).
Defined.


(** *** The render target *)

(** C7.  [updateResolution] with the resolution the current render
    target already has changes nothing: the projector, the store and the
    commands (so no disposal) are as before, and the render target is the
    same object. *)
Theorem updateResolution_same_is_noop this w current :
  targets w !! renderTarget this = Some current ->
  updateResolution (width current) this w = (this, w).
Proof.
  intros H. unfold updateResolution. rewrite H, Z.eqb_refl. reflexivity.
Qed.

Lemma freshFisheye_target :
  targets (snd freshFisheye) !! renderTarget (fst freshFisheye)
  = Some (mkWebGLCubeRenderTarget 896 true false false).
Proof. reflexivity. Qed.

(** C7, an instance: the fresh projector, asked for its 896 again. *)
Lemma updateResolution_same_is_noop_witness :
  updateResolution 896 (fst freshFisheye) (snd freshFisheye)
  = (fst freshFisheye, snd freshFisheye).
Proof.
  exact (updateResolution_same_is_noop (fst freshFisheye)
           (snd freshFisheye) _ freshFisheye_target).
Defined.

(** C6.  [updateResolution] with a resolution other than the current
    one disposes the previous render target and nothing else, then
    creates one replacement of the new resolution, under a fresh key;
    afterwards the capture camera renders into the replacement and the
    sphere material, marked for update, reads the replacement's texture.
    That the capture camera and the sphere material look at the texture
    of the projector's render target holds of every projector a host can
    reach: after construction and after every call. *)
Theorem updateResolution_swaps_target this w res current :
  reachable (this, w) ->
  targets w !! renderTarget this = Some current ->
  res <> width current ->
  let this1 := fst (updateResolution res this w) in
  let w1 := snd (updateResolution res this w) in
  commands w1
  = commands w ++ [DisposeTarget (renderTarget this);
                   CreateTarget (renderTarget this1) res] /\
  (targets w !! renderTarget this1 = None /\
   targets w1 !! renderTarget this
   = Some (mkWebGLCubeRenderTarget (width current) (generateMipmaps current)
             (isRenderTargetTexture current) true) /\
   targets w1 !! renderTarget this1
   = Some (mkWebGLCubeRenderTarget res true false false) /\
   forall k, k <> renderTarget this -> k <> renderTarget this1 ->
             targets w1 !! k = targets w !! k) /\
  (THREE.renderTarget (cubeCamera this1) = renderTarget this1 /\
   envMap (material (sphereMesh this1)) = Some (renderTarget this1) /\
   version (material (sphereMesh this1))
   = S (version (material (sphereMesh this)))) /\
  (forall st, reachable st -> sameTexture (fst st)).
Proof.
  intros Hreach Hcur Hne this1 w1.
  pose proof (reachable_invariant _ Hreach) as Hinv. cbn [fst snd] in Hinv.
  assert (Hwf : wellFormed w) by apply Hinv.
  assert (Hold : (renderTarget this < allocated w)%nat).
  { destruct (Nat.lt_ge_cases (renderTarget this) (allocated w)) as [L|G];
      [exact L|]. rewrite (Hwf _ G) in Hcur. discriminate. }
  assert (Hwf1 : wellFormed (dispose (renderTarget this) w)).
  { intros k Hk. cbn [dispose targets allocated] in *.
    rewrite lookup_alter_ne by lia. now apply Hwf. }
  pose proof (createRenderTarget_spec res _ Hwf1) as Hnew.
  subst this1 w1. unfold updateResolution. rewrite Hcur.
  replace (res =? width current)%Z with false
    by (symmetry; apply Z.eqb_neq; exact Hne).
  destruct (createRenderTarget res (dispose (renderTarget this) w))
    as [rt w2]. cbn [fst snd] in *.
  destruct Hnew as (Hrt & Hlook & Hother & Hcmd & _).
  cbn [renderTarget cubeCamera sphereMesh material set_envMap
       set_needsUpdate envMap version set_renderTarget THREE.renderTarget].
  cbn [dispose allocated] in Hrt.
  split; [|split; [|split]].
  - rewrite Hcmd. cbn [dispose commands]. now rewrite <- app_assoc.
  - split; [apply Hwf; lia|]. split; [|split; [exact Hlook|]].
    + rewrite Hother by lia. cbn [dispose targets].
      now rewrite lookup_alter_eq, Hcur.
    + intros k Hk1 Hk2. rewrite Hother by exact Hk2. cbn [dispose targets].
      now rewrite lookup_alter_ne by congruence.
  - repeat split; reflexivity.
  - intros st Hst. apply (reachable_invariant _ Hst).
Qed.

(** C6, an instance: the fresh projector goes from 896 to 512; target
    [0] is disposed, target [1] created. *)
Lemma updateResolution_swaps_target_witness :
  commands (snd (updateResolution 512 (fst freshFisheye) (snd freshFisheye)))
  = [CreateTarget 0 896; DisposeTarget 0; CreateTarget 1 512] /\
  envMap (material (sphereMesh
    (fst (updateResolution 512 (fst freshFisheye) (snd freshFisheye)))))
  = Some 1%nat.
Proof.
  assert (Hne : 512%Z <> width (mkWebGLCubeRenderTarget 896 true false false))
    by discriminate.
  destruct (updateResolution_swaps_target (fst freshFisheye)
              (snd freshFisheye) 512 _ freshFisheye_reachable
              freshFisheye_target Hne) as (Hc & _ & (_ & He & _) & _).
  split; [exact Hc | exact He].
Defined.

(** *** A frame *)





End FisheyeTheorems.


(** ** The projector on JavaScript's numbers *)
Module Binary64Facts.
Import Floats.PrimFloat Binary64.
Local Open Scope float_scope.
#[local] Set Warnings "-inexact-float".

(** What [intersectSphere] answered is what the pick went by. *)
Lemma pick_answer pointer this :
  fst (computeRaycastRayDirection pointer this)
  = intersectSphere (setFromCamera pointer (orthoCamera this)) (sphere this).
Proof.
  unfold computeRaycastRayDirection. now destruct (intersectSphere _ _).
Qed.

Lemma pick_miss pointer this :
  intersectSphere (setFromCamera pointer (orthoCamera this)) (sphere this)
  = None ->
  computeRaycastRayDirection pointer this
  = (None, setFromCamera pointer (orthoCamera this)).
Proof. unfold computeRaycastRayDirection. now intros ->. Qed.

(** The orthographic camera and the sphere after a frame depend neither
    on the engine nor on the source camera. *)
Lemma render_orthoCamera cos sin camera this :
  orthoCamera (render cos sin camera this)
  = (let c := orthoCamera this in
     mkOrthographicCamera (updateMatrixWorld (object3d c)) (zoom c)
       (left c) (right c) (top c) (bottom c) (near c) (far c)
       (projectionMatrix c) (projectionMatrixInverse c)) /\
  sphere (render cos sin camera this) = sphere this.
Proof.
  unfold render. destruct (decompose camera) as [[t1 r1] s1].
  split; reflexivity.
Qed.

(** A frame depends on the engine by the yaw alone. *)
Lemma render_engine cos sin cos' sin' camera this :
  setFromEuler cos sin (e this) = setFromEuler cos' sin' (e this) ->
  render cos sin camera this = render cos' sin' camera this.
Proof.
  intros H. unfold render. destruct (decompose camera) as [[t1 r1] s1].
  now rewrite H.
Qed.

Lemma setFromEuler_yaw_binary64 cos sin :
  cos 0 = 1 -> sin 0 = 0 ->
  cos (PI / 2) = 6.123233995736766e-17 -> sin (PI / 2) = 1 ->
  setFromEuler cos sin (mkEuler 0 PI 0)
  = mkQuaternion 0 1 0 6.123233995736766e-17.
Proof.
  intros Hc0 Hs0 Hc Hs. unfold setFromEuler. cbn [ex ey ez].
  change (0 / 2) with 0. rewrite Hc0, Hs0, Hc, Hs. reflexivity.
Qed.

(** X3.  At 800 by 600 the radius [onResize] computes in binary64 is [5]
    at zoom [0] and [10] at zoom [1], to the last bit. *)
Theorem radius_800_600_binary64 :
  Binary64.radius 800 600 0 = 5 /\ Binary64.radius 800 600 1 = 10.
Proof. split; vm_compute; reflexivity. Qed.

(** X1.  In the code's arithmetic a pointer inside the viewport can miss
    the sphere.  At zoom [0] the sphere reaches the corners of the
    viewport only up to rounding, and whether the pick at the corner
    [(1, 1)] hits goes by the size of the viewport.  After a frame
    (whatever the engine and the source camera) it misses at 1366 by
    768, where the call returns early and leaves the orthographic ray
    from [(6.83, 3.8399999999999994, 100.00000000000011)] down -Z, and
    at 1280 by 720, 1440 by 900, 1536 by 864, 2560 by 1440 and 3840 by
    2160; it hits at 800 by 600, 1024 by 768, 1920 by 1080 and 100 by
    100.  The pointer the story computes for a click on the first pixel
    of a 1366 by 768 canvas is the corner [(-1, 1)], and misses.  Before
    the first frame the corner misses at 800 by 600 too. *)
Theorem viewport_corner_can_miss_binary64 cos sin camera :
  let after w h := render cos sin camera (onResize w h (constructor 0)) in
  let answer w h := fst (computeRaycastRayDirection (mkVector2 1 1)
                                                    (after w h)) in
  (computeRaycastRayDirection (mkVector2 1 1) (after 1366 768)
   = (None,
      mkRay (mkVector3 6.8300000000000001 3.8399999999999994
                       100.00000000000011)
            (mkVector3 0 0 (-1))) /\
   sphereRadius (sphere (after 1366 768)) = 7.8354642491686484) /\
  (answer 1280 720 = None /\ answer 1440 900 = None /\
   answer 1536 864 = None /\ answer 2560 1440 = None /\
   answer 3840 2160 = None) /\
  (answer 800 600 = Some (mkVector3 4 3.0000000000000004 0) /\
   answer 1024 768 <> None /\ answer 1920 1080 <> None /\
   answer 100 100 <> None) /\
  (pointerOf 0 0 1366 768 = mkVector2 (-1) 1 /\
   fst (computeRaycastRayDirection (pointerOf 0 0 1366 768)
                                   (after 1366 768)) = None) /\
  computeRaycastRayDirection (mkVector2 1 1) (onResize 800 600 (constructor 0))
  = (None,
     mkRay (mkVector3 4 3.0000000000000004 0) (mkVector3 0 0 (-1))).
Proof.
  cbn zeta. rewrite !pick_answer.
  split; [split; [apply pick_miss|]|];
    rewrite ?(proj1 (render_orthoCamera _ _ _ _)),
      ?(proj2 (render_orthoCamera _ _ _ _)).
  - vm_compute. reflexivity.
  - vm_compute. reflexivity.
  - vm_compute. repeat split; discriminate.
Qed.

(** X18.  The pick at the centre in the code's arithmetic.  For an
    engine whose [Math.cos] and [Math.sin] are correctly rounded at [0]
    and at [Math.PI / 2], a new projector that renders a frame from a
    camera at [(1, 2, 3)] looking down -Z gives the capture camera the
    quaternion [(0, 1, 0, 6.123233995736766e-17)], and the pick at the
    pointer [(0, 0)] leaves the ray from [(1, 2, 3)] along
    [(1.2246467991473532e-16, -0, -1)], while the camera's forward
    direction is [(-0, -0, -1)]. *)
Theorem centre_pick_binary64 cos sin :
  cos 0 = 1 -> sin 0 = 0 ->
  cos (PI / 2) = 6.123233995736766e-17 -> sin (PI / 2) = 1 ->
  let camera := cameraAt (mkVector3 1 2 3) in
  let this1 := render cos sin camera (constructor 0) in
  quaternion (cubeCamera this1) = mkQuaternion 0 1 0 6.123233995736766e-17 /\
  snd (computeRaycastRayDirection (mkVector2 0 0) this1)
  = mkRay (mkVector3 1 2 3)
          (mkVector3 1.2246467991473532e-16 (-0) (-1)) /\
  getWorldDirection camera = mkVector3 (-0) (-0) (-1).
Proof.
  intros Hc0 Hs0 Hc Hs camera this1.
  assert (E : this1
              = render cosOfHalfAngle sinOfHalfAngle camera (constructor 0)).
  { apply render_engine. change (e (constructor 0)) with (mkEuler 0 PI 0).
    rewrite (setFromEuler_yaw_binary64 cos sin Hc0 Hs0 Hc Hs).
    vm_compute. reflexivity. }
  rewrite E. vm_compute. repeat split.
Qed.

(** X18, an instance: the engine that knows those four values. *)
Lemma centre_pick_binary64_witness :
  let this1 := render cosOfHalfAngle sinOfHalfAngle
                      (cameraAt (mkVector3 1 2 3)) (constructor 0) in
  quaternion (cubeCamera this1) = mkQuaternion 0 1 0 6.123233995736766e-17 /\
  snd (computeRaycastRayDirection (mkVector2 0 0) this1)
  = mkRay (mkVector3 1 2 3)
          (mkVector3 1.2246467991473532e-16 (-0) (-1)) /\
  getWorldDirection (cameraAt (mkVector3 1 2 3)) = mkVector3 (-0) (-0) (-1).
Proof.
  apply (centre_pick_binary64 cosOfHalfAngle sinOfHalfAngle);
    vm_compute; reflexivity.
Defined.

End Binary64Facts.

(** ** The properties of the cube camera *)
Module CubeCameraTheorems.
Import THREE CoreCubeCamera CubeCameraHost FisheyeHost Instances
  FisheyeInvariant RenderFacts.

(** *** One call *)

Lemma guard_is_below this :
  isInfinity (closureFrames this) || below (count this) (closureFrames this)
  = below (count this) (closureFrames this).
Proof. destruct (closureFrames this); reflexivity. Qed.

(** A call over the budget does nothing at all. *)
Lemma update_skips this scene w :
  below (count this) (closureFrames this) = false ->
  update this scene w = Normal (this, scene, w).
Proof.
  intros H. unfold update. rewrite guard_is_below, H. reflexivity.
Qed.

(** A call within the budget, on a renderer that returns: the six faces
    are drawn of the scene with the substitutes in, the scene is handed
    back as it was, and the call is counted. *)
Lemma update_captures this scene w :
  below (count this) (closureFrames this) = true ->
  (forall c, throws (closureRenderer this) c = false) ->
  update this scene w
  = Normal
      (mkCubeCameraType true
         (set_cubeObject3d (camera this) (refreshed (camera this)))
         (fbo this) (params this)
         (closureRenderer this) (closureFrames this) (S (count this)),
       scene,
       mkWorld (targets w) (allocated w)
         (commands w
          ++ sixFaces (THREE.renderTarget (camera this))
                      (substituted this scene)
                      (matrixWorld (refreshed (camera this))))).
Proof.
  intros Hb Hq. unfold update. rewrite guard_is_below, Hb.
  cbn [THREE.fog background children].
  fold (substituted this scene).
  pose proof (cubeCameraUpdate_quiet (closureRenderer this) (camera this)
                (substituted this scene) w Hq) as Hret.
  pose proof (cubeCameraUpdate_returned _ _ _ _ Hret) as Hw.
  pose proof (cubeCameraUpdate_camera (closureRenderer this) (camera this)
                (substituted this scene) w) as Hc.
  destruct (cubeCameraUpdate _ _ _ _) as [[c w1]|[c w1]];
    cbn [returned state fst snd] in *; [|discriminate].
  subst c w1. unfold substituted. cbn. now destruct scene.
Qed.

(** A cube camera in a group that hangs in no scene: a capture leaves it
    as it is. *)
Lemma refreshed_Detached c :
  parent c = Detached -> set_cubeObject3d c (refreshed c) = c.
Proof. unfold refreshed. intros ->. now destruct c. Qed.

(** Whatever the renderer does, a call never lowers the counter and
    raises it by one at most. *)
Lemma update_count this scene w :
  let this1 := fst (fst (state (update this scene w))) in
  (count this <= count this1 <= S (count this))%nat.
Proof.
  unfold update.
  destruct (isInfinity _ || below _ _); [|cbn; lia].
  destruct (cubeCameraUpdate _ _ _ _) as [[c w1]|[c w1]]; cbn; lia.
Qed.

(** *** The scene around a call *)

(** C4 as the code has it.  Whenever [update] returns, whether it
    captured or skipped, the scene has the fog and the background it had
    before the call (the scene is handed back whole). *)
Theorem update_restores_scene_on_return this scene w this1 scene1 w1 :
  update this scene w = Normal (this1, scene1, w1) ->
  THREE.fog scene1 = THREE.fog scene /\
  background scene1 = background scene /\
  scene1 = scene.
Proof.
  unfold update.
  destruct (isInfinity _ || below _ _).
  - destruct (cubeCameraUpdate _ _ _ _) as [[c w2]|[c w2]];
      [|discriminate].
    intros H. injection H as _ <- _. cbn. now destruct scene.
  - intros H. injection H as _ <- _. repeat split.
Qed.

Lemma quiet_cubeCamera_ready budget w :
  let this := fst (CubeCamera quietRenderer (substituteProps budget) w) in
  (forall c, throws (closureRenderer this) c = false) /\
  parent (camera this) = Detached /\
  count this = 0%nat /\
  closureFrames this = default Infinity budget.
Proof. repeat split. Qed.

(** C4, an instance: with a renderer that returns, a cube camera that
    substitutes fog [7] and background [9] hands the scene back with its
    fog [1] and background [2]. *)
Lemma update_restores_scene_on_return_witness :
  let this := fst (CubeCamera quietRenderer (substituteProps None)
                              emptyWorld) in
  let w := snd (CubeCamera quietRenderer (substituteProps None)
                           emptyWorld) in
  returned (update this tintedScene w) = true /\
  THREE.fog (snd (fst (state (update this tintedScene w)))) = Some 1%nat /\
  background (snd (fst (state (update this tintedScene w)))) = Some 2%nat.
Proof.
  cbn zeta.
  destruct (quiet_cubeCamera_ready None emptyWorld) as (Hq & Hp & _ & _).
  pose proof (update_captures
                (fst (CubeCamera quietRenderer (substituteProps None)
                                 emptyWorld))
                tintedScene
                (snd (CubeCamera quietRenderer (substituteProps None)
                                 emptyWorld))
                eq_refl Hq) as E.
  destruct (update_restores_scene_on_return _ _ _ _ _ _ E)
    as (Hf & Hb & _).
  rewrite E. cbn [returned state fst snd].
  split; [reflexivity|]. split; [exact Hf | exact Hb].
Defined.

(** C4 as the claim has it fails.  When the capture throws, the call is
    left with the substitutes still in the scene: fog [7] for fog [1],
    background [9] for background [2]. *)
Lemma update_thrown_keeps_substitutes :
  let this := fst (CubeCamera lostRenderer (substituteProps None)
                              emptyWorld) in
  let w := snd (CubeCamera lostRenderer (substituteProps None) emptyWorld) in
  let scene1 := snd (fst (state (update this tintedScene w))) in
  returned (update this tintedScene w) = false /\
  THREE.fog scene1 = Some 7%nat /\
  background scene1 = Some 9%nat /\
  THREE.fog scene1 <> THREE.fog tintedScene /\
  background scene1 <> background tintedScene.
Proof. cbn zeta. repeat split; discriminate. Qed.

(** *** The budget *)

Lemma updates_S n this scene w :
  updates (S n) this scene w
  = let '(this1, scene1, w1) := state (update this scene w) in
    updates n this1 scene1 w1.
Proof. reflexivity. Qed.

Lemma updates_snoc n this scene w :
  updates (S n) this scene w
  = let '(thisN, sceneN, wN) := updates n this scene w in
    state (update thisN sceneN wN).
Proof.
  revert this scene w. induction n as [|n IH]; intros this scene w.
  - cbn. now destruct (state (update this scene w)) as [[a b] c].
  - rewrite (updates_S (S n)), (updates_S n).
    destruct (state (update this scene w)) as [[this1 scene1] w1].
    apply IH.
Qed.

Lemma captures_sixFaces target scene eye w :
  captures target
    (mkWorld (targets w) (allocated w)
             (commands w ++ sixFaces target scene eye))
  = S (captures target w).
Proof.
  unfold captures. cbn [commands].
  rewrite List.filter_app, length_app. cbn. rewrite Nat.eqb_refl. cbn. lia.
Qed.

Lemma below_allowance budget n :
  below (allowance budget n) budget = true ->
  allowance budget (S n) = S (allowance budget n).
Proof.
  destruct budget as [|k]; cbn [below allowance]; [reflexivity|].
  intros H. apply Z.ltb_lt in H. lia.
Qed.

Lemma above_allowance budget n :
  below (allowance budget n) budget = false ->
  allowance budget (S n) = allowance budget n.
Proof.
  destruct budget as [|k]; cbn [below allowance]; [discriminate|].
  intros H. apply Z.ltb_ge in H. lia.
Qed.

(** What [n] calls leave, on a renderer that returns: the instance keeps
    its closure and its render target, has counted the calls the budget
    allowed, and as many captures have completed. *)
Lemma updates_state n this scene w :
  (forall c, throws (closureRenderer this) c = false) ->
  count this = 0%nat ->
  let budget := closureFrames this in
  let thisN := fst (fst (updates n this scene w)) in
  let sceneN := snd (fst (updates n this scene w)) in
  let wN := snd (updates n this scene w) in
  closureRenderer thisN = closureRenderer this /\
  closureFrames thisN = budget /\
  THREE.renderTarget (camera thisN) = THREE.renderTarget (camera this) /\
  sceneN = scene /\
  count thisN = allowance budget n /\
  captures (THREE.renderTarget (camera this)) wN
  = (captures (THREE.renderTarget (camera this)) w + allowance budget n)%nat.
Proof.
  intros Hq H0. cbn zeta. induction n as [|n IH].
  - cbn. repeat split; try reflexivity.
    + rewrite H0. now destruct (closureFrames this).
    + destruct (closureFrames this); cbn; lia.
  - rewrite updates_snoc.
    destruct (updates n this scene w) as [[thisN sceneN] wN].
    cbn [fst snd] in IH. destruct IH as (Hr & Hf & Hc & Hs & Hn & Hk).
    destruct (below (count thisN) (closureFrames thisN)) eqn:Hb.
    + rewrite update_captures; [|exact Hb|now rewrite Hr].
      cbn [state fst snd closureRenderer closureFrames camera count
           set_cubeObject3d THREE.renderTarget].
      rewrite Hc, captures_sixFaces, Hk.
      rewrite Hn, Hf in Hb. rewrite (below_allowance _ _ Hb).
      repeat split; try assumption; lia.
    + rewrite update_skips by exact Hb. cbn [state fst snd].
      rewrite Hn, Hf in Hb. rewrite (above_allowance _ _ Hb).
      repeat split; assumption.
Qed.

(** C5.  On a renderer that returns, after [n] calls of [update] a new
    cube camera has counted, and completed, as many captures as its
    budget allows of [n] calls: all [n] when the budget is [Infinity],
    the lesser of [n] and [k] when it is [k].  So [n >= k] calls make
    exactly [k] captures.  The next call captures exactly when the count
    is below the budget, and then adds one to the count and one capture;
    otherwise it is a no-op: instance, scene, store and commands (hence
    the texture) stay as they are.  No call lowers the count. *)
Theorem update_spends_budget renderer props scene w n :
  (forall c, throws renderer c = false) ->
  let budget := default Infinity (frames props) in
  let this0 := fst (CubeCamera renderer props w) in
  let w0 := snd (CubeCamera renderer props w) in
  let thisN := fst (fst (updates n this0 scene w0)) in
  let sceneN := snd (fst (updates n this0 scene w0)) in
  let wN := snd (updates n this0 scene w0) in
  let next := update thisN sceneN wN in
  (count thisN = allowance budget n /\
   captures (fbo this0) wN
   = (captures (fbo this0) w0 + allowance budget n)%nat) /\
  (forall k, budget = Finite (Z.of_nat k) -> (k <= n)%nat ->
     count thisN = k /\
     captures (fbo this0) wN = (captures (fbo this0) w0 + k)%nat /\
     next = Normal (thisN, sceneN, wN)) /\
  (below (count thisN) budget = true ->
     returned next = true /\
     count (fst (fst (state next))) = S (count thisN) /\
     captures (fbo this0) (snd (state next))
     = S (captures (fbo this0) wN)) /\
  (below (count thisN) budget = false -> next = Normal (thisN, sceneN, wN)) /\
  (count thisN <= count (fst (fst (state next))))%nat.
Proof.
  intros Hq. cbn zeta.
  pose proof (updates_state n (fst (CubeCamera renderer props w)) scene
                (snd (CubeCamera renderer props w)) Hq eq_refl) as H.
  cbn zeta in H. destruct H as (Hr & Hf & Hc & Hs & Hn & Hk).
  change (closureFrames (fst (CubeCamera renderer props w)))
    with (default Infinity (frames props)) in *.
  change (THREE.renderTarget (camera (fst (CubeCamera renderer props w))))
    with (fbo (fst (CubeCamera renderer props w))) in *.
  set (budget := default Infinity (frames props)) in *.
  set (run := updates n _ scene _) in *.
  split; [split; assumption|]. split; [|split; [|split]].
  - intros k Hb Hle. rewrite Hn, Hk, Hb. cbn [allowance].
    rewrite Nat2Z.id, Nat.min_r by exact Hle.
    split; [reflexivity|]. split; [reflexivity|].
    apply update_skips. rewrite Hn, Hf, Hb. cbn.
    rewrite Nat2Z.id, Nat.min_r by exact Hle. apply Z.ltb_irrefl.
  - intros Hb. rewrite update_captures; [|now rewrite Hf|now rewrite Hr].
    cbn [returned state fst snd count]. rewrite Hc.
    rewrite captures_sixFaces. repeat split.
  - intros Hb. apply update_skips. now rewrite Hf.
  - apply update_count.
Qed.

Lemma quietRenderer_quiet : forall c, throws quietRenderer c = false.
Proof. reflexivity. Qed.

(** C5, an instance: a budget of two frames and five calls; two captures
    are counted and completed, and the sixth call is a no-op. *)
Lemma update_spends_budget_witness :
  let this0 := fst (CubeCamera quietRenderer
                      (substituteProps (Some (Finite 2))) emptyWorld) in
  let w0 := snd (CubeCamera quietRenderer
                   (substituteProps (Some (Finite 2))) emptyWorld) in
  let run := updates 5 this0 tintedScene w0 in
  count (fst (fst run)) = 2%nat /\
  captures (fbo this0) (snd run) = 2%nat /\
  update (fst (fst run)) (snd (fst run)) (snd run) = Normal run.
Proof.
  cbn zeta.
  destruct (update_spends_budget quietRenderer
              (substituteProps (Some (Finite 2))) tintedScene emptyWorld 5
              quietRenderer_quiet) as (_ & H & _).
  destruct (H 2%nat eq_refl ltac:(lia)) as (Hc & Hk & Hn).
  split; [exact Hc|]. split; [exact Hk|].
  rewrite Hn. now destruct (updates 5 _ _ _) as [[a b] c].
Defined.

(** *** The mutable parameters *)

(** C9.  The budget [update] checks is the one given at construction:
    assigning [params.frames] afterwards changes nothing of what a call
    does (it returns or throws as before, and leaves the same scene,
    store and commands), bar the field itself.  [params.envMap] and
    [params.fog] are read at each capture: on a renderer that returns, a
    call within the budget draws the six faces of the scene with the
    values [params.fog] and [params.envMap] hold at that call in place of
    the scene's fog and background (the scene's own where the field is
    undefined), seen from the cube camera's transform as the capture
    finds or refreshes it. *)
Theorem params_frames_fixed_envMap_fog_read this scene w :
  (forall v,
     let before := update this scene w in
     let after := update (set_params_frames this v) scene w in
     closureFrames (set_params_frames this v) = closureFrames this /\
     returned after = returned before /\
     fst (fst (state after))
     = set_params_frames (fst (fst (state before))) v /\
     snd (fst (state after)) = snd (fst (state before)) /\
     snd (state after) = snd (state before)) /\
  (below (count this) (closureFrames this) = true ->
   (forall c, throws (closureRenderer this) c = false) ->
   forall newEnvMap newFog,
     let this' := set_params_fog (set_params_envMap this newEnvMap) newFog in
     commands (snd (state (update this' scene w)))
     = commands w
       ++ sixFaces (THREE.renderTarget (camera this))
            (mkScene (or_else newFog (THREE.fog scene))
                     (or_else newEnvMap (background scene))
                     (children scene))
            (matrixWorld (refreshed (camera this)))).
Proof.
  split.
  - intros v. cbn zeta. unfold update.
    cbn [set_params_frames set_params closureFrames count params
         closureRenderer camera fbo groupVisible envMap fog].
    destruct (isInfinity _ || below _ _); [|repeat split].
    destruct (cubeCameraUpdate _ _ _ _) as [[c w1]|[c w1]]; repeat split.
  - intros Hb Hq newEnvMap newFog this'.
    rewrite (update_captures this' scene w Hb Hq). reflexivity.
Qed.

(** C9, an instance: a cube camera made with the budget [Infinity] keeps
    capturing after [params.frames] is set to [0], and a background
    assigned to [params.envMap] is the background of the next capture. *)
Lemma params_frames_fixed_envMap_fog_read_witness :
  let this := fst (CubeCamera quietRenderer (substituteProps None)
                              emptyWorld) in
  let w := snd (CubeCamera quietRenderer (substituteProps None) emptyWorld) in
  commands (snd (state (update (set_params_frames this (Some (Finite 0)))
                               tintedScene w)))
  = commands (snd (state (update this tintedScene w))) /\
  commands (snd (state
    (update (set_params_fog (set_params_envMap this (Some 5%nat))
                            (Some 7%nat))
            tintedScene w)))
  = commands w ++ sixFaces 0 (mkScene (Some 7%nat) (Some 5%nat) []) identity.
Proof.
  cbn zeta.
  destruct (params_frames_fixed_envMap_fog_read
              (fst (CubeCamera quietRenderer (substituteProps None)
                               emptyWorld))
              tintedScene
              (snd (CubeCamera quietRenderer (substituteProps None)
                               emptyWorld))) as (Hf & He).
  split.
  - destruct (Hf (Some (Finite 0))) as (_ & _ & _ & _ & Hw). now rewrite Hw.
  - exact (He eq_refl quietRenderer_quiet (Some 5%nat) (Some 7%nat)).
Defined.


(** *** Whatever the renderer does *)




End CubeCameraTheorems.






(** ** Where a pick starts *)
Module PickTheorems.
Import THREE CoreFisheye FisheyeHost Instances THREEFacts FisheyeInvariant
  PickFacts RenderFacts FisheyeTheorems PickGeometry.
Local Open Scope R_scope.

Lemma freshFisheye_invariant :
  invariant (fst freshFisheye) (snd freshFisheye).
Proof. apply (reachable_invariant _ freshFisheye_reachable). Qed.

(** X4.  Where a pick starts.  After a call of [render], from any
    source camera and whether the renderer returned or threw, every pick
    that hits the sphere, at whatever pointer, leaves a ray that starts
    at the translation of the source camera's world matrix (its
    elements 12 to 14), which is the position [render] gave the capture
    camera.  The pick also leaves the normal of the hit, normalized, in
    the projector's scratch. *)
Theorem pick_hit_starts_at_camera this w renderer scene camera raycaster
    pointer hit :
  reachable (this, w) ->
  let this1 := fst (state (render renderer scene camera this w)) in
  intersectSphere
    (ray (setFromCamera raycaster pointer (orthoCamera this1)))
    (sphere (temp this1)) = Some hit ->
  let pick := computeRaycastRayDirection raycaster pointer this1 in
  origin (ray (snd pick)) = setFromMatrixPosition (matrixWorld camera) /\
  origin (ray (snd pick)) = position (cubeObject3d (cubeCamera this1)) /\
  normal (temp (fst pick)) = normalize hit.
Proof.
  intros Hreach this1 Hhit pick.
  pose proof (reachable_invariant _ Hreach) as Hinv. cbn [fst snd] in Hinv.
  pose proof (render_state this w renderer scene camera
                (inv_cube_parent _ _ Hinv)) as Hst.
  cbn zeta in Hst. fold this1 in Hst. destruct Hst as (Hcube & _).
  pose proof (hit_origin this1 raycaster pointer hit Hhit) as Ho.
  fold pick in Ho. rewrite Ho, Hcube.
  cbn [cubeObject3d set_cubeObject3d getWorldPosition snd updateMatrixWorld
       matrixWorld position quaternion scale set_quaternion set_position].
  rewrite setFromMatrixPosition_compose.
  split; [reflexivity|]. split; [reflexivity|].
  subst pick. unfold computeRaycastRayDirection. rewrite Hhit.
  destruct (getWorldPosition (cubeObject3d (cubeCamera this1))) as [o pos].
  reflexivity.
Qed.

(** X4, an instance: after the first frame of the fresh projector, seen
    from [(1, 2, 3)], the pick at the centre hits and starts at
    [(1, 2, 3)]. *)
Lemma pick_hit_starts_at_camera_witness :
  origin (ray (snd (computeRaycastRayDirection newRaycaster (mkVector2 0 0)
                                               (fst firstFrame))))
  = mkVector3 1 2 3.
Proof.
  destruct (centre_hit (fst firstFrame) (snd firstFrame) newRaycaster
              (reachable_invariant _ firstFrame_reachable))
    as (hit & Hhit & _).
  exact (proj1 (pick_hit_starts_at_camera (fst freshFisheye)
                  (snd freshFisheye) quietRenderer emptyScene
                  (cameraAt (mkVector3 1 2 3)) newRaycaster (mkVector2 0 0)
                  hit freshFisheye_reachable Hhit)).
Defined.



End PickTheorems.


(** ** Frames and render targets over the life of a projector *)
Module FrameTheorems.
Import THREE CoreFisheye FisheyeHost Instances THREEFacts FisheyeInvariant
  RenderFacts FisheyeTheorems FrameFacts.

Lemma lostRenderer_throws scene camera this w :
  returned (render lostRenderer scene camera this w) = false.
Proof.
  unfold render. destruct (decompose (matrixWorld camera)) as [[t1 r1] s1].
  reflexivity.
Qed.

(** The draws a frame adds, counted. *)
Lemma render_added this w renderer scene camera :
  parent (cubeCamera this) = NoParent ->
  let c := render renderer scene camera this w in
  let n := (List.length (commands (snd (state c)))
            - List.length (commands w))%nat in
  (n <= 7)%nat /\
  (returned c = true -> n = 7%nat) /\
  targets (snd (state c))
  = if (n <? 5)%nat
    then targets (set_generateMipmaps (THREE.renderTarget (cubeCamera this))
                                      false w)
    else targets w.
Proof.
  intros Hp. cbn zeta.
  destruct (render_run this renderer scene camera)
    as (ok & this1 & added & Hok & Hrun).
  pose proof (render_commands this w renderer scene camera Hp) as Hcmd.
  cbn zeta in Hcmd. rewrite Hrun in *.
  assert (Hlen : (List.length (commands w ++ added)
                  - List.length (commands w))%nat = List.length added)
    by (rewrite length_app; lia).
  destruct ok; cbn [state fst snd returned commands targets] in *;
    rewrite Hlen.
  - apply (f_equal (@List.length Command)) in Hcmd.
    rewrite !length_app in Hcmd. cbn in Hcmd.
    repeat split; try reflexivity; lia.
  - destruct Hcmd as (n & Hn & Hcmd).
    apply (f_equal (@List.length Command)) in Hcmd.
    rewrite !length_app, length_take in Hcmd. cbn in Hcmd.
    repeat split; try reflexivity; try discriminate; lia.
Qed.
Local Open Scope R_scope.



(** X9.  A pick between two frames changes nothing of the next frame:
    [render] returns or throws as it would have, draws the same, and
    leaves the capture camera, the sphere and the orthographic camera the
    same.  (What a pick writes to the projector is the scratch normal,
    the scratch normal matrix and the world matrix of the capture camera,
    which the frame recomputes.) *)
Theorem pick_leaves_next_frame this w0 raycaster pointer renderer scene
    camera w :
  reachable (this, w0) ->
  let picked := fst (computeRaycastRayDirection raycaster pointer this) in
  let frame := render renderer scene camera this w in
  let frame' := render renderer scene camera picked w in
  returned frame' = returned frame /\
  snd (state frame') = snd (state frame) /\
  cubeCamera (fst (state frame')) = cubeCamera (fst (state frame)) /\
  sphereMesh (fst (state frame')) = sphereMesh (fst (state frame)) /\
  orthoCamera (fst (state frame')) = orthoCamera (fst (state frame)).
Proof.
  intros Hreach picked frame frame'.
  pose proof (reachable_invariant _ Hreach) as Hinv. cbn [fst snd] in Hinv.
  pose proof (inv_cube_parent _ _ Hinv) as Hp.
  subst picked frame frame'. unfold computeRaycastRayDirection.
  destruct (intersectSphere _ _) as [hit|]; [|repeat split].
  cbn [fst getWorldPosition]. unfold render.
  cbn [temp cubeCamera sphereMesh orthoCamera e].
  destruct (decompose (matrixWorld camera)) as [[t1 r1] s1].
  unfold cubeCameraUpdate, refreshed.
  cbn -[renderFaces set_generateMipmaps get_generateMipmaps].
  rewrite Hp. cbn -[renderFaces set_generateMipmaps get_generateMipmaps].
  destruct (renderFaces _ _ _ _ _ _) as [w1|w1]; [|repeat split].
  destruct (renderFaces _ _ _ _ _ _) as [w2|w2]; [|repeat split].
  unfold rendererRender. destruct (throws renderer _); repeat split.
Qed.

(** X9, an instance: after the first frame, the pick at the centre does
    not change the draws of a frame seen from [(4, 5, 6)]. *)
Lemma pick_leaves_next_frame_witness :
  snd (state (render quietRenderer emptyScene (cameraAt (mkVector3 4 5 6))
                (fst (computeRaycastRayDirection newRaycaster
                        (mkVector2 0 0) (fst firstFrame)))
                (snd firstFrame)))
  = snd (state (render quietRenderer emptyScene (cameraAt (mkVector3 4 5 6))
                  (fst firstFrame) (snd firstFrame))).
Proof.
  exact (proj1 (proj2
    (pick_leaves_next_frame (fst firstFrame) (snd firstFrame) newRaycaster
       (mkVector2 0 0) quietRenderer emptyScene (cameraAt (mkVector3 4 5 6))
       (snd firstFrame) firstFrame_reachable))).
Defined.

(** X10.  After [updateResolution(r)], whether it replaced the render
    target or returned at once, the projector's current render target
    has resolution [r], has [isRenderTargetTexture] off and is not
    disposed; when the call replaced it, the new one generates mipmaps
    (the one kept may have them off, after a capture that threw).  The
    field [resolution] of the projector is not written: it keeps the
    value it had, whatever [r] is.  A second call with the same [r]
    changes nothing. *)
Theorem updateResolution_sets_width this w res :
  reachable (this, w) ->
  let this1 := fst (updateResolution res this w) in
  let w1 := snd (updateResolution res this w) in
  (exists rt,
     targets w1 !! renderTarget this1 = Some rt /\
     width rt = res /\
     isRenderTargetTexture rt = false /\
     disposed rt = false /\
     (renderTarget this1 <> renderTarget this ->
      generateMipmaps rt = true)) /\
  resolution this1 = resolution this /\
  updateResolution res this1 w1 = (this1, w1).
Proof.
  intros Hreach this1 w1.
  destruct (updateResolution_target this w res Hreach)
    as (rt & Ht & Hw & Hi & Hd & Hm).
  fold this1 w1 in Ht, Hm.
  split; [exists rt; repeat split; assumption|].
  split; [apply updateResolution_field|].
  unfold updateResolution at 1. rewrite Ht, Hw.
  now rewrite Z.eqb_refl.
Qed.

(** X10, an instance: the fresh projector, asked for 512, has a current
    target of 512 while its field still reads 896. *)
Lemma updateResolution_sets_width_witness :
  let this1 := fst (updateResolution 512 (fst freshFisheye)
                                     (snd freshFisheye)) in
  let w1 := snd (updateResolution 512 (fst freshFisheye)
                                  (snd freshFisheye)) in
  (exists rt,
     targets w1 !! renderTarget this1 = Some rt /\
     width rt = 512%Z /\
     isRenderTargetTexture rt = false /\
     disposed rt = false /\
     (renderTarget this1 <> renderTarget (fst freshFisheye) ->
      generateMipmaps rt = true)) /\
  resolution this1 = 896%Z.
Proof.
  destruct (updateResolution_sets_width (fst freshFisheye)
              (snd freshFisheye) 512 freshFisheye_reachable) as (Ht & Hf & _).
  split; [exact Ht | exact Hf].
Defined.

(** X11.  Over any run of a projector, from its construction on: the
    current render target is one the projector created, and it is alive;
    every other render target the projector created has been disposed;
    the render targets the store held before the projector was made are
    as they were.  No call leaks a render target or touches one that is
    not the projector's. *)
Theorem targets_owned_and_released props w0 this w :
  validProps props -> wellFormed w0 ->
  rtc step (constructor props w0) (this, w) ->
  (allocated w0 <= renderTarget this < allocated w)%nat /\
  (exists rt, targets w !! renderTarget this = Some rt /\
              disposed rt = false) /\
  (forall k, (k < allocated w0)%nat -> targets w !! k = targets w0 !! k) /\
  (forall k rt, (allocated w0 <= k)%nat -> k <> renderTarget this ->
                targets w !! k = Some rt -> disposed rt = true).
Proof.
  intros Hp Hwf Hrun.
  change this with (fst (this, w)). change w with (snd (this, w)).
  apply (rtc_ind_r (R := step)
    (fun st =>
       (allocated w0 <= renderTarget (fst st) < allocated (snd st))%nat /\
       (exists rt, targets (snd st) !! renderTarget (fst st) = Some rt /\
                   disposed rt = false) /\
       (forall k, (k < allocated w0)%nat ->
                  targets (snd st) !! k = targets w0 !! k) /\
       (forall k rt, (allocated w0 <= k)%nat -> k <> renderTarget (fst st) ->
                     targets (snd st) !! k = Some rt -> disposed rt = true))
    (constructor props w0)); [| |exact Hrun]; clear this w Hrun.
  - unfold constructor.
    pose proof (createRenderTarget_spec
                  (default 896%Z (props_resolution props)) w0 Hwf) as H.
    destruct (createRenderTarget _ w0) as [rt w1] eqn:Hc. cbn in H.
    destruct H as (Hrt & Hnew & Hother & _ & _).
    cbn [fst snd renderTarget onResize]. subst rt.
    assert (Ha : allocated w1 = S (allocated w0)).
    { unfold createRenderTarget, newWebGLCubeRenderTarget in Hc.
      cbn in Hc. injection Hc as <-. reflexivity. }
    split; [lia|]. split; [eexists; split; [exact Hnew | reflexivity]|].
    split.
    + intros k Hk. apply Hother. lia.
    + intros k rt Hk Hne. rewrite Hother by exact Hne.
      rewrite Hwf by exact Hk. discriminate.
  - intros st st' Hrun Hstep IH.
    pose proof (run_reachable _ _ _ Hp Hwf Hrun) as Hreach.
    pose proof (reachable_invariant _ Hreach) as Hinv.
    destruct IH as (Hrange & Hlive & Hold & Hrel).
    destruct (step_targets _ _ Hstep Hinv)
      as [(Hrt & Hsame) |
          (res & current & Hcur & Hrt & Ha & Hnew & Hdis & Hother)].
    + pose proof (sameButMipmaps_live _ _ _ Hsame Hlive) as Hlive'.
      destruct Hsame as (Ha & Hk & _).
      rewrite Hrt, Ha. split; [lia|]. split; [exact Hlive'|]. split.
      * intros k Hlt. rewrite Hk by lia. now apply Hold.
      * intros k rt Hle Hne. rewrite Hk by exact Hne. now apply Hrel.
    + rewrite Hrt, Ha. split; [lia|].
      split; [eexists; split; [exact Hnew | reflexivity]|]. split.
      * intros k Hk. rewrite Hother by lia. now apply Hold.
      * intros k rt Hk Hne.
        destruct (decide (k = renderTarget (fst st))) as [->|Hne'].
        -- rewrite Hdis. intros E. injection E as <-. reflexivity.
        -- rewrite Hother by assumption. now apply Hrel.
Qed.

(** X11, an instance: once the fresh projector has gone from 896 to 512,
    its current render target is key [1], alive, and key [0] is left
    disposed. *)
Lemma targets_owned_and_released_witness :
  let this1 := fst (updateResolution 512 (fst freshFisheye)
                                     (snd freshFisheye)) in
  let w1 := snd (updateResolution 512 (fst freshFisheye)
                                  (snd freshFisheye)) in
  (0 <= renderTarget this1 < allocated w1)%nat /\
  (exists rt, targets w1 !! renderTarget this1 = Some rt /\
              disposed rt = false) /\
  (forall k, (k < 0)%nat -> targets w1 !! k = targets emptyWorld !! k) /\
  (forall k rt, (0 <= k)%nat -> k <> renderTarget this1 ->
                targets w1 !! k = Some rt -> disposed rt = true).
Proof.
  exact (targets_owned_and_released defaultProps emptyWorld
           (fst (updateResolution 512 (fst freshFisheye)
                                  (snd freshFisheye)))
           (snd (updateResolution 512 (fst freshFisheye)
                                  (snd freshFisheye)))
           I emptyWorld_wellFormed
           (rtc_once _ _ (step_updateResolution (fst freshFisheye)
                            (snd freshFisheye) 512))).
Defined.

(** X16.  The second pass draws the sphere that picks are tested
    against.  A frame that returns logs the six faces and then one draw
    of the sphere mesh: textured with the projector's render target,
    scaled by the cached radius about the origin, seen by a camera 100
    units up the Z axis, through the orthographic projection of the
    viewport at one hundredth of its size.  The cached sphere has the
    same centre and radius. *)
Theorem render_draws_the_picked_sphere this w renderer scene camera :
  reachable (this, w) ->
  returned (render renderer scene camera this w) = true ->
  let c := render renderer scene camera this w in
  let rad := radius (sphere (temp this)) in
  let ra := right (orthoCamera this) / 100 in
  let tb := top (orthoCamera this) / 100 in
  let eye := matrixWorld (cubeObject3d (cubeCamera (fst (state c)))) in
  commands (snd (state c))
  = commands w
    ++ sixFaces (renderTarget this) scene eye
    ++ [RenderMesh (Some (renderTarget this))
          (mkMatrix4 rad 0 0 0  0 rad 0 0  0 0 rad 0  0 0 0 1)
          (mkMatrix4 1 0 0 0  0 1 0 0  0 0 1 0  0 0 (-100) 1)
          (makeOrthographic (- ra) ra tb (- tb) 0.1 2000)] /\
  center (sphere (temp this)) = mkVector3 0 0 0 /\
  0 < rad.
Proof.
  intros Hreach Hret c rad ra tb eye.
  pose proof (reachable_invariant _ Hreach) as Hinv. cbn [fst snd] in Hinv.
  pose proof (render_commands this w renderer scene camera
                (inv_cube_parent _ _ Hinv)) as Hcmd.
  cbn zeta in Hcmd. fold c in Hcmd. subst c. rewrite Hret in Hcmd.
  destruct (inv_same_texture _ _ Hinv) as (Hrt & Henv).
  rewrite Hrt, Henv in Hcmd.
  split; [|split; [apply Hinv|apply Hinv]].
  rewrite Hcmd.
  pose proof (reachable_mesh_position _ Hreach) as Hmp. cbn [fst] in Hmp.
  unfold updateMatrixWorld. cbn [matrixWorld].
  rewrite Hmp, (inv_mesh_quaternion _ _ Hinv), (inv_mesh_scale _ _ Hinv).
  unfold setScalar. rewrite compose_scaling.
  rewrite (inv_ortho_position _ _ Hinv), (inv_ortho_quaternion _ _ Hinv),
    (inv_ortho_scale _ _ Hinv).
  fold orthoWorld. rewrite invert_orthoWorld.
  rewrite (projectionMatrix_onResize this w Hinv). reflexivity.
Qed.

(** X16, an instance: the first frame of the fresh projector. *)
Lemma render_draws_the_picked_sphere_witness :
  let rad := radius (sphere (temp (fst freshFisheye))) in
  let ra := right (orthoCamera (fst freshFisheye)) / 100 in
  let tb := top (orthoCamera (fst freshFisheye)) / 100 in
  let eye := matrixWorld (cubeObject3d (cubeCamera (fst firstFrame))) in
  commands (snd firstFrame)
  = commands (snd freshFisheye)
    ++ sixFaces (renderTarget (fst freshFisheye)) emptyScene eye
    ++ [RenderMesh (Some (renderTarget (fst freshFisheye)))
          (mkMatrix4 rad 0 0 0  0 rad 0 0  0 0 rad 0  0 0 0 1)
          (mkMatrix4 1 0 0 0  0 1 0 0  0 0 1 0  0 0 (-100) 1)
          (makeOrthographic (- ra) ra tb (- tb) 0.1 2000)] /\
  center (sphere (temp (fst freshFisheye))) = mkVector3 0 0 0 /\
  0 < rad.
Proof.
  exact (render_draws_the_picked_sphere (fst freshFisheye)
           (snd freshFisheye) quietRenderer emptyScene
           (cameraAt (mkVector3 1 2 3)) freshFisheye_reachable
           (quietRenderer_returns _ _ _ _)).
Defined.

(** X19.  What a frame does to the mipmaps of the render target.  The
    capture switches them off, draws five faces, switches them back to
    what they were and draws the sixth.  So a frame adds at most seven
    draws (seven when it returns), and leaves the render target as it
    was when at least five were added; a frame that threw before its
    fifth face was drawn leaves the mipmaps off.  Nothing switches them
    back on: off they stay through every later call on the projector
    that keeps the render target. *)
Theorem interrupted_capture_leaves_mipmaps_off this w renderer scene camera :
  reachable (this, w) ->
  let c := render renderer scene camera this w in
  let n := (List.length (commands (snd (state c)))
            - List.length (commands w))%nat in
  ((n <= 7)%nat /\ (returned c = true -> n = 7%nat)) /\
  renderTarget (fst (state c)) = renderTarget this /\
  get_generateMipmaps (renderTarget this) (snd (state c))
  = (if (n <? 5)%nat then false
     else get_generateMipmaps (renderTarget this) w) /\
  forall st st',
    reachable st -> step st st' ->
    renderTarget (fst st') = renderTarget (fst st) ->
    get_generateMipmaps (renderTarget (fst st)) (snd st) = false ->
    get_generateMipmaps (renderTarget (fst st')) (snd st') = false.
Proof.
  intros Hreach c n.
  pose proof (reachable_invariant _ Hreach) as Hinv. cbn [fst snd] in Hinv.
  pose proof (inv_cube_parent _ _ Hinv) as Hp.
  pose proof (proj1 (inv_same_texture _ _ Hinv)) as Hrt.
  pose proof (render_added this w renderer scene camera Hp) as Ha.
  pose proof (render_keeps this renderer scene camera w Hp) as Hk.
  cbn zeta in Ha, Hk. fold c in Ha, Hk. fold n in Ha.
  destruct Ha as (Hn & Hr & Ht). rewrite Hrt in Ht.
  destruct Hk as ((_ & _ & _ & Hkeep) & _).
  split; [split; assumption|]. split; [exact Hkeep|]. split.
  - unfold get_generateMipmaps at 1. rewrite Ht.
    destruct (n <? 5)%nat; [|reflexivity].
    rewrite lookup_set_generateMipmaps.
    destruct (decide (renderTarget this = renderTarget this));
      [|congruence].
    now destruct (targets w !! renderTarget this).
  - intros st st' Hst Hstep Hsame Hoff.
    pose proof (reachable_invariant _ Hst) as Hinvs.
    destruct (step_targets _ _ Hstep Hinvs)
      as [(_ & _ & _ & Hid) | (res & current & Hcur & Hnew & _)].
    + rewrite Hsame. unfold get_generateMipmaps in *.
      destruct Hid as [-> | ->]; [exact Hoff|].
      now destruct (targets (snd st) !! renderTarget (fst st)).
    + exfalso. rewrite Hnew in Hsame.
      assert (Hwf : wellFormed (snd st)) by apply Hinvs.
      rewrite <- Hsame, (Hwf (allocated (snd st))) in Hcur by lia.
      discriminate.
Qed.

(** X19, an instance: a frame of the fresh projector on a renderer that
    throws at once leaves the render target, which generated mipmaps,
    with its mipmaps off. *)
Lemma interrupted_capture_leaves_mipmaps_off_witness :
  get_generateMipmaps 0 (snd freshFisheye) = true /\
  get_generateMipmaps 0
    (snd (state (render lostRenderer emptyScene
                        (cameraAt (mkVector3 1 2 3)) (fst freshFisheye)
                        (snd freshFisheye)))) = false.
Proof.
  destruct (interrupted_capture_leaves_mipmaps_off (fst freshFisheye)
              (snd freshFisheye) lostRenderer emptyScene
              (cameraAt (mkVector3 1 2 3)) freshFisheye_reachable)
    as ((Hn & _) & _ & Hm & _).
  split; [reflexivity|].
  change (renderTarget (fst freshFisheye)) with 0%nat in Hm.
  rewrite Hm.
  pose proof (render_commands (fst freshFisheye) (snd freshFisheye)
                lostRenderer emptyScene (cameraAt (mkVector3 1 2 3))
                eq_refl) as Hc.
  cbn zeta in Hc. rewrite lostRenderer_throws in Hc.
  destruct Hc as (k & Hk & Hc).
  assert (H0 : k = 0%nat).
  { destruct k as [|k]; [reflexivity|exfalso].
    revert Hc. unfold render, cubeCameraUpdate.
    destruct (decompose (matrixWorld (cameraAt (mkVector3 1 2 3))))
      as [[t1 r1] s1].
    cbn. intros Hc. apply (f_equal (@List.length Command)) in Hc.
    cbn in Hc. lia. }
  subst k. rewrite Hc. cbn [take]. rewrite app_nil_r, Nat.sub_diag.
  reflexivity.
Defined.

End FrameTheorems.


(** ** The story of the projector *)
Module StoryTheorems.
Import THREE CoreFisheye FisheyeHost Instances THREEFacts FisheyeInvariant
  PickFacts RenderFacts FisheyeTheorems PickGeometry FrameFacts.
Import FisheyeStories FisheyeStoriesHost.
Local Open Scope R_scope.

Lemma quotient_in_unit a b : 0 < b -> 0 <= a <= b -> 0 <= a / b <= 1.
Proof.
  intros Hb Ha. assert (0 < / b) by now apply Rinv_0_lt_compat.
  assert (b * / b = 1) by (apply Rinv_r; lra).
  unfold Rdiv. split; nra.
Qed.

(** A render target of resolution [res], alive, keeps that through a
    capture. *)
Lemma sized_sameButMipmaps id w w' res :
  sameButMipmaps id w w' ->
  (exists rt, targets w !! id = Some rt /\ THREE.width rt = res /\
              isRenderTargetTexture rt = false /\ disposed rt = false) ->
  exists rt, targets w' !! id = Some rt /\ THREE.width rt = res /\
             isRenderTargetTexture rt = false /\ disposed rt = false.
Proof.
  intros (_ & _ & Hid) (rt & Hl & Hw & Hi & Hd).
  destruct Hid as [-> | ->].
  - now exists rt.
  - rewrite Hl. exists (mipmapsOff rt). repeat split; assumption.
Qed.

(** In step: the sphere and the frustum are those of the window and of
    the [zoom] field, the render target that of the [resolution] field.
    The story, through all its events, keeps a reachable projector in
    step. *)
Lemma story_invariant setFromSetupCamera window0 w0 st :
  0 < innerWidth window0 -> 0 < innerHeight window0 -> wellFormed w0 ->
  rtc (event setFromSetupCamera)
      (mkStory (fst (FisheyeStory window0 w0)) window0,
       snd (FisheyeStory window0 w0)) st ->
  let f := fisheye (fst st) in
  let width := innerWidth (window (fst st)) in
  let height := innerHeight (window (fst st)) in
  let rad := sqrt (width * width + height * height) / 100
             * (0.5 + CoreFisheye.zoom f / 2) in
  reachable (f, snd st) /\
  (0 < width /\ 0 < height) /\
  (radius (sphere (temp f)) = rad /\
   scale (meshObject3d (sphereMesh f)) = mkVector3 rad rad rad /\
   right (orthoCamera f) = width / 2 /\
   top (orthoCamera f) = height / 2) /\
  exists rt, targets (snd st) !! renderTarget f = Some rt /\
             THREE.width rt = CoreFisheye.resolution f /\
             isRenderTargetTexture rt = false /\ disposed rt = false.
Proof.
  intros Hw Hh Hwf Hrun.
  apply (rtc_ind_r (R := event setFromSetupCamera)
    (fun st =>
       let f := fisheye (fst st) in
       let width := innerWidth (window (fst st)) in
       let height := innerHeight (window (fst st)) in
       let rad := sqrt (width * width + height * height) / 100
                  * (0.5 + CoreFisheye.zoom f / 2) in
       reachable (f, snd st) /\
       (0 < width /\ 0 < height) /\
       (radius (sphere (temp f)) = rad /\
        scale (meshObject3d (sphereMesh f)) = mkVector3 rad rad rad /\
        right (orthoCamera f) = width / 2 /\
        top (orthoCamera f) = height / 2) /\
       exists rt, targets (snd st) !! renderTarget f = Some rt /\
                  THREE.width rt = CoreFisheye.resolution f /\
                  isRenderTargetTexture rt = false /\ disposed rt = false)
    (mkStory (fst (FisheyeStory window0 w0)) window0,
     snd (FisheyeStory window0 w0))); [| |exact Hrun]; cbn zeta.
  - unfold FisheyeStory, onWindowResize.
    set (props := mkFisheyeProps _ _ _).
    assert (Hr : reachable (constructor props w0)).
    { apply reachable_constructor; [|exact Hwf]. unfold validProps. cbn. lra. }
    pose proof (createRenderTarget_spec
                  (FisheyeStories.resolution params) w0 Hwf) as H.
    unfold constructor in *.
    cbn [props props_resolution props_zoom props_segments default] in *.
    destruct (createRenderTarget _ w0) as [rt w1]. cbn in H.
    destruct H as (_ & Hnew & _). cbn [fst snd fisheye window].
    split; [|split; [split; assumption|split; [repeat split|]]];
      [|eexists; split; [exact Hnew|repeat split]].
    apply reachable_step with (2 := step_onResize _ _ _ _ Hw Hh). exact Hr.
  - intros y z _ Hev (Hy & (Hpw & Hph) & (Hrad & Hsc & Hri & Hto) & Htg).
    destruct Hev as [story w window' Hw' Hh' | story w value window' Hv Hw' Hh'
                     | story w value Hv | story w renderer scene cam
                     | story w now pe de pa pk];
      cbn [fst snd fisheye window] in *.
    + split; [|split; [split; assumption|split; [repeat split|exact Htg]]].
      apply reachable_step with (st := (fisheye story, w)); [exact Hy|].
      now apply step_onResize.
    + split; [|split; [split; assumption|split; [repeat split|exact Htg]]].
      apply reachable_step
        with (st := (set_zoom (fisheye story) value, w)).
      * apply reachable_step with (st := (fisheye story, w)); [exact Hy|].
        now apply step_zoom.
      * now apply step_onResize.
    + assert (Hr1 : reachable (set_resolution (fisheye story) value, w)).
      { apply reachable_step with (st := (fisheye story, w)); [exact Hy|].
        apply step_resolution. }
      unfold onResolutionChange.
      destruct (updateResolution_keeps (set_resolution (fisheye story) value)
                  w value) as (Kz & Kt & Km & Ko).
      rewrite Kz, Kt, Km, Ko, updateResolution_field.
      split; [now apply updateResolution_reachable|].
      split; [split; assumption|].
      split; [repeat split; assumption|].
      destruct (updateResolution_target _ w value Hr1)
        as (rt & Hl & Hwd & Hi & Hd & _).
      exists rt. repeat split; assumption.
    + pose proof (reachable_invariant _ Hy) as Hinv. cbn [fst snd] in Hinv.
      pose proof (render_keeps (fisheye story) renderer scene cam w
                    (inv_cube_parent _ _ Hinv)) as K.
      pose proof (render_store (fisheye story) w renderer scene cam) as S.
      cbn zeta in K, S.
      destruct K as ((Kr & _ & Kz & Kt) & (_ & Ks & _) & (_ & _ & _ & _ & Kms)
                     & (Ko & _) & _).
      rewrite (proj1 (inv_same_texture _ _ Hinv)) in S.
      pose proof (sized_sameButMipmaps _ _ _ _ S Htg) as Htg'.
      rewrite Kr, Kz, Kt, Ks, Kms.
      assert (Hor : right (orthoCamera (fst (state (render renderer scene cam
                                                      (fisheye story) w))))
                    = right (orthoCamera (fisheye story)))
        by (rewrite <- Ko; reflexivity).
      assert (Hot : top (orthoCamera (fst (state (render renderer scene cam
                                                    (fisheye story) w))))
                    = top (orthoCamera (fisheye story)))
        by (rewrite <- Ko; reflexivity).
      rewrite Hor, Hot.
      split; [|split; [split; assumption|
                       split; [repeat split; assumption|exact Htg']]].
      apply reachable_step with (st := (fisheye story, w)); [exact Hy|].
      destruct (state (render renderer scene cam (fisheye story) w)) eqn:E.
      cbn [fst snd]. rewrite <- E. apply step_render.
    + assert (Hpick : forall rc ptr,
                let f1 := fst (computeRaycastRayDirection rc ptr
                                                          (fisheye story)) in
                reachable (f1, w) /\
                (0 < innerWidth (window story)
                 /\ 0 < innerHeight (window story)) /\
                (radius (sphere (temp f1))
                 = sqrt (innerWidth (window story) * innerWidth (window story)
                         + innerHeight (window story)
                           * innerHeight (window story)) / 100
                   * (0.5 + CoreFisheye.zoom f1 / 2) /\
                 scale (meshObject3d (sphereMesh f1))
                 = mkVector3
                     (sqrt (innerWidth (window story)
                            * innerWidth (window story)
                            + innerHeight (window story)
                              * innerHeight (window story)) / 100
                      * (0.5 + CoreFisheye.zoom f1 / 2))
                     (sqrt (innerWidth (window story)
                            * innerWidth (window story)
                            + innerHeight (window story)
                              * innerHeight (window story)) / 100
                      * (0.5 + CoreFisheye.zoom f1 / 2))
                     (sqrt (innerWidth (window story)
                            * innerWidth (window story)
                            + innerHeight (window story)
                              * innerHeight (window story)) / 100
                      * (0.5 + CoreFisheye.zoom f1 / 2)) /\
                 right (orthoCamera f1) = innerWidth (window story) / 2 /\
                 top (orthoCamera f1) = innerHeight (window story) / 2) /\
                exists rt, targets w !! renderTarget f1 = Some rt /\
                           THREE.width rt = CoreFisheye.resolution f1 /\
                           isRenderTargetTexture rt = false /\
                           disposed rt = false).
      { intros rc ptr. cbn zeta.
        destruct (pick_keeps (fisheye story) rc ptr)
          as (Kz & Kr & Kt & Ks & Km & Ko).
        rewrite Kz, Kr, Kt, Ks, Km, Ko.
        split; [|split; [split; assumption|
                         split; [repeat split; assumption|exact Htg]]].
        apply reachable_step with (st := (fisheye story, w)); [exact Hy|].
        apply step_pick. }
      unfold pointerup.
      destruct (ltb _ 200);
        [|split; [exact Hy|split; [split; assumption|
                  split; [repeat split; assumption|exact Htg]]]].
      destruct (fisheyeEnabled pa);
        [|split; [exact Hy|split; [split; assumption|
                  split; [repeat split; assumption|exact Htg]]]].
      match goal with
      | |- context [computeRaycastRayDirection ?rc ?ptr ?f] =>
          specialize (Hpick rc ptr); cbn zeta in Hpick;
          destruct (computeRaycastRayDirection rc ptr f); exact Hpick
      end.
Qed.

(** X12.  The story keeps its projector in step.  From the set-up of
    [FisheyeStory] on, after whatever resizes of the window, moves of
    the two sliders, frames and pointer events: the sphere (its cached
    radius and the scale of its mesh) is the one of the window as last
    read and of the projector's [zoom] field, the frustum is that of the
    window, and the current render target is alive and has the
    resolution of the projector's [resolution] field.  Both handlers of
    the sliders assign the field and then call the method that puts it
    to work, so the lag between a field and what is drawn never outlasts
    a handler. *)
Theorem story_keeps_projector_in_step setFromSetupCamera window0 w0 story w :
  0 < innerWidth window0 -> 0 < innerHeight window0 -> wellFormed w0 ->
  rtc (event setFromSetupCamera)
      (mkStory (fst (FisheyeStory window0 w0)) window0,
       snd (FisheyeStory window0 w0)) (story, w) ->
  let f := fisheye story in
  let width := innerWidth (window story) in
  let height := innerHeight (window story) in
  let rad := sqrt (width * width + height * height) / 100
             * (0.5 + CoreFisheye.zoom f / 2) in
  (radius (sphere (temp f)) = rad /\
   scale (meshObject3d (sphereMesh f)) = mkVector3 rad rad rad /\
   right (orthoCamera f) = width / 2 /\
   top (orthoCamera f) = height / 2) /\
  exists rt, targets w !! renderTarget f = Some rt /\
             THREE.width rt = CoreFisheye.resolution f /\
             isRenderTargetTexture rt = false /\ disposed rt = false.
Proof.
  intros Hw Hh Hwf Hrun.
  destruct (story_invariant setFromSetupCamera window0 w0 (story, w)
              Hw Hh Hwf Hrun) as (_ & _ & Hs & Ht).
  split; [exact Hs | exact Ht].
Qed.

(** X12, an instance: the story is set up in a window of 800 by 600 and
    the resolution slider is moved to 512; the radius is still that of
    the window at zoom [0], and the current target has 512 texels. *)
Lemma story_keeps_projector_in_step_witness :
  let start := FisheyeStory (mkWindow 800 600) emptyWorld in
  let moved := onResolutionChange 512 (fst start) (snd start) in
  radius (sphere (temp (fst moved)))
  = sqrt (800 * 800 + 600 * 600) / 100
    * (0.5 + CoreFisheye.zoom (fst moved) / 2) /\
  CoreFisheye.resolution (fst moved) = 512%Z /\
  exists rt, targets (snd moved) !! renderTarget (fst moved) = Some rt /\
             THREE.width rt = CoreFisheye.resolution (fst moved) /\
             isRenderTargetTexture rt = false /\ disposed rt = false.
Proof.
  assert (Hw : 0 < 800) by lra.
  assert (Hh : 0 < 600) by lra.
  assert (Hv : (256 <= 512 <= 1024)%Z) by lia.
  destruct (story_keeps_projector_in_step (fun rc _ => rc)
              (mkWindow 800 600) emptyWorld _ _ Hw Hh emptyWorld_wellFormed
              (rtc_once _ _
                 (event_resolution (fun rc _ => rc)
                    (mkStory (fst (FisheyeStory (mkWindow 800 600)
                                                emptyWorld))
                             (mkWindow 800 600))
                    (snd (FisheyeStory (mkWindow 800 600) emptyWorld))
                    512 Hv)))
    as ((Hrad & _) & Ht).
  split; [exact Hrad|]. split; [reflexivity | exact Ht].
Defined.

(** X13.  A click of the story.  With the projector enabled, a pointer
    released inside the canvas less than 200 ms after it was pressed is
    turned into a pointer of [[-1, 1] x [-1, 1]] (the centre of the
    canvas into [(0, 0)], its top left corner into [(-1, 1)]) and handed
    to [computeRaycastRayDirection] with the story's raycaster.  When
    the ray through it meets the sphere, the raycaster is left with a
    ray that starts at the capture camera; when it does not, the
    projector is left as it was and the raycaster with the orthographic
    camera's ray through the pointer.  A pointer released 200 ms or more
    after it was pressed changes nothing: not the raycaster, not the
    pointer, not the projector. *)
Theorem click_in_canvas_picks setFromSetupCamera this w now event domElement
    params s :
  reachable (this, w) ->
  fisheyeEnabled params = true ->
  0 < clientWidth domElement -> 0 < clientHeight domElement ->
  0 <= offsetX event <= clientWidth domElement ->
  0 <= offsetY event <= clientHeight domElement ->
  let after := pointerup setFromSetupCamera now event domElement params
                         this s in
  let orthographic :=
    setFromCamera (raycaster s) (pointer (snd after)) (orthoCamera this) in
  (now - pointerDownTime s < 200 ->
   (pointer (snd after)
    = mkVector2 (2 * offsetX event / clientWidth domElement - 1)
                (1 - 2 * offsetY event / clientHeight domElement) /\
    -1 <= px (pointer (snd after)) <= 1 /\
    -1 <= py (pointer (snd after)) <= 1) /\
   (fst after, raycaster (snd after))
   = computeRaycastRayDirection (raycaster s) (pointer (snd after)) this /\
   (forall hit,
      intersectSphere (ray orthographic) (sphere (temp this)) = Some hit ->
      origin (ray (raycaster (snd after)))
      = snd (getWorldPosition (cubeObject3d (cubeCamera this)))) /\
   (intersectSphere (ray orthographic) (sphere (temp this)) = None ->
    fst after = this /\ raycaster (snd after) = orthographic)) /\
  (200 <= now - pointerDownTime s -> after = (this, s)).
Proof.
  intros Hreach Hen Hw Hh Hx Hy after orthographic.
  subst orthographic after. unfold pointerup. rewrite Hen. split.
  - intros Ht. rewrite ltb_true by exact Ht.
    set (x := offsetX event / clientWidth domElement * 2 - 1).
    set (y := - (offsetY event / clientHeight domElement) * 2 + 1).
    assert (Hqx : 0 <= offsetX event / clientWidth domElement <= 1)
      by now apply quotient_in_unit.
    assert (Hqy : 0 <= offsetY event / clientHeight domElement <= 1)
      by now apply quotient_in_unit.
    assert (Hpx : -1 <= x <= 1) by (subst x; lra).
    assert (Hpy : -1 <= y <= 1) by (subst y; lra).
    assert (Hp : pointer
                   (snd (let '(fisheye1, raycaster1) :=
                           computeRaycastRayDirection (raycaster s)
                             (mkVector2 x y) this in
                         (fisheye1,
                          mkPicking raycaster1 (mkVector2 x y)
                                    (pointerDownTime s))))
                 = mkVector2 x y)
      by now destruct (computeRaycastRayDirection _ _ _).
    rewrite Hp. cbn [px py].
    split; [split; [|split; lra]|].
    + subst x y. f_equal; field; lra.
    + split; [now destruct (computeRaycastRayDirection _ _ _)|]. split.
      * intros hit Hhit.
        pose proof (hit_origin this (raycaster s) (mkVector2 x y) hit Hhit)
          as Ho.
        now destruct (computeRaycastRayDirection _ _ _).
      * intros Hmiss. unfold computeRaycastRayDirection. rewrite Hmiss.
        split; reflexivity.
  - intros Ht. rewrite ltb_false by lra. reflexivity.
Qed.

(** X13, an instance: after the first frame, seen from [(1, 2, 3)], a
    press of 50 ms at the centre of a canvas of 800 by 600 leaves a ray
    that starts at [(1, 2, 3)]. *)
Lemma click_in_canvas_picks_witness :
  let s := pointerdown 100 setupRaycaster in
  let after := pointerup (fun rc _ => rc) 150 (mkPointerEvent 400 300)
                         (mkElement 800 600) params (fst firstFrame) s in
  pointer (snd after) = mkVector2 0 0 /\
  origin (ray (raycaster (snd after))) = mkVector3 1 2 3.
Proof.
  assert (Hw : 0 < 800) by lra.
  assert (Hh : 0 < 600) by lra.
  assert (Hx : 0 <= 400 <= 800) by lra.
  assert (Hy : 0 <= 300 <= 600) by lra.
  assert (Ht : 150 - 100 < 200) by lra.
  destruct (click_in_canvas_picks (fun rc _ => rc) (fst firstFrame)
              (snd firstFrame) 150 (mkPointerEvent 400 300)
              (mkElement 800 600) params (pointerdown 100 setupRaycaster)
              firstFrame_reachable eq_refl Hw Hh Hx Hy) as (H & _).
  destruct (H Ht) as ((Hp & _) & _ & Ho & _).
  assert (Hp0 : pointer
                  (snd (pointerup (fun rc _ => rc) 150
                          (mkPointerEvent 400 300) (mkElement 800 600)
                          params (fst firstFrame)
                          (pointerdown 100 setupRaycaster)))
                = mkVector2 0 0).
  { rewrite Hp. cbn [offsetX offsetY clientWidth clientHeight].
    f_equal; field. }
  split; [exact Hp0|].
  rewrite Hp0 in Ho.
  destruct (centre_hit (fst firstFrame) (snd firstFrame)
              (raycaster (pointerdown 100 setupRaycaster))
              (reachable_invariant _ firstFrame_reachable))
    as (hit & Hhit & _).
  rewrite (Ho hit Hhit).
  pose proof (reachable_invariant _ freshFisheye_reachable) as Hinv.
  destruct (render_posed (fst freshFisheye) (snd freshFisheye) quietRenderer
              emptyScene (cameraAt (mkVector3 1 2 3)) (mkVector3 1 2 3)
              identityQuaternion (mkVector3 1 1 1) Hinv (cameraAt_posed _))
    as (_ & _ & Hpos & _).
  exact Hpos.
Defined.

End StoryTheorems.


(** ** One call of the cube camera, whatever the renderer does *)
Module CubeCameraFrame.
Import THREE CoreCubeCamera CubeCameraHost FisheyeHost FisheyeInvariant
  RenderFacts CubeCameraTheorems.

(** X14.  What one call of [update] can and cannot do, whatever the
    renderer does.  It never creates or disposes a render target, and it
    leaves every render target but its own as it was; its own too when
    the call returns, and when the render target generates no mipmaps
    (as [CubeCamera] creates it): otherwise a capture that throws may
    leave its mipmaps switched off.  The draws it adds are the first [n]
    of the six faces of its own render target, drawn of the scene with
    the substitutes in: all six when the capture returns, fewer when the
    renderer throws, none when the budget is spent.  It leaves [params],
    [fbo] and what it closed over as they were.  And the group: a capture
    that returns leaves it visible, whether or not it was visible before
    (the flag is set, not restored); a capture that throws leaves it
    hidden; a call over the budget leaves it as it was. *)
Theorem update_touches_only_its_target this scene w :
  let c := update this scene w in
  let this1 := fst (fst (state c)) in
  let w1 := snd (state c) in
  let within := below (count this) (closureFrames this) in
  let target := THREE.renderTarget (camera this) in
  (allocated w1 = allocated w /\
   sameButMipmaps target w w1 /\
   (returned c = true -> targets w1 = targets w) /\
   (get_generateMipmaps target w = false -> targets w1 = targets w)) /\
  (exists n,
     commands w1
     = commands w
       ++ take n (sixFaces target
                           (substituted this scene)
                           (matrixWorld (cubeObject3d (camera this1)))) /\
     (within = true -> returned c = true -> n = 6%nat) /\
     (returned c = false -> (n < 6)%nat) /\
     (within = false -> n = 0%nat)) /\
  (params this1 = params this /\ fbo this1 = fbo this /\
   closureFrames this1 = closureFrames this /\
   closureRenderer this1 = closureRenderer this /\
   THREE.renderTarget (camera this1) = target) /\
  (within = true -> groupVisible this1 = returned c) /\
  (within = false -> groupVisible this1 = groupVisible this).
Proof.
  cbn zeta. unfold update. rewrite guard_is_below.
  destruct (below (count this) (closureFrames this)) eqn:Hb.
  - cbn [THREE.fog background children]. fold (substituted this scene).
    destruct (cubeCameraUpdate_spec (closureRenderer this) (camera this)
                (substituted this scene) w)
      as (Hc & Ha & n & Hcmd & Hn & Hlt & Ht).
    pose proof (cubeCameraUpdate_store (closureRenderer this) (camera this)
                  (substituted this scene) w) as Hs.
    destruct (cubeCameraUpdate _ _ _ _) as [[c1 w1]|[c1 w1]];
      cbn [state fst snd returned params fbo closureFrames closureRenderer
           camera groupVisible] in *; subst c1;
      cbn [set_cubeObject3d cubeObject3d THREE.renderTarget].
    + specialize (Hn eq_refl). subst n. cbn [Nat.ltb Nat.leb] in Ht.
      split; [split; [exact Ha|split; [exact Hs|split; intros _; exact Ht]]|].
      split; [|repeat split; discriminate].
      exists 6%nat. split; [exact Hcmd|]. repeat split; discriminate.
    + specialize (Hlt eq_refl).
      split.
      { split; [exact Ha|]. split; [exact Hs|].
        split; [discriminate|]. intros Hoff. rewrite Ht.
        destruct (n <? 5)%nat; [|reflexivity].
        now apply set_generateMipmaps_off. }
      split; [|repeat split; discriminate].
      exists n. split; [exact Hcmd|].
      repeat split; try discriminate. intros _. exact Hlt.
  - cbn [state fst snd returned].
    split; [split; [reflexivity|split; [apply sameButMipmaps_refl|
                                        split; reflexivity]]|].
    split; [|repeat split; discriminate].
    exists 0%nat. cbn. rewrite app_nil_r. repeat split; discriminate.
Qed.

End CubeCameraFrame.


(** ** The story of the cube camera *)
Module CubeCameraStoryTheorems.
Import THREE CoreCubeCamera CubeCameraHost FisheyeHost FisheyeInvariant
  RenderFacts CubeCameraTheorems CubeCameraStories CubeCameraStoriesHost.
Local Open Scope R_scope.










End CubeCameraStoryTheorems.
